(** * Invoice Maker (app.py): a shallow embedding and its verified properties

    The development follows the layout of [app.py]:
    - [PyStr]    the [str] methods the program calls ([strip], [splitlines],
                 [replace], [rfind], slices);
    - [Re]       the regular expression of [parse_items] with [re.findall];
    - [PyFloat]  Python floats (IEEE-754 binary64), [float(str)] and the
                 [",.2f"] format;
    - [Items]    [parse_items];
    - [Model]    the rows of the two tables;
    - [Pdf]      [invoice_pdf_bytes] over a model of the reportlab canvas;
    - [Web]      [secrets.token_urlsafe], the SQLite store and the Flask
                 routes as a transition system;
    - [Spec]     the notions the properties are stated with;
    - [Samples]  sample requests and rows;
    - [Schema]   [init_db] and [migrate_db] over the columns of the two
                 tables;
    - [Behaviour] and [Cases]  further notions and sample requests.
    The facts about each part follow, then the properties of the parser,
    of the pagination, of the store and routes and of the money format,
    and after them those of the sessions and lookups, of the parsed
    items, of the page count, of the schema, of the value of a price, of
    the stored rows, of the amounts printed back and of the total of
    the document.

    Text is a sequence of 8-bit code points (Latin-1): on this range the
    character classes below are exactly the ones of Python 3 ([\d] is
    [0-9], [str.isspace] and [\s] agree). *)

From Stdlib Require Import ZArith NArith List Ascii String Bool Lia.
From Stdlib Require Import QArith Qreduction.
From Stdlib Require Import Floats.SpecFloat.
Import ListNotations.

Local Open Scope Z_scope.
Local Open Scope list_scope.

(** Text: a Python [str]. *)
Definition str := list ascii.

(** A string literal as a [str]. *)
Definition lit (s : string) : str := list_ascii_of_string s.

(* ================================================================== *)
(** * Python [str] methods *)
(* ================================================================== *)
Module PyStr.

(** [ord(c)] *)
Definition ord (c : ascii) : N := N_of_ascii c.

Definition between (lo hi : N) (c : ascii) : bool :=
  (N.leb lo (ord c) && N.leb (ord c) hi)%bool.

(** [str.isspace] of one character, which is also the class [\s] of [re]
    and what [str.strip()] and [float()] remove: TAB LF VT FF CR, FS GS RS
    US, SPACE, NEL (0x85) and NBSP (0xA0). *)
Definition isspace (c : ascii) : bool :=
  (between 9 13 c || between 28 32 c
   || N.eqb (ord c) 133 || N.eqb (ord c) 160)%bool.

(** The line boundaries of [str.splitlines]: LF VT FF CR FS GS RS NEL. *)
Definition is_linebreak (c : ascii) : bool :=
  (between 10 13 c || between 28 30 c || N.eqb (ord c) 133)%bool.

(** [0-9], the class [\d]. *)
Definition is_digit (c : ascii) : bool := between 48 57 c.

Definition is_char (a c : ascii) : bool := Ascii.eqb a c.

(** [s.lstrip(chars)], [s.rstrip(chars)], [s.strip(chars)], the character
    set given as a predicate. *)
Fixpoint lstrip_by (p : ascii -> bool) (s : str) : str :=
  match s with
  | [] => []
  | c :: t => if p c then lstrip_by p t else s
  end.

Definition rstrip_by (p : ascii -> bool) (s : str) : str :=
  rev (lstrip_by p (rev s)).

Definition strip_by (p : ascii -> bool) (s : str) : str :=
  rstrip_by p (lstrip_by p s).

(** [s.strip()] *)
Definition strip (s : str) : str := strip_by isspace s.

(** [s.strip(chars)] *)
Definition strip_chars (chars : str) (s : str) : str :=
  strip_by (fun c => existsb (is_char c) chars) s.

(** [s.replace(c, "")] for a one-character [c]: every occurrence goes. *)
Definition remove_char (a : ascii) (s : str) : str :=
  filter (fun c => negb (is_char a c)) s.

(** [s.splitlines()]: [cur] is the line being read. A CR LF pair is one
    boundary, and a last line is produced only when it is not empty. *)
Fixpoint splitlines_from (cur : str) (s : str) : list str :=
  match s with
  | [] => match cur with [] => [] | _ => [cur] end
  | c :: t =>
      if is_linebreak c then
        if N.eqb (ord c) 13 then
          match t with
          | c' :: t' =>
              if N.eqb (ord c') 10 then cur :: splitlines_from [] t'
              else cur :: splitlines_from [] t
          | [] => cur :: splitlines_from [] t
          end
        else cur :: splitlines_from [] t
      else splitlines_from (cur ++ [c]) t
  end.

Definition splitlines (s : str) : list str := splitlines_from [] s.

(** [s.startswith(p)] *)
Fixpoint startswith (s p : str) : bool :=
  match p, s with
  | [], _ => true
  | _ :: _, [] => false
  | a :: p', c :: s' => (Ascii.eqb a c && startswith s' p')%bool
  end.

(** [s.rfind(sub)]: the highest index where [sub] occurs in [s], or -1.
    [i] is the index of the head of [s] in the whole string. *)
Fixpoint rfind_from (i : Z) (s sub : str) : Z :=
  match s with
  | [] => if startswith [] sub then i else -1
  | _ :: t =>
      let r := rfind_from (i + 1) t sub in
      if 0 <=? r then r else if startswith s sub then i else -1
  end.

Definition rfind (s sub : str) : Z := rfind_from 0 s sub.

Definition len (s : str) : Z := Z.of_nat (List.length s).

(** A slice bound as Python resolves it: negative bounds count from the
    end, and the result is clipped to [0, len s]. *)
Definition clip (s : str) (i : Z) : nat :=
  let j := if i <? 0 then i + len s else i in
  Z.to_nat (Z.max 0 (Z.min j (len s))).

(** [s[:i]] and [s[i:]] *)
Definition slice_to (s : str) (i : Z) : str := firstn (clip s i) s.
Definition slice_from (s : str) (i : Z) : str := skipn (clip s i) s.

End PyStr.

(* ================================================================== *)
(** * The regular expression of [parse_items] *)
(* ================================================================== *)
Module Re.
Import PyStr.

(** The expression only has character classes under [?], [*] or no
    quantifier, so a pattern is a sequence of such atoms. *)
Inductive quant := One | Opt | Star.

Definition atom : Type := (ascii -> bool) * quant.

(** Matching at the head of a string, with the backtracking of [re]:
    greedy quantifiers take as much as they can and give back one
    character at a time when the rest of the pattern fails. The result
    is the length of the match. *)
Fixpoint match_here (pat : list atom) : str -> option nat :=
  match pat with
  | [] => fun _ => Some 0%nat
  | (p, One) :: pat' => fun s =>
      match s with
      | c :: t => if p c then option_map S (match_here pat' t) else None
      | [] => None
      end
  | (p, Opt) :: pat' => fun s =>
      match s with
      | c :: t =>
          if p c then
            match match_here pat' t with
            | Some n => Some (S n)
            | None => match_here pat' s
            end
          else match_here pat' s
      | [] => match_here pat' s
      end
  | (p, Star) :: pat' =>
      fix star (s : str) : option nat :=
        match s with
        | c :: t =>
            if p c then
              match star t with
              | Some n => Some (S n)
              | None => match_here pat' s
              end
            else match_here pat' s
        | [] => match_here pat' s
        end
  end.

(** [re.findall(pat, s)] for a pattern without groups: the matches from
    left to right, the scan resuming where the last match ended ([skip]
    counts the characters of the current match still to pass). *)
Fixpoint findall_from (pat : list atom) (skip : nat) (s : str) : list str :=
  match s with
  | [] =>
      match skip, match_here pat [] with
      | O, Some _ => [[]]
      | _, _ => []
      end
  | _ :: t =>
      match skip with
      | S k => findall_from pat k t
      | O =>
          match match_here pat s with
          | Some n => firstn n s :: findall_from pat (Nat.pred n) t
          | None => findall_from pat O t
          end
      end
  end.

Definition findall (pat : list atom) (s : str) : list str :=
  findall_from pat O s.

Definition is_sign (c : ascii) : bool := (is_char "-" c || is_char "+" c)%bool.
Definition is_dollar (c : ascii) : bool := is_char "$" c.
Definition is_comma (c : ascii) : bool := is_char "," c.
Definition is_dot (c : ascii) : bool := is_char "." c.
Definition digit_or_comma (c : ascii) : bool := (is_digit c || is_comma c)%bool.

(** r"[-+]?\$?\s*\d[\d,]*\.?\d*" *)
Definition price_pattern : list atom :=
  [ (is_sign, Opt); (is_dollar, Opt); (isspace, Star); (is_digit, One);
    (digit_or_comma, Star); (is_dot, Opt); (is_digit, Star) ].

End Re.

(* ================================================================== *)
(** * Python floats *)
(* ================================================================== *)
Module PyFloat.
Import PyStr.

(** A Python [float] is an IEEE-754 binary64 number. *)
Definition float := spec_float.

Definition prec : Z := 53.
Definition emax : Z := 1024.

Definition zero : float := S754_zero false.          (* 0.0 *)
Definition fadd : float -> float -> float := SFadd prec emax.
Definition fmul : float -> float -> float := SFmul prec emax.

(** [float(n)] for an [int] n, rounded to nearest even. *)
Definition of_int (n : Z) : float := binary_normalize prec emax n 0 false.

Definition is_nan (x : float) : bool :=
  match x with S754_nan => true | _ => false end.

Definition is_finite (x : float) : bool :=
  match x with S754_zero _ | S754_finite _ _ _ => true | _ => false end.

Definition signbit (x : float) : bool :=
  match x with
  | S754_zero s | S754_infinity s | S754_finite s _ _ => s
  | S754_nan => false
  end.

(** [x < 0] *)
Definition is_negative (x : float) : bool := SFltb x zero.

(** The real number a finite float stands for, as a reduced fraction. *)
Definition to_Q (x : float) : option Q :=
  match x with
  | S754_zero _ => Some (0 # 1)%Q
  | S754_finite s m e =>
      let v := if 0 <=? e then (Zpos m * 2 ^ e # 1)%Q
               else (Zpos m # Z.to_pos (2 ^ (- e)))%Q in
      Some (Qred (if s then Qopp v else v))
  | _ => None
  end.

(** The float nearest to [(-1)^neg * m / 10^k] (ties to even): the
    quotient is rounded once, from the exact operands. *)
Definition of_decimal (neg : bool) (m : Z) (k : nat) : float :=
  match m with
  | Zpos p =>
      SFdiv prec emax (S754_finite neg p 0)
            (S754_finite false (Z.to_pos (10 ^ Z.of_nat k)) 0)
  | _ => S754_zero neg
  end.

Definition digit_val (c : ascii) : Z := Z.of_N (ord c) - 48.

(** The number written by a string of decimal digits. *)
Definition digits_val (ds : str) : Z :=
  fold_left (fun acc c => 10 * acc + digit_val c) ds 0.

Fixpoint span (p : ascii -> bool) (s : str) : str * str :=
  match s with
  | [] => ([], [])
  | c :: t =>
      if p c then let (a, b) := span p t in (c :: a, b) else ([], s)
  end.

Definition nonempty (s : str) : bool :=
  match s with [] => false | _ => true end.

(** The whitespace [float] drops around a number: that of [str.strip]
    but for FS, GS, RS and US. *)
Definition float_space (c : ascii) : bool :=
  (between 9 13 c || N.eqb (ord c) 32
   || N.eqb (ord c) 133 || N.eqb (ord c) 160)%bool.

(** [float(s)] on the strings that reach it in [parse_items]: after the
    surrounding whitespace is dropped, an optional sign, then digits with
    at most one point and at least one digit. [None] is [ValueError].
    (The exponent, underscore, [inf] and [nan] forms of [float] all need
    a letter or an underscore, which the cleaned text of a match never
    contains: see [ItemsFacts.cleaned_alphabet].) *)
Definition float_of_str (s : str) : option float :=
  let s := strip_by float_space s in
  let '(neg, body) :=
    match s with
    | c :: t => if is_char "-" c then (true, t)
                else if is_char "+" c then (false, t) else (false, s)
    | [] => (false, s)
    end in
  let '(ip, rest) := span is_digit body in
  match rest with
  | [] => if nonempty ip then Some (of_decimal neg (digits_val ip) 0)
          else None
  | c :: fr =>
      if (is_char "." c && forallb is_digit fr
          && (nonempty ip || nonempty fr))%bool
      then Some (of_decimal neg (digits_val (ip ++ fr)) (List.length fr))
      else None
  end.

(** ** The format [",.2f"] *)

Definition digit_char (d : Z) : ascii := ascii_of_N (Z.to_N (48 + d)).

(** The decimal digits of [n >= 0], most significant first. *)
Fixpoint dec_digits (fuel : nat) (n : Z) (acc : str) : str :=
  match fuel with
  | O => acc
  | S f =>
      let acc' := digit_char (n mod 10) :: acc in
      if n <? 10 then acc' else dec_digits f (n / 10) acc'
  end.

Definition int_str (n : Z) : str :=
  dec_digits (S (Z.to_nat (Z.log2 n))) n [].

(** The thousands separators, over the digits least significant first:
    [k] digits of the current group are already out. *)
Fixpoint commas_rev (k : nat) (ds : str) : str :=
  match ds with
  | [] => []
  | d :: t =>
      if Nat.eqb k 3 then "," :: d :: commas_rev 1 t
      else d :: commas_rev (S k) t
  end%char.

Definition thousands (ds : str) : str := rev (commas_rev 0 (rev ds)).

(** [|x| * 100] rounded to an integer, ties to even, for [|x| = m * 2^e]. *)
Definition hundredths (m : positive) (e : Z) : Z :=
  if 0 <=? e then Zpos m * 2 ^ e * 100
  else
    let d := 2 ^ (- e) in
    let (q, r) := Z.div_eucl (Zpos m * 100) d in
    match 2 * r ?= d with
    | Lt => q
    | Gt => q + 1
    | Eq => if Z.even q then q else q + 1
    end.

Definition sign_str (s : bool) : str := if s then lit "-" else [].

(** The text of [h] hundredths: grouped integer part, point, two digits. *)
Definition fixed2 (h : Z) : str :=
  thousands (int_str (h / 100))
  ++ lit "." ++ [digit_char (h mod 100 / 10); digit_char (h mod 10)].

(** [format(x, ",.2f")], the [{x:,.2f}] of an f-string. *)
Definition format_2f (x : float) : str :=
  match x with
  | S754_nan => lit "nan"
  | S754_infinity s => sign_str s ++ lit "inf"
  | S754_zero s => sign_str s ++ fixed2 0
  | S754_finite s m e => sign_str s ++ fixed2 (hundredths m e)
  end.

End PyFloat.

(* ================================================================== *)
(** * The items parser *)
(* ================================================================== *)
Module Items.
Import PyStr Re PyFloat.

(** One entry of the list [parse_items] returns:
    [{"desc": desc, "qty": 1, "unit_price": unit_price}]. *)
Record item := { desc : str; qty : Z; unit_price : float }.

Inductive error := ValueError (msg : str).

(** [nums[-1]] when [nums] is not empty. *)
Definition last_of (nums : list str) : option str :=
  match rev nums with
  | last :: _ => Some last
  | [] => None
  end.

(** [last.replace("$", "").replace(",", "").strip()] *)
Definition cleaned (last : str) : str :=
  strip (remove_char "," (remove_char "$" last)).

(** [try: float(cleaned) except ValueError: 0.0] *)
Definition price_of (last : str) : float :=
  match float_of_str (cleaned last) with
  | Some x => x
  | None => zero
  end.

Definition separators : str := lit " -:|".

(** [(line[:idx] + line[idx + len(last):]).strip(" -:|")] *)
Definition cut (line last : str) (idx : Z) : str :=
  strip_chars separators
    (slice_to line idx ++ slice_from line (idx + len last)).

(** The body of the loop for a line that passed the blank test. *)
Definition parse_line (line : str) : item :=
  let nums := findall price_pattern line in
  match last_of nums with
  | Some last =>
      let idx := rfind line last in
      let d := cut line last idx in
      {| desc := if nonempty d then d else line;
         qty := 1;
         unit_price := price_of last |}
  | None => {| desc := line; qty := 1; unit_price := zero |}
  end.

(** One turn of [for line in raw.splitlines()], [items] being the list
    built so far. *)
Definition loop_body (items : list item) (line : str) : list item :=
  let line := strip line in
  if nonempty line then items ++ [parse_line line]
  else items.                                           (* continue *)

Definition no_items : error := ValueError (lit "Add at least 1 item line.").

(** [parse_items(raw)]; [raw or ""] is [raw] on a [str]. *)
Definition parse_items (raw : str) : list item + error :=
  match fold_left loop_body (splitlines raw) [] with
  | [] => inr no_items
  | items => inl items
  end.

End Items.

(* ================================================================== *)
(** * The tables of the store *)
(* ================================================================== *)
Module Model.
Import PyFloat Items.

(** A row of [users]. *)
Record user := {
  user_id : Z;
  username : str;
  password_hash : str;
  role : str;
  user_created_at : str
}.

(** A row of [invoices]; [items_json] holds the item list, which
    [json.dumps] and [json.loads] carry over unchanged. *)
Record invoice := {
  id : Z;
  invoice_number : str;
  client_name : str;
  client_email : str;
  client_address : str;
  issue_date : str;
  due_date : str;
  currency : str;
  items_json : list item;
  payment_methods : str;
  notes : str;
  total_amount : float;
  created_by_user_id : Z;
  view_token : str;
  created_at : str
}.

Record database := { users : list user; invoices : list invoice }.

End Model.

(* ================================================================== *)
(** * PDF rendering *)
(* ================================================================== *)
Module Pdf.
Import PyStr PyFloat Items Model.

(** The calls made on the reportlab canvas. Coordinates are points; every
    coordinate the program computes is a whole number. *)
Inductive op :=
| SetFont (name : string) (size : Z)
| DrawString (x y : Z) (text : str)
| DrawRightString (x y : Z) (text : str)
| DrawCentredString (x y : Z) (text : str)
| Line (x1 y1 x2 y2 : Z)
| SetStrokeColorRGB (r g b : Q)
| SetFillColorRGB (r g b : Q)
| DrawImage (x y width height : Z)
| LinkURL (url : str) (x1 y1 x2 y2 : Z).

(** A canvas: the pages already finished and the code of the page being
    drawn. *)
Record canvas := { pages : list (list op); code : list op }.

Definition new_canvas : canvas := {| pages := []; code := [] |}.

Definition emit (o : op) (c : canvas) : canvas :=
  {| pages := pages c; code := code c ++ [o] |}.

(** [c.showPage()] *)
Definition showPage (c : canvas) : canvas :=
  {| pages := pages c ++ [code c]; code := [] |}.

(** [c.save()]: a page with code on it is finished first; the result is
    the document, page by page. *)
Definition save (c : canvas) : list (list op) :=
  match code c with
  | [] => pages c
  | _ => pages (showPage c)
  end.

(** [reportlab.lib.pagesizes.letter] *)
Definition page_w : Z := 612.
Definition page_h : Z := 792.

Definition COMPANY_WEBSITE : str := lit "https://cargomonterrey.com/".
Definition FOOTER_SPACE : Z := 160.
Definition footer_y : Z := 80.

Definition str_eqb (a b : str) : bool :=
  if list_eq_dec ascii_dec a b then true else false.

(** The nested function [money] of [invoice_pdf_bytes], [currency] being
    the variable it closes over. *)
Definition money (currency : str) (x : float) : str :=
  let sym := if str_eqb currency (lit "USD") then lit "$" else [] in
  strip (sym ++ format_2f x ++ lit " " ++ currency).

(** State of the items loop: canvas, cursor [y], running [total]. *)
Definition loop_state : Type := canvas * Z * float.

(** One turn of [for it in items]. *)
Definition item_step (currency : str) (st : loop_state) (it : item)
  : loop_state :=
  let '(c, y, total) := st in
  let line_total := fmul (of_int (qty it)) (unit_price it) in
  let total := fadd total line_total in
  let '(c, y) :=
    if y <? FOOTER_SPACE
    then (emit (SetFont "Helvetica" 10) (showPage c), page_h - 60)
    else (c, y) in
  let c := emit (DrawString 50 y (firstn 80 (desc it))) c in
  let c := emit (DrawRightString 560 y (money currency line_total)) c in
  (c, y - 14, total).

Definition draw_items (currency : str) (items : list item) (st : loop_state)
  : loop_state :=
  fold_left (item_step currency) items st.

(** [for line in client_address.splitlines()] *)
Definition address_step (st : canvas * Z) (line : str) : canvas * Z :=
  let '(c, y) := st in
  let y := y - 14 in
  (emit (DrawString 50 y (firstn 110 line)) c, y).

(** Everything drawn before the items loop: title, invoice data, bill-to
    block and the head of the table. *)
Definition draw_header (currency : str) (inv : invoice) : canvas * Z :=
  let c := new_canvas in
  let y := page_h - 60 in
  let c := emit (SetFont "Helvetica-Bold" 18) c in
  let c := emit (DrawString 50 y (lit "INVOICE")) c in
  let y := y - 26 in
  let c := emit (SetFont "Helvetica" 10) c in
  let c := emit (DrawString 50 y (lit "Invoice #: " ++ invoice_number inv)) c in
  let y := y - 14 in
  let c := emit (DrawString 50 y
             (lit "Issue: " ++ issue_date inv ++ lit "    Due: "
              ++ due_date inv ++ lit "    Currency: " ++ currency)) c in
  let y := y - 22 in
  let c := emit (SetFont "Helvetica-Bold" 11) c in
  let c := emit (DrawString 50 y (lit "Bill To:")) c in
  let y := y - 14 in
  let c := emit (SetFont "Helvetica" 10) c in
  let c := emit (DrawString 50 y (client_name inv)) c in
  let '(c, y) :=
    if nonempty (client_email inv)
    then (emit (DrawString 50 (y - 14) (client_email inv)) c, y - 14)
    else (c, y) in
  let '(c, y) :=
    if nonempty (client_address inv)
    then fold_left address_step (splitlines (client_address inv)) (c, y)
    else (c, y) in
  let y := y - 24 in
  let c := emit (SetFont "Helvetica-Bold" 10) c in
  let c := emit (DrawString 50 y (lit "Item")) c in
  let c := emit (DrawRightString 560 y (lit "Amount")) c in
  let y := y - 10 in
  let c := emit (Line 50 y 560 y) c in
  let y := y - 16 in
  let c := emit (SetFont "Helvetica" 10) c in
  (c, y).

(** The total line, drawn where the loop left the cursor. *)
Definition draw_total (currency : str) (st : loop_state) : canvas :=
  let '(c, y, total) := st in
  let y := y - 8 in
  let c := emit (SetFont "Helvetica-Bold" 12) c in
  emit (DrawRightString 560 y (lit "TOTAL: " ++ money currency total)) c.

(** The footer: rule, logo (skipped when the image cannot be read),
    caption, website and its link area. *)
Definition draw_footer (logo_readable : bool) (c : canvas) : canvas :=
  let c := emit (SetStrokeColorRGB (3 # 4) (3 # 4) (3 # 4)) c in
  let c := emit (Line 50 (footer_y + 75) (page_w - 50) (footer_y + 75)) c in
  let c :=
    if logo_readable
    then emit (DrawImage ((page_w - 220) / 2) footer_y 220 65) c
    else c in
  let c := emit (SetFont "Helvetica-Bold" 11) c in
  let c := emit (SetFillColorRGB 0 0 0) c in
  let c := emit (DrawCentredString (page_w / 2) (footer_y - 10)
                   (lit "Visit our website:")) c in
  let c := emit (SetFillColorRGB 0 0 1) c in
  let c := emit (DrawCentredString (page_w / 2) (footer_y - 25)
                   COMPANY_WEBSITE) c in
  let c := emit (LinkURL COMPANY_WEBSITE (page_w / 2 - 150) (footer_y - 30)
                   (page_w / 2 + 150) (footer_y - 5)) c in
  emit (SetFillColorRGB 0 0 0) c.

Section Rendering.
(** [str.upper], the case mapping of the Python runtime. *)
Variable upper : str -> str.
(** Whether [ImageReader(LOGO_FILE)] succeeds. *)
Variable logo_readable : bool.

(** [invoice_pdf_bytes(inv, items)]: the pages of the document written
    to the buffer. *)
Definition invoice_pdf_bytes (inv : invoice) (items : list item)
  : list (list op) :=
  let cur := upper (currency inv) in
  let '(c, y) := draw_header cur inv in
  let st := draw_items cur items (c, y, zero) in
  let c := draw_total cur st in
  save (draw_footer logo_readable c).

End Rendering.

End Pdf.

(* ================================================================== *)
(** * The store and the routes *)
(* ================================================================== *)
Module Web.
Import PyStr PyFloat Items Model Pdf.

(** ** [secrets.token_urlsafe] *)

Definition b64_alphabet : str :=
  lit "ABCDEFGHIJKLMNOPQRSTUVWXYZabcdefghijklmnopqrstuvwxyz0123456789-_".

(** The character of a 6-bit group in the URL-safe alphabet. *)
Definition sextet (n : N) : ascii :=
  nth (N.to_nat (N.land n 63)) b64_alphabet "="%char.

Definition byte_val (x : Byte.byte) : N := Byte.to_N x.

(** [base64.urlsafe_b64encode] *)
Fixpoint urlsafe_b64encode (bs : list Byte.byte) : str :=
  match bs with
  | x :: y :: z :: rest =>
      let n := N.lor (N.shiftl (byte_val x) 16)
                     (N.lor (N.shiftl (byte_val y) 8) (byte_val z)) in
      sextet (N.shiftr n 18) :: sextet (N.shiftr n 12)
      :: sextet (N.shiftr n 6) :: sextet n :: urlsafe_b64encode rest
  | [x; y] =>
      let n := N.lor (N.shiftl (byte_val x) 16) (N.shiftl (byte_val y) 8) in
      [sextet (N.shiftr n 18); sextet (N.shiftr n 12);
       sextet (N.shiftr n 6); "="%char]
  | [x] =>
      let n := N.shiftl (byte_val x) 16 in
      [sextet (N.shiftr n 18); sextet (N.shiftr n 12); "="%char; "="%char]
  | [] => []
  end.

(** The operating system's random source, as the stream of bytes a
    request draws from. *)
Definition entropy : Type := nat -> Byte.byte.

(** [secrets.token_bytes(n)] *)
Definition token_bytes (n : nat) (rnd : entropy) : list Byte.byte :=
  map rnd (seq 0 n).

(** [secrets.token_urlsafe(n)]:
    [base64.urlsafe_b64encode(token_bytes(n)).rstrip(b"=").decode("ascii")] *)
Definition token_urlsafe (n : nat) (rnd : entropy) : str :=
  rstrip_by (is_char "=") (urlsafe_b64encode (token_bytes n rnd)).

(** ** Requests and responses *)

Inductive method := GET | POST.

(** What the signed session cookie holds after [login]. *)
Record session_data := { s_user_id : Z; s_username : str; s_role : str }.

(** The session: [None] is the empty session. *)
Definition session : Type := option session_data.

Record request := {
  meth : method;
  form : list (string * str);
  sess : session
}.

(** What a request reads from outside the program: the clock
    ([datetime.utcnow().isoformat()]) and the random source. *)
Record env := { now : str; random : entropy }.

(** [request.form.get(key, default)] *)
Fixpoint form_get (f : list (string * str)) (key : string) (default : str)
  : str :=
  match f with
  | [] => default
  | (k, v) :: f' => if String.eqb k key then v else form_get f' key default
  end.

(** The fragment a page shows inside the common template of [page]. *)
Inductive view :=
| OwnerAlreadyExists
| WrongSetupKey
| BadInput
| OwnerSetupForm
| InvalidLogin
| LoginForm
| DashboardView (username role : str) (rows : list invoice)
| MissingRequiredFields
| ItemsError (msg : str)
| CreateInvoiceForm
| InvoiceNotFound
| CreatedView (inv : invoice)
| PublicInvoice (inv : invoice).

Inductive response :=
| Page (title : string) (v : view)         (* return page(title, body) *)
| Redirect (endpoint : string) (arg : option Z)
| Status (status : Z) (text : string)      (* return text, status *)
| SendFile (document : list (list op)) (download_name : str)
| PlainText (text : string)
| ServerError.                             (* an exception left uncaught *)

(** The HTTP status Flask answers with. *)
Definition status_code (r : response) : Z :=
  match r with
  | Page _ _ => 200
  | Redirect _ _ => 302
  | Status st _ => st
  | SendFile _ _ => 200
  | PlainText _ => 200
  | ServerError => 500
  end.

(** What a view function leaves behind. *)
Record result := { resp : response; sess_out : session; db_out : database }.

(** ** The store *)

(** [init_db()] on a new file: both tables empty. *)
Definition init_db : database := {| users := []; invoices := [] |}.

Definition owner : str := lit "owner".
Definition employee : str := lit "employee".

(** [any_owner_exists()] *)
Definition any_owner_exists (d : database) : bool :=
  existsb (fun u => str_eqb (role u) owner) (users d).

Definition next_id {A} (rows : list A) : Z := Z.of_nat (List.length rows) + 1.

(** [INSERT INTO users ...]: [username] is [UNIQUE]; [None] is the
    [IntegrityError] of a refused row. *)
Definition insert_user (d : database) (name hash : str) (created : str)
  : option database :=
  if existsb (fun u => str_eqb (username u) name) (users d) then None
  else Some {| users := users d ++
                 [{| user_id := next_id (users d); username := name;
                     password_hash := hash; role := owner;
                     user_created_at := created |}];
               invoices := invoices d |}.

(** [INSERT INTO invoices ...]: [view_token] is [UNIQUE] and
    [total_amount] is [REAL NOT NULL], a NaN being bound as NULL. The
    new row gets the next [id], returned as [lastrowid]. *)
Definition insert_invoice (d : database) (row : invoice)
  : option (Z * database) :=
  if (existsb (fun i => str_eqb (view_token i) (view_token row)) (invoices d)
      || is_nan (total_amount row))%bool
  then None
  else
    let new_id := next_id (invoices d) in
    Some (new_id,
          {| users := users d;
             invoices := invoices d ++
               [{| id := new_id;
                   invoice_number := invoice_number row;
                   client_name := client_name row;
                   client_email := client_email row;
                   client_address := client_address row;
                   issue_date := issue_date row;
                   due_date := due_date row;
                   currency := currency row;
                   items_json := items_json row;
                   payment_methods := payment_methods row;
                   notes := notes row;
                   total_amount := total_amount row;
                   created_by_user_id := created_by_user_id row;
                   view_token := view_token row;
                   created_at := created_at row |}] |}).

(** [sum(float(i["qty"]) * float(i["unit_price"]) for i in items)]: the
    terms are added from left to right, starting from 0 (the loop of
    [sum] as such; CPython 3.12 and later also carry a correction term
    for the rounding errors of float terms). *)
Definition line_total (it : item) : float :=
  fmul (of_int (qty it)) (unit_price it).

Definition invoice_total (items : list item) : float :=
  fold_left fadd (map line_total items) (of_int 0).

(** ** The routes *)

Section Routes.
(** The runtime and the deployment: [str.upper], werkzeug's password
    hashing, the [OWNER_SETUP_KEY] setting and whether the logo file can
    be read. *)
Variable upper : str -> str.
Variable generate_password_hash : str -> entropy -> str.
Variable check_password_hash : str -> str -> bool.
Variable OWNER_SETUP_KEY : str.
Variable logo_readable : bool.

Definition answer (req : request) (d : database) (r : response) : result :=
  {| resp := r; sess_out := sess req; db_out := d |}.

Definition is_staff_role (r : str) : bool :=
  (str_eqb r owner || str_eqb r employee)%bool.

(** The decorator [staff_required]. *)
Definition staff_required
  (fn : session_data -> env -> request -> database -> result)
  (e : env) (req : request) (d : database) : result :=
  match sess req with
  | None => answer req d (Redirect "login" None)
  | Some s =>
      if is_staff_role (s_role s) then fn s e req d
      else answer req d (Status 403 "No access")
  end.

(** A view registered with [app.get] answers GET only. *)
Definition get_only (fn : env -> request -> database -> result)
  (e : env) (req : request) (d : database) : result :=
  match meth req with
  | GET => fn e req d
  | POST => answer req d (Status 405 "Method Not Allowed")
  end.

Definition home (e : env) (req : request) (d : database) : result :=
  match sess req with
  | Some s =>
      if s_user_id s =? 0 then answer req d (Redirect "login" None)
      else answer req d (Redirect "dashboard" None)
  | None => answer req d (Redirect "login" None)
  end.

Definition owner_setup (e : env) (req : request) (d : database) : result :=
  if any_owner_exists d then answer req d (Page "Owner Setup" OwnerAlreadyExists)
  else
    match meth req with
    | POST =>
        let key := form_get (form req) "setup_key" [] in
        let username := strip (form_get (form req) "username" []) in
        let password := form_get (form req) "password" [] in
        let password2 := form_get (form req) "password2" [] in
        if negb (str_eqb key OWNER_SETUP_KEY)
        then answer req d (Page "Owner Setup" WrongSetupKey)
        else if ((len username <? 3) || (len password <? 6)
                 || negb (str_eqb password password2))%bool
        then answer req d (Page "Owner Setup" BadInput)
        else
          match insert_user d username
                  (generate_password_hash password (random e)) (now e) with
          | Some d' => answer req d' (Redirect "login" None)
          | None => answer req d ServerError
          end
    | GET => answer req d (Page "Owner Setup" OwnerSetupForm)
    end.

Definition login (e : env) (req : request) (d : database) : result :=
  match meth req with
  | POST =>
      let u := strip (form_get (form req) "username" []) in
      let p := form_get (form req) "password" [] in
      match find (fun x => str_eqb (username x) u) (users d) with
      | Some user =>
          if check_password_hash (password_hash user) p
          then {| resp := Redirect "dashboard" None;
                  sess_out := Some {| s_user_id := user_id user;
                                      s_username := username user;
                                      s_role := role user |};
                  db_out := d |}
          else answer req d (Page "Login" InvalidLogin)
      | None => answer req d (Page "Login" InvalidLogin)
      end
  | GET => answer req d (Page "Login" LoginForm)
  end.

Definition logout (e : env) (req : request) (d : database) : result :=
  {| resp := Redirect "login" None; sess_out := None; db_out := d |}.

Definition dashboard (s : session_data) (e : env) (req : request)
  (d : database) : result :=
  answer req d
    (Page "Dashboard"
       (DashboardView (s_username s) (s_role s)
          (firstn 250 (rev (invoices d))))).

Definition new_invoice (s : session_data) (e : env) (req : request)
  (d : database) : result :=
  match meth req with
  | POST =>
      let f := form req in
      let invoice_number := strip (form_get f "invoice_number" []) in
      let client_name := strip (form_get f "client_name" []) in
      let client_email := strip (form_get f "client_email" []) in
      let client_address := strip (form_get f "client_address" []) in
      let issue_date := strip (form_get f "issue_date" []) in
      let due_date := strip (form_get f "due_date" []) in
      let currency :=
        let c := form_get f "currency" (lit "USD") in
        upper (if nonempty c then c else lit "USD") in
      let items_raw := form_get f "items_raw" [] in
      let payment_methods := strip (form_get f "payment_methods" []) in
      let notes := strip (form_get f "notes" []) in
      if (negb (nonempty invoice_number) || negb (nonempty client_name)
          || negb (nonempty issue_date) || negb (nonempty due_date))%bool
      then answer req d (Page "Create Invoice" MissingRequiredFields)
      else
        match parse_items items_raw with
        | inr (ValueError msg) =>
            answer req d (Page "Create Invoice" (ItemsError msg))
        | inl items =>
            let total := invoice_total items in
            let token := token_urlsafe 18 (random e) in
            let created_at := now e in
            match insert_invoice d
                    {| id := 0;
                       invoice_number := invoice_number;
                       client_name := client_name;
                       client_email := client_email;
                       client_address := client_address;
                       issue_date := issue_date;
                       due_date := due_date;
                       currency := currency;
                       items_json := items;
                       payment_methods := payment_methods;
                       notes := notes;
                       total_amount := total;
                       created_by_user_id := s_user_id s;
                       view_token := token;
                       created_at := created_at |} with
            | Some (invoice_id, d') =>
                answer req d' (Redirect "created" (Some invoice_id))
            | None => answer req d ServerError
            end
        end
  | GET => answer req d (Page "Create Invoice" CreateInvoiceForm)
  end.

Definition by_id (d : database) (invoice_id : Z) : option invoice :=
  find (fun i => id i =? invoice_id) (invoices d).

Definition by_token (d : database) (token : str) : option invoice :=
  find (fun i => str_eqb (view_token i) token) (invoices d).

Definition created (invoice_id : Z) (s : session_data) (e : env)
  (req : request) (d : database) : result :=
  match by_id d invoice_id with
  | Some inv => answer req d (Page "Created" (CreatedView inv))
  | None => answer req d (Page "Not Found" InvoiceNotFound)
  end.

Definition download (inv : invoice) : response :=
  SendFile (invoice_pdf_bytes upper logo_readable inv (items_json inv))
           (invoice_number inv ++ lit ".pdf").

Definition invoice_pdf (invoice_id : Z) (s : session_data) (e : env)
  (req : request) (d : database) : result :=
  match by_id d invoice_id with
  | Some inv => answer req d (download inv)
  | None => answer req d (Status 404 "Not found")
  end.

Definition public_view (token : str) (e : env) (req : request)
  (d : database) : result :=
  match by_token d token with
  | Some inv => answer req d (Page "Invoice" (PublicInvoice inv))
  | None => answer req d (Status 404 "Not found")
  end.

Definition public_pdf (token : str) (e : env) (req : request)
  (d : database) : result :=
  match by_token d token with
  | Some inv => answer req d (download inv)
  | None => answer req d (Status 404 "Not found")
  end.

Definition health (e : env) (req : request) (d : database) : result :=
  answer req d (PlainText "ok").

(** The URL map. *)
Inductive route :=
| Home
| OwnerSetup
| Login
| Logout
| Dashboard
| NewInvoice
| Created (invoice_id : Z)
| InvoicePdf (invoice_id : Z)
| PublicView (token : str)
| PublicPdf (token : str)
| Health.

Definition handle (r : route) : env -> request -> database -> result :=
  match r with
  | Home => get_only home
  | OwnerSetup => owner_setup
  | Login => login
  | Logout => get_only logout
  | Dashboard => get_only (staff_required dashboard)
  | NewInvoice => staff_required new_invoice
  | Created i => get_only (staff_required (created i))
  | InvoicePdf i => get_only (staff_required (invoice_pdf i))
  | PublicView t => get_only (public_view t)
  | PublicPdf t => get_only (public_pdf t)
  | Health => get_only health
  end.

(** One request served. *)
Inductive step : database -> database -> Prop :=
| step_request r e req d : step d (db_out (handle r e req d)).

(** The stores the application can be in after [d]. *)
Inductive reachable_from (d : database) : database -> Prop :=
| reach_here : reachable_from d d
| reach_step d1 d2 : reachable_from d d1 -> step d1 d2 -> reachable_from d d2.

(** The stores of an application started on a new database file. *)
Definition reachable : database -> Prop := reachable_from init_db.

End Routes.

End Web.

(* ================================================================== *)
(** * Notions used to state the properties *)
(* ================================================================== *)
Module Spec.
Import PyStr Re PyFloat Items Model Pdf Web.

(** A line is blank when it only has whitespace. *)
Definition nonblank (line : str) : bool :=
  existsb (fun c => negb (isspace c)) line.

(** The lines of the raw text [parse_items] makes items of. *)
Definition nonblank_lines (raw : str) : list str :=
  filter nonblank (splitlines raw).

(** The item the loop of [parse_items] makes of a line of the text. *)
Definition item_of_line (line : str) : item := parse_line (strip line).

(** The strings a pattern denotes. *)
Inductive matches : list atom -> str -> Prop :=
| m_nil : matches [] []
| m_one p pat c s :
    p c = true -> matches pat s -> matches ((p, One) :: pat) (c :: s)
| m_opt_skip p pat s :
    matches pat s -> matches ((p, Opt) :: pat) s
| m_opt_take p pat c s :
    p c = true -> matches pat s -> matches ((p, Opt) :: pat) (c :: s)
| m_star_stop p pat s :
    matches pat s -> matches ((p, Star) :: pat) s
| m_star_more p pat c s :
    p c = true -> matches ((p, Star) :: pat) s ->
    matches ((p, Star) :: pat) (c :: s).

(** Zero or one character of a class. *)
Definition at_most_one (p : ascii -> bool) (s : str) : Prop :=
  s = [] \/ exists c, s = [c] /\ p c = true.

(** The shape of a price: optional sign, optional currency symbol,
    optional whitespace, digits with optional thousands separators,
    optional decimal portion. *)
Inductive numeric : str -> Prop :=
| numeric_intro sign dollar ws d body dot frac :
    at_most_one is_sign sign ->
    at_most_one is_dollar dollar ->
    forallb isspace ws = true ->
    is_digit d = true ->
    forallb digit_or_comma body = true ->
    at_most_one is_dot dot ->
    forallb is_digit frac = true ->
    numeric (sign ++ dollar ++ ws ++ d :: body ++ dot ++ frac).

(** [sub] occurs in [s] with [pre] before it and [post] after it. *)
Definition occurs (s pre sub post : str) : Prop := s = pre ++ sub ++ post.

(** [s.find(sub)]: the lowest index where [sub] occurs in [s], or -1. *)
Fixpoint find_from (i : Z) (s sub : str) : Z :=
  match s with
  | [] => if startswith [] sub then i else -1
  | _ :: t => if startswith s sub then i else find_from (i + 1) t sub
  end.

(** The description as the specification words it: the first occurrence
    of the match is removed from the line. *)
Definition desc_first_occurrence (line last : str) : str :=
  let d := cut line last (find_from 0 line last) in
  if nonempty d then d else line.

(** Digits in groups of three separated by commas, the first group
    having one to three digits. *)
Inductive grouped : str -> Prop :=
| grouped_1 a : is_digit a = true -> grouped [a]
| grouped_2 a b : is_digit a = true -> is_digit b = true -> grouped [a; b]
| grouped_3 a b c :
    is_digit a = true -> is_digit b = true -> is_digit c = true ->
    grouped [a; b; c]
| grouped_more g a b c :
    grouped g ->
    is_digit a = true -> is_digit b = true -> is_digit c = true ->
    grouped (g ++ ("," :: a :: b :: [c]))%char.

(** The hundredths [format_2f] writes for a finite float. *)
Definition hundredths_of (x : float) : Z :=
  match x with
  | S754_finite _ m e => hundredths m e
  | _ => 0
  end.

(** A three-letter currency code. *)
Definition is_upper_letter (c : ascii) : bool := between 65 90 c.

Definition currency_code (c : str) : Prop :=
  List.length c = 3%nat /\ forallb is_upper_letter c = true.

(** The calls that draw the footer's brand mark and link. *)
Definition is_brand (o : op) : bool :=
  match o with DrawImage _ _ _ _ => true | _ => false end.

Definition is_link (o : op) : bool :=
  match o with LinkURL _ _ _ _ _ => true | _ => false end.

Definition is_caption (o : op) : bool :=
  match o with DrawCentredString _ _ _ => true | _ => false end.

Definition count (p : op -> bool) (page : list op) : nat :=
  List.length (filter p page).

(** The vertical position of a text call. *)
Definition text_y (o : op) : option Z :=
  match o with
  | DrawString _ y _ | DrawRightString _ y _ | DrawCentredString _ y _ =>
      Some y
  | _ => None
  end.

(** Every text call of [ops] lies at or above [y0]. *)
Definition text_above (y0 : Z) (ops : list op) : Prop :=
  Forall (fun o => match text_y o with Some y => y0 <= y | None => True end)
         ops.

(** Everything a canvas holds, in drawing order. *)
Definition drawn (c : canvas) : list op := List.concat (pages c) ++ code c.

(** The calls of the footer. *)
Definition footer_ops (logo_readable : bool) : list op :=
  code (draw_footer logo_readable new_canvas).

Definition is_footer (o : op) : bool :=
  (is_brand o || is_link o || is_caption o)%bool.

(** A canvas without any call of the footer. *)
Definition clean (c : canvas) : Prop :=
  Forall (fun o => is_footer o = false) (drawn c).

(** The item rows that fit under a cursor at [y] before a page break. *)
Definition capacity (y : Z) : Z :=
  if y <? FOOTER_SPACE then 0 else (y - FOOTER_SPACE) / 14 + 1.

(** The two calls that draw the row of an item at [y]. *)
Definition row_ops (currency : str) (y : Z) (it : item) : list op :=
  [ DrawString 50 y (firstn 80 (desc it));
    DrawRightString 560 y
      (money currency (fmul (of_int (qty it)) (unit_price it))) ].

(** The characters of a URL-safe token: letters, digits, hyphen and
    underscore. *)
Definition is_urlsafe (c : ascii) : bool :=
  (between 65 90 c || between 97 122 c || is_digit c
   || is_char "-" c || is_char "_" c)%bool.



(** A required field of the invoice form is empty once stripped. *)
Definition missing_required (req : request) : bool :=
  let f := form req in
  (negb (nonempty (strip (form_get f "invoice_number" [])))
   || negb (nonempty (strip (form_get f "client_name" [])))
   || negb (nonempty (strip (form_get f "issue_date" [])))
   || negb (nonempty (strip (form_get f "due_date" []))))%bool.

(** The owner-setup form breaks the password policy: user name under 3
    characters, password under 6, or a confirmation that differs. *)
Definition password_policy_violated (req : request) : bool :=
  let f := form req in
  ((len (strip (form_get f "username" [])) <? 3)
   || (len (form_get f "password" []) <? 6)
   || negb (str_eqb (form_get f "password" []) (form_get f "password2" [])))%bool.

(** What serving one request can do to the store: nothing, the first
    owner, or a new invoice made of parsed items. *)
Inductive effect (e : env) (d : database) : database -> Prop :=
| no_effect : effect e d d
| owner_created name hash d' :
    any_owner_exists d = false ->
    insert_user d name hash (now e) = Some d' ->
    effect e d d'
| invoice_created raw items row new_id d' :
    parse_items raw = inl items ->
    items_json row = items ->
    total_amount row = invoice_total items ->
    view_token row = token_urlsafe 18 (random e) ->
    insert_invoice d row = Some (new_id, d') ->
    effect e d d'.

End Spec.

(* ================================================================== *)
(** * Sample data *)
(* ================================================================== *)
Module Samples.
Import PyStr PyFloat Items Model Pdf Web.

(** [str.upper] on ASCII text. *)
Definition upper_ascii (s : str) : str :=
  map (fun c => if between 97 122 c
                then ascii_of_N (ord c - 32) else c) s.

(** A stand-in for werkzeug's salted hash: salt and password, and the
    matching check. *)
Definition sample_hash (password : str) (rnd : entropy) : str :=
  ascii_of_N (Byte.to_N (rnd 0%nat)) :: password.

Definition sample_check (hash password : str) : bool :=
  match hash with
  | _ :: h => str_eqb h password
  | [] => false
  end.

(** The value of [OWNER_SETUP_KEY] when the environment sets none. *)
Definition sample_key : str := lit "CHANGE-ME-SETUP-KEY".

(** The bytes 0, 1, 2, ... as a random source. *)
Definition counting : entropy :=
  fun i => match Byte.of_N (N.of_nat i) with Some x => x | None => Byte.x00 end.

Definition sample_env : env :=
  {| now := lit "2024-01-01T00:00:00"; random := fun _ => Byte.x00 |}.

Definition sample_invoice : invoice :=
  {| id := 1; invoice_number := lit "INV-1"; client_name := lit "ACME";
     client_email := []; client_address := [];
     issue_date := lit "2024-01-01"; due_date := lit "2024-01-15";
     currency := lit "USD"; items_json := [];
     payment_methods := []; notes := [];
     total_amount := zero; created_by_user_id := 1;
     view_token := []; created_at := [] |}.

Definition sample_item : item :=
  {| desc := lit "Fee"; qty := 1; unit_price := of_int 1 |}.

Definition staff : session :=
  Some {| s_user_id := 1; s_username := lit "ana"; s_role := owner |}.

(** A POST of the invoice form with the given items text. *)
Definition invoice_post (items_raw : string) : request :=
  {| meth := POST;
     form := [ ("invoice_number"%string, lit "INV-1");
               ("client_name"%string, lit "ACME");
               ("issue_date"%string, lit "2024-01-01");
               ("due_date"%string, lit "2024-01-15");
               ("currency"%string, lit "USD");
               ("items_raw"%string, lit items_raw) ];
     sess := staff |}.

(** A POST of the owner-setup form. *)
Definition setup_post (name password password2 : string) : request :=
  {| meth := POST;
     form := [ ("setup_key"%string, sample_key);
               ("username"%string, lit name);
               ("password"%string, lit password);
               ("password2"%string, lit password2) ];
     sess := None |}.

(** A store with one owner. *)
Definition one_owner : database :=
  {| users := [ {| user_id := 1; username := lit "ana";
                   password_hash := lit "x"; role := owner;
                   user_created_at := lit "2024-01-01T00:00:00" |} ];
     invoices := [] |}.

End Samples.

(* ================================================================== *)
(** * The schema: [init_db] and [migrate_db] *)
(* ================================================================== *)
Module Schema.

(** A column as [PRAGMA table_info] lists it, with the text it was
    declared with. *)
Record column := { col_name : string; col_ddl : string }.

Definition col (m : string * string) : column :=
  {| col_name := fst m; col_ddl := snd m |}.

(** An ordinary table: its columns in order. *)
Definition table : Type := list column.

(** The database file: the two tables, [None] for a table that does not
    exist. *)
Record file := { users_table : option table; invoices_table : option table }.

Definition new_file : file := {| users_table := None; invoices_table := None |}.

(** The columns of the two [CREATE TABLE] statements of [init_db]. *)
Definition users_columns : list (string * string) :=
  [ ("id", "id INTEGER PRIMARY KEY AUTOINCREMENT");
    ("username", "username TEXT UNIQUE NOT NULL");
    ("password_hash", "password_hash TEXT NOT NULL");
    ("role", "role TEXT NOT NULL DEFAULT 'owner'");
    ("created_at", "created_at TEXT NOT NULL") ]%string.

Definition invoices_columns : list (string * string) :=
  [ ("id", "id INTEGER PRIMARY KEY AUTOINCREMENT");
    ("invoice_number", "invoice_number TEXT NOT NULL");
    ("client_name", "client_name TEXT NOT NULL");
    ("client_email", "client_email TEXT");
    ("client_address", "client_address TEXT");
    ("issue_date", "issue_date TEXT NOT NULL");
    ("due_date", "due_date TEXT NOT NULL");
    ("currency", "currency TEXT NOT NULL DEFAULT 'USD'");
    ("items_json", "items_json TEXT NOT NULL DEFAULT '[]'");
    ("payment_methods", "payment_methods TEXT");
    ("notes", "notes TEXT");
    ("total_amount", "total_amount REAL NOT NULL DEFAULT 0");
    ("created_by_user_id", "created_by_user_id INTEGER");
    ("view_token", "view_token TEXT UNIQUE");
    ("created_at", "created_at TEXT NOT NULL") ]%string.

(** [CREATE TABLE IF NOT EXISTS] *)
Definition create_if_not_exists (t : option table)
  (columns : list (string * string)) : option table :=
  match t with
  | Some _ => t
  | None => Some (map col columns)
  end.

(** [init_db()] *)
Definition init_db (f : file) : file :=
  {| users_table := create_if_not_exists (users_table f) users_columns;
     invoices_table :=
       create_if_not_exists (invoices_table f) invoices_columns |}.

(** SQLite compares column names without regard to the case of ASCII
    letters. *)
Definition lower (c : ascii) : ascii :=
  if PyStr.between 65 90 c then ascii_of_N (PyStr.ord c + 32) else c.

Fixpoint lower_string (s : string) : string :=
  match s with
  | EmptyString => EmptyString
  | String c t => String (lower c) (lower_string t)
  end.

Definition same_name (a b : string) : bool :=
  String.eqb (lower_string a) (lower_string b).

(** [ALTER TABLE ... ADD COLUMN ddl]: the column goes last; [None] is
    the [OperationalError] for a duplicate column name. (Each column
    [migrate_db] adds is either nullable or has a default, and none is
    [UNIQUE] or a key, so SQLite accepts it on a table with rows.) *)
Definition alter_add (t : table) (m : string * string) : option table :=
  if existsb (fun c => same_name (col_name c) (fst m)) t then None
  else Some (t ++ [col m]).

(** The nested [add_col(name, ddl)] of [migrate_db]: [cols] is the list
    of names read by [PRAGMA table_info] before the first call. *)
Definition add_col (cols : list string) (t : table) (m : string * string)
  : option table :=
  if existsb (String.eqb (fst m)) cols then Some t     (* name in cols *)
  else alter_add t m.

(** The calls of [add_col] on the invoices table, in order. *)
Definition invoice_migrations : list (string * string) :=
  [ ("client_email", "client_email TEXT");
    ("client_address", "client_address TEXT");
    ("currency", "currency TEXT NOT NULL DEFAULT 'USD'");
    ("items_json", "items_json TEXT NOT NULL DEFAULT '[]'");
    ("payment_methods", "payment_methods TEXT");
    ("notes", "notes TEXT");
    ("total_amount", "total_amount REAL NOT NULL DEFAULT 0");
    ("created_by_user_id", "created_by_user_id INTEGER");
    ("view_token", "view_token TEXT");
    ("created_at", "created_at TEXT NOT NULL DEFAULT ''") ]%string.

(** The two guarded [ALTER TABLE users] statements. *)
Definition user_migrations : list (string * string) :=
  [ ("role", "role TEXT NOT NULL DEFAULT 'owner'");
    ("created_at", "created_at TEXT NOT NULL DEFAULT ''") ]%string.

(** One statement of [migrate_db] on a table; after an exception
    ([None]) nothing more is run. *)
Definition turn (cols : list string) (acc : option table)
  (m : string * string) : option table :=
  match acc with
  | Some t' => add_col cols t' m
  | None => None
  end.

(** The statements of [migrate_db] on one table, in order. *)
Definition run (cols : list string) (migs : list (string * string))
  (t : table) : option table :=
  fold_left (turn cols) migs (Some t).

Definition migrate_table (migs : list (string * string)) (t : table)
  : option table :=
  run (map col_name t) migs t.

(** [migrate_db()]; [None] is the exception it ends with. On a table
    that does not exist [PRAGMA table_info] lists no column, so the
    first [ALTER TABLE] is run and fails. *)
Definition migrate_db (f : file) : option file :=
  match invoices_table f with
  | None => None
  | Some ti =>
      match migrate_table invoice_migrations ti with
      | None => None
      | Some ti' =>
          match users_table f with
          | None => None
          | Some tu =>
              match migrate_table user_migrations tu with
              | None => None
              | Some tu' =>
                  Some {| users_table := Some tu';
                          invoices_table := Some ti' |}
              end
          end
      end
  end.

(** [invoices_table_has_column(col_name)] *)
Definition invoices_table_has_column (f : file) (name : string) : bool :=
  match invoices_table f with
  | Some t => existsb (fun c => String.eqb (col_name c) name) t
  | None => false
  end.

(** What the module does when it is imported: [init_db()], then
    [migrate_db()], then [HAS_USER_ID_COL]. [None]: the import fails. *)
Definition startup (f : file) : option (file * bool) :=
  match migrate_db (init_db f) with
  | Some f' => Some (f', invoices_table_has_column f' "user_id")
  | None => None
  end.

(** The migrations whose column is not listed in [cols]. *)
Definition missing (cols : list string) (migs : list (string * string))
  : list (string * string) :=
  filter (fun m => negb (existsb (String.eqb (fst m)) cols)) migs.

(** An invoices table of an earlier version, with a [Notes] column. *)
Definition legacy_invoices : table :=
  map col [ ("id", "id INTEGER PRIMARY KEY AUTOINCREMENT");
            ("invoice_number", "invoice_number TEXT NOT NULL");
            ("client_name", "client_name TEXT NOT NULL");
            ("issue_date", "issue_date TEXT NOT NULL");
            ("due_date", "due_date TEXT NOT NULL");
            ("Notes", "Notes TEXT") ]%string.

(** An earlier version without the later columns. *)
Definition old_file : file :=
  {| users_table :=
       Some (map col [ ("id", "id INTEGER PRIMARY KEY AUTOINCREMENT");
                       ("username", "username TEXT UNIQUE NOT NULL");
                       ("password_hash", "password_hash TEXT NOT NULL")
                     ]%string);
     invoices_table :=
       Some (map col [ ("id", "id INTEGER PRIMARY KEY AUTOINCREMENT");
                       ("invoice_number", "invoice_number TEXT NOT NULL");
                       ("client_name", "client_name TEXT NOT NULL");
                       ("issue_date", "issue_date TEXT NOT NULL");
                       ("due_date", "due_date TEXT NOT NULL");
                       ("user_id", "user_id INTEGER NOT NULL")
                     ]%string) |}.

End Schema.

(* ================================================================== *)
(** * Notions used to state the behaviour of the routes *)
(* ================================================================== *)
Module Behaviour.
Import PyStr PyFloat Items Model Pdf Web.

(** The views decorated with [staff_required]. *)
Definition protected (r : route) : bool :=
  match r with
  | Dashboard | NewInvoice | Created _ | InvoicePdf _ => true
  | _ => false
  end.

(** The methods a route is registered for: [app.get] views take GET
    only, the three [app.route] views take GET and POST. *)
Definition method_allowed (r : route) (m : method) : bool :=
  match m, r with
  | GET, _ => true
  | POST, (OwnerSetup | Login | NewInvoice) => true
  | POST, _ => false
  end.

(** The request carries the session of a staff member. *)
Definition staff_session (req : request) : bool :=
  match sess req with
  | Some s => is_staff_role (s_role s)
  | None => false
  end.

(** What [staff_required] answers in place of the view. *)
Definition refusal (req : request) : response :=
  match sess req with
  | None => Redirect "login" None
  | Some _ => Status 403 "No access"
  end.

(** The session [login] opens for a user. *)
Definition session_of (u : user) : session :=
  Some {| s_user_id := user_id u; s_username := username u;
          s_role := role u |}.

(** The users table holds a row. *)
Definition nonempty_users (d : database) : bool :=
  match users d with [] => false | _ => true end.

(** The numbers [n], [n - 1], ..., 1. *)
Fixpoint countdown (n : nat) : list Z :=
  match n with
  | O => []
  | S k => Z.of_nat n :: countdown k
  end.

(** The lines of the address block of the PDF. *)
Definition address_rows (inv : invoice) : Z :=
  if nonempty (client_address inv)
  then Z.of_nat (List.length (splitlines (client_address inv)))
  else 0.

(** Where the first item row goes: 606 points up the page when the
    invoice has neither e-mail nor address, 14 points lower for the
    e-mail and for each line of the address. *)
Definition table_top (inv : invoice) : Z :=
  606 - (if nonempty (client_email inv) then 14 else 0)
  - 14 * address_rows inv.

(** The rows of a page started by the items loop. *)
Definition rows_per_page : Z := 41.

(** The pages the items loop starts for [n] items under a cursor at
    [y]. *)
Definition page_breaks (y n : Z) : Z :=
  if n <=? Spec.capacity y then 0
  else 1 + (n - Spec.capacity y - 1) / rows_per_page.

(** What the invoice form and the parser let through: the required
    fields are not empty, no text field has whitespace around it, there
    is at least one item, the total is a number and the token has 24
    characters. *)
Definition valid_invoice (inv : invoice) : Prop :=
  nonempty (invoice_number inv) = true
  /\ nonempty (client_name inv) = true
  /\ nonempty (issue_date inv) = true
  /\ nonempty (due_date inv) = true
  /\ Forall (fun field => strip field = field)
       [ invoice_number inv; client_name inv; client_email inv;
         client_address inv; issue_date inv; due_date inv;
         payment_methods inv; notes inv ]
  /\ items_json inv <> []
  /\ Forall (fun it => qty it = 1 /\ desc it <> []
                       /\ is_nan (unit_price it) = false) (items_json inv)
  /\ is_nan (total_amount inv) = false
  /\ List.length (view_token inv) = 24%nat.

(** [sep.join(parts)] *)
Definition join (sep : str) (parts : list str) : str :=
  match parts with
  | [] => []
  | first :: rest => first ++ List.concat (map (fun x => sep ++ x) rest)
  end.

(** The text of the payment methods card of [public_view]:
    ["<br>".join([line for line in pm.splitlines() if line.strip()])
     if pm else "No payment methods listed."], [pm] being the stripped
    column. *)
Definition pm_html (inv : invoice) : str :=
  let pm := strip (payment_methods inv) in
  if nonempty pm
  then join (lit "<br>")
         (filter (fun line => nonempty (strip line)) (splitlines pm))
  else lit "No payment methods listed.".

(** The value of a finite float that is not negative, in units of
    2^-200, and its exponent. *)
Definition scale : Z := 200.

Definition val (x : float) : Z :=
  match x with
  | S754_finite false m e => Zpos m * 2 ^ (e + scale)
  | _ => 0
  end.

Definition expo (x : float) : Z :=
  match x with
  | S754_finite _ _ e => e
  | _ => - scale
  end.

(** Zero, or a positive float with a mantissa of 53 binary digits and
    an exponent from -200 to [b]. *)
Definition normal (b : Z) (x : float) : Prop :=
  x = S754_zero false
  \/ exists m e,
       x = S754_finite false m e
       /\ 2 ^ 52 <= Zpos m < 2 ^ 53 /\ - scale <= e <= b.

(** A typed amount: the number its digits write and the number of its
    decimals; its price and the hundredths it stands for. *)
Definition typed_price (t : Z * nat) : float := of_decimal false (fst t) (snd t).

Definition typed_hundredths (t : Z * nat) : Z :=
  fst t * 10 ^ (2 - Z.of_nat (snd t)).

Definition sum_hundredths (ts : list (Z * nat)) : Z :=
  fold_right Z.add 0 (map typed_hundredths ts).

(** The line feed. *)
Definition newline : ascii := ascii_of_N 10.

(** A GET request with a given session. *)
Definition get_as (s : session) : request :=
  {| meth := GET; form := []; sess := s |}.

End Behaviour.

(* ================================================================== *)
(** * Sample requests and stores *)
(* ================================================================== *)
Module Cases.
Import PyStr PyFloat Items Model Pdf Web Behaviour.

(** The application with the sample runtime of [Samples]. *)
Definition serve : route -> env -> request -> database -> result :=
  handle Samples.upper_ascii Samples.sample_hash Samples.sample_check
    Samples.sample_key true.

Definition visited : database -> Prop :=
  reachable Samples.upper_ascii Samples.sample_hash Samples.sample_check
    Samples.sample_key true.

Definition visited_from : database -> database -> Prop :=
  reachable_from Samples.upper_ascii Samples.sample_hash Samples.sample_check
    Samples.sample_key true.

(** A POST of the login form. *)
Definition login_post (name password : string) : request :=
  {| meth := POST;
     form := [ ("username"%string, lit name);
               ("password"%string, lit password) ];
     sess := None |}.

(** The store after the owner "ana" is set up on a new file. *)
Definition after_setup : database :=
  db_out (serve OwnerSetup Samples.sample_env
            (Samples.setup_post "ana" "secret1" "secret1") init_db).


(** The store after an invoice is created by that owner. *)
Definition after_invoice_of_owner : database :=
  db_out (serve NewInvoice Samples.sample_env
            (Samples.invoice_post "Fee 10") after_setup).

(** The store after one invoice is created on a new file. *)
Definition after_invoice : database :=
  db_out (serve NewInvoice Samples.sample_env
            (Samples.invoice_post "Fee 10") init_db).

End Cases.

(* ================================================================== *)
(** * Facts about the string methods *)
(* ================================================================== *)
Module StrFacts.
Import PyStr PyFloat Spec.

Lemma nonempty_true (s : str) : nonempty s = true <-> s <> [].
Proof. destruct s; simpl; split; congruence. Qed.

Lemma nonempty_rev (s : str) : nonempty (rev s) = nonempty s.
Proof.
  destruct s as [|c t]; [reflexivity|].
  simpl. destruct (rev t); reflexivity.
Qed.

Lemma existsb_rev (p : ascii -> bool) (s : str) :
  existsb p (rev s) = existsb p s.
Proof.
  induction s as [|c t IH]; [reflexivity|].
  simpl. rewrite existsb_app, IH. simpl.
  rewrite orb_false_r. apply orb_comm.
Qed.

(** What [lstrip] removes satisfies the predicate, and what it leaves
    is a suffix. *)
Lemma lstrip_by_split (p : ascii -> bool) (s : str) :
  exists pre, s = pre ++ lstrip_by p s /\ forallb p pre = true.
Proof.
  induction s as [|c t [pre [E F]]]; [exists []; auto|].
  simpl. destruct (p c) eqn:Pc.
  - exists (c :: pre). simpl. rewrite Pc, F. split; [congruence|reflexivity].
  - exists []. auto.
Qed.

Lemma lstrip_by_nonempty (p : ascii -> bool) (s : str) :
  nonempty (lstrip_by p s) = existsb (fun c => negb (p c)) s.
Proof.
  induction s as [|c t IH]; [reflexivity|].
  simpl. destruct (p c); simpl; auto.
Qed.

Lemma lstrip_by_keeps (p : ascii -> bool) (s : str) :
  existsb (fun c => negb (p c)) (lstrip_by p s)
  = existsb (fun c => negb (p c)) s.
Proof.
  induction s as [|c t IH]; [reflexivity|].
  simpl. destruct (p c) eqn:Pc; simpl; rewrite ?Pc; auto.
Qed.

Lemma strip_by_nonempty (p : ascii -> bool) (s : str) :
  nonempty (strip_by p s) = existsb (fun c => negb (p c)) s.
Proof.
  unfold strip_by, rstrip_by.
  rewrite nonempty_rev, lstrip_by_nonempty, existsb_rev.
  apply lstrip_by_keeps.
Qed.

(** A line survives [strip()] exactly when it is not blank. *)
Lemma strip_nonempty (s : str) : nonempty (strip s) = nonblank s.
Proof. apply strip_by_nonempty. Qed.

(** [strip] only drops characters. *)
Lemma lstrip_by_Forall (P : ascii -> Prop) p (s : str) :
  Forall P s -> Forall P (lstrip_by p s).
Proof.
  induction 1 as [|c t Pc Pt IH]; simpl; [constructor|].
  destruct (p c); auto.
Qed.

Lemma strip_by_Forall (P : ascii -> Prop) p (s : str) :
  Forall P s -> Forall P (strip_by p s).
Proof.
  intros H. unfold strip_by, rstrip_by.
  apply Forall_rev, lstrip_by_Forall, Forall_rev, lstrip_by_Forall, H.
Qed.

Lemma startswith_spec (s p : str) :
  startswith s p = true <-> exists post, s = p ++ post.
Proof.
  revert s. induction p as [|a p IH]; intros s.
  - split; [intros _; exists s; reflexivity|].
    intros _. destruct s; reflexivity.
  - destruct s as [|c s]; simpl.
    + split; [discriminate|]. intros [post E]. discriminate.
    + rewrite andb_true_iff, IH. split.
      * intros [E [post ->]]. apply Ascii.eqb_eq in E. subst. eauto.
      * intros [post E]. injection E as -> ->. split; eauto.
        apply Ascii.eqb_refl.
Qed.

Lemma len_nonneg (s : str) : 0 <= len s.
Proof. unfold len. lia. Qed.

Lemma len_cons c (s : str) : len (c :: s) = 1 + len s.
Proof. unfold len. simpl List.length. lia. Qed.

(** [rfind] answers -1 when [sub] does not occur, and otherwise the
    position of its last occurrence. *)
Lemma rfind_from_spec (sub s : str) (i : Z) :
  0 <= i ->
  (rfind_from i s sub = -1 /\ forall pre post, ~ occurs s pre sub post)
  \/ (exists pre post,
        occurs s pre sub post /\ rfind_from i s sub = i + len pre
        /\ forall pre' post', occurs s pre' sub post' -> len pre' <= len pre).
Proof.
  unfold occurs. revert i. induction s as [|c t IH]; intros i Hi.
  - simpl. destruct sub as [|a sub]; simpl.
    + right. exists [], []. repeat split; [unfold len; simpl; lia|].
      intros pre' post' E. destruct pre'; [reflexivity|discriminate].
    + left. split; [reflexivity|].
      intros pre post E. destruct pre; discriminate.
  - cbn [rfind_from].
    destruct (IH (i + 1)) as [[R N]|[pre [post [E [R M]]]]]; [lia| |].
    + rewrite R. change (0 <=? -1) with false. cbv iota.
      destruct (startswith (c :: t) sub) eqn:W.
      * right. apply startswith_spec in W as [post E].
        exists [], post. repeat split; [exact E|unfold len; simpl; lia|].
        intros pre' post' E'. destruct pre' as [|c' pre'].
        -- reflexivity.
        -- exfalso. injection E' as _ E'. exact (N _ _ E').
      * left. split; [reflexivity|].
        intros pre' post' E'. destruct pre' as [|c' pre'].
        -- assert (startswith (c :: t) sub = true)
             by (apply startswith_spec; eauto).
           congruence.
        -- injection E' as _ E'. exact (N _ _ E').
    + rewrite R. pose proof (len_nonneg pre).
      replace (0 <=? i + 1 + len pre) with true by (symmetry; apply Z.leb_le; lia).
      right. exists (c :: pre), post. rewrite len_cons.
      repeat split; [simpl; congruence|lia|].
      intros pre' post' E'. destruct pre' as [|c' pre'].
      * change (len []) with 0. lia.
      * injection E' as _ E'. apply M in E'. rewrite len_cons. lia.
Qed.

(** The two slices around an occurrence at a known position. *)
Lemma slices_around (s pre sub post : str) :
  occurs s pre sub post ->
  slice_to s (len pre) = pre /\ slice_from s (len pre + len sub) = post.
Proof.
  unfold occurs, slice_to, slice_from, clip, len. intros ->.
  rewrite !length_app.
  replace (Z.of_nat (List.length pre) <? 0) with false
    by (symmetry; apply Z.ltb_ge; lia).
  replace (Z.of_nat (List.length pre) + Z.of_nat (List.length sub) <? 0)
    with false by (symmetry; apply Z.ltb_ge; lia).
  split.
  - replace (Z.to_nat _) with (List.length pre + 0)%nat by lia.
    rewrite firstn_app_2. simpl. apply app_nil_r.
  - replace (Z.to_nat _) with (List.length pre + List.length sub)%nat by lia.
    rewrite app_assoc, <- length_app.
    replace (List.length (pre ++ sub)) with (List.length (pre ++ sub) + 0)%nat
      by lia.
    rewrite skipn_app. rewrite Nat.add_0_r, skipn_all. simpl.
    replace (_ - _)%nat with 0%nat by lia. reflexivity.
Qed.

End StrFacts.

(* ================================================================== *)
(** * Facts about the number format *)
(* ================================================================== *)
Module FormatFacts.
Import PyStr PyFloat Spec StrFacts.

Lemma digit_char_spec (d : Z) :
  0 <= d <= 9 ->
  is_digit (digit_char d) = true /\ digit_val (digit_char d) = d.
Proof.
  intros H.
  assert (C : d = 0 \/ d = 1 \/ d = 2 \/ d = 3 \/ d = 4 \/ d = 5 \/ d = 6
              \/ d = 7 \/ d = 8 \/ d = 9) by lia.
  repeat destruct C as [C|C]; subst d; split; reflexivity.
Qed.

Lemma digits_val_snoc (ds : str) (c : ascii) :
  digits_val (ds ++ [c]) = 10 * digits_val ds + digit_val c.
Proof. unfold digits_val. rewrite fold_left_app. reflexivity. Qed.

(** With enough fuel [dec_digits] writes the decimal digits of [n]. *)
Lemma dec_digits_spec (fuel : nat) : forall n acc,
  (1 <= fuel)%nat -> 0 <= n < 2 ^ Z.of_nat fuel ->
  exists ds,
    dec_digits fuel n acc = ds ++ acc
    /\ ds <> [] /\ forallb is_digit ds = true /\ digits_val ds = n.
Proof.
  induction fuel as [|f IH]; intros n acc F B; [lia|].
  cbn [dec_digits]. cbv zeta.
  assert (M : 0 <= n mod 10 <= 9) by (pose proof (Z.mod_pos_bound n 10); lia).
  destruct (digit_char_spec _ M) as [D V].
  destruct (n <? 10) eqn:L.
  - apply Z.ltb_lt in L. exists [digit_char (n mod 10)].
    repeat split; [discriminate|simpl; rewrite D; reflexivity|].
    unfold digits_val. simpl. rewrite V. rewrite Z.mod_small by lia. reflexivity.
  - apply Z.ltb_ge in L.
    assert (Fp : (1 <= f)%nat).
    { destruct f; [|lia]. change (2 ^ Z.of_nat 1) with 2 in B. lia. }
    assert (Bq : 0 <= n / 10 < 2 ^ Z.of_nat f).
    { split; [apply Z.div_pos; lia|].
      replace (Z.of_nat (S f)) with (Z.of_nat f + 1) in B by lia.
      rewrite Z.pow_add_r in B by lia. change (2 ^ 1) with 2 in B.
      apply Z.div_lt_upper_bound; lia. }
    destruct (IH (n / 10) (digit_char (n mod 10) :: acc) Fp Bq)
      as [ds [E [Ne [Dg Vl]]]].
    exists (ds ++ [digit_char (n mod 10)]). repeat split.
    + rewrite E, <- app_assoc. reflexivity.
    + destruct ds; discriminate.
    + rewrite forallb_app, Dg. simpl. rewrite D. reflexivity.
    + rewrite digits_val_snoc, Vl, V.
      pose proof (Z.div_mod n 10). lia.
Qed.

(** [int_str n] is the decimal writing of [n]. *)
Lemma int_str_spec (n : Z) :
  0 <= n ->
  int_str n <> [] /\ forallb is_digit (int_str n) = true
  /\ digits_val (int_str n) = n.
Proof.
  intros H. unfold int_str.
  destruct (dec_digits_spec (S (Z.to_nat (Z.log2 n))) n [])
    as [ds [E [Ne [Dg Vl]]]]; [lia| |].
  - split; [exact H|].
    replace (Z.of_nat (S (Z.to_nat (Z.log2 n)))) with (Z.succ (Z.log2 n))
      by (pose proof (Z.log2_nonneg n); lia).
    destruct (Z.eq_dec n 0) as [->|Nz]; [reflexivity|].
    apply Z.log2_spec. lia.
  - rewrite E, app_nil_r. auto.
Qed.

(** After three digits of a group comes the comma. *)
Lemma commas_rev_group a b c d (t : str) :
  commas_rev 0 (a :: b :: c :: d :: t)
  = a :: b :: c :: ","%char :: commas_rev 0 (d :: t).
Proof. reflexivity. Qed.

(** The separators cut the digits in groups of three from the right. *)
Lemma commas_rev_grouped (n : nat) : forall r : str,
  (List.length r <= n)%nat -> r <> [] -> forallb is_digit r = true ->
  grouped (rev (commas_rev 0 r)).
Proof.
  induction n as [|n IH]; intros r L Ne D.
  - destruct r; [congruence|simpl in L; lia].
  - destruct r as [|a [|b [|c [|d t]]]]; [congruence| | | |];
      simpl in D; repeat (apply andb_prop in D as [? D]).
    + apply grouped_1; assumption.
    + apply grouped_2; assumption.
    + apply grouped_3; assumption.
    + rewrite commas_rev_group.
      set (X := commas_rev 0 (d :: t)).
      replace (rev (a :: b :: c :: ","%char :: X))
        with (rev X ++ (","%char :: c :: b :: [a]))
        by (simpl; rewrite <- !app_assoc; reflexivity).
      subst X. apply grouped_more; try assumption.
      apply IH; [simpl in *; lia|discriminate|].
      simpl. rewrite H2, D. reflexivity.
Qed.

Lemma digit_not_comma (c : ascii) : is_digit c = true -> is_char "," c = false.
Proof.
  destruct c as [[] [] [] [] [] [] [] []]; intros H;
    try discriminate H; reflexivity.
Qed.

(** Taking the commas out gives the digits back. *)
Lemma commas_rev_removed (r : str) : forall k,
  forallb is_digit r = true -> remove_char "," (commas_rev k r) = r.
Proof.
  unfold remove_char.
  induction r as [|d t IH]; intros k D; [reflexivity|].
  simpl in D. apply andb_prop in D as [Dd Dt].
  pose proof (digit_not_comma d Dd) as Nd.
  cbn [commas_rev]. destruct (Nat.eqb k 3); cbn [filter].
  - change (is_char "," ",") with true. cbn [negb]. cbv iota.
    rewrite Nd. cbn [negb]. cbv iota.
    rewrite IH by exact Dt. reflexivity.
  - rewrite Nd. cbn [negb]. cbv iota.
    rewrite IH by exact Dt. reflexivity.
Qed.

Lemma thousands_spec (ds : str) :
  ds <> [] -> forallb is_digit ds = true ->
  grouped (thousands ds) /\ remove_char "," (thousands ds) = ds.
Proof.
  intros Ne D. unfold thousands.
  assert (Dr : forallb is_digit (rev ds) = true).
  { rewrite forallb_forall in *. intros c I. apply D, in_rev, I. }
  split.
  - apply (commas_rev_grouped (List.length (rev ds))); [lia| |exact Dr].
    intros E. apply Ne. rewrite <- (rev_involutive ds), E. reflexivity.
  - unfold remove_char. rewrite filter_rev.
    change (filter (fun c => negb (is_char "," c)) (commas_rev 0 (rev ds)))
      with (remove_char "," (commas_rev 0 (rev ds))).
    rewrite commas_rev_removed by exact Dr. apply rev_involutive.
Qed.

(** The hundredths are the amount times 100 rounded to the nearest
    integer. *)
Lemma hundredths_nearest (m : positive) (e : Z) :
  0 <= hundredths m e
  /\ (0 <= e -> hundredths m e = Zpos m * 2 ^ e * 100)
  /\ (e < 0 ->
      2 * Z.abs (hundredths m e * 2 ^ (- e) - Zpos m * 100) <= 2 ^ (- e)).
Proof.
  unfold hundredths. destruct (0 <=? e) eqn:E.
  - apply Z.leb_le in E. split; [|split; [reflexivity|lia]].
    assert (0 < 2 ^ e) by (apply Z.pow_pos_nonneg; lia). nia.
  - apply Z.leb_gt in E.
    assert (P : 0 < 2 ^ (- e)) by (apply Z.pow_pos_nonneg; lia).
    pose proof (Z.div_eucl_eq (Zpos m * 100) (2 ^ (- e))) as Q.
    pose proof (Z.mod_pos_bound (Zpos m * 100) (2 ^ (- e)) P) as B.
    unfold Z.modulo in B.
    destruct (Z.div_eucl (Zpos m * 100) (2 ^ (- e))) as [q r].
    specialize (Q ltac:(lia)).
    revert P Q B. generalize (2 ^ (- e)). intros D P Q B.
    assert (Hq : 0 <= q) by nia.
    assert (Qc : q * D - Zpos m * 100 = - r) by lia.
    assert (Qs : (q + 1) * D - Zpos m * 100 = D - r) by lia.
    destruct (2 * r ?= D) eqn:C.
    + apply Z.compare_eq in C. destruct (Z.even q).
      * split; [lia|split; [lia|intros _]].
        rewrite Qc, Z.abs_opp, Z.abs_eq; lia.
      * split; [lia|split; [lia|intros _]].
        rewrite Qs, Z.abs_eq; lia.
    + change (2 * r < D) in C. split; [lia|split; [lia|intros _]].
      rewrite Qc, Z.abs_opp, Z.abs_eq; lia.
    + change (2 * r > D) in C. split; [lia|split; [lia|intros _]].
      rewrite Qs, Z.abs_eq; lia.
Qed.

Lemma grouped_head (g : str) :
  grouped g -> exists a t, g = a :: t /\ is_digit a = true.
Proof.
  induction 1 as [a Da|a b Da Db|a b c Da Db Dc|g a b c G IH Da Db Dc];
    try (eexists; eexists; split; [reflexivity|assumption]).
  destruct IH as [h [t [-> Dh]]]. simpl. eauto.
Qed.

(** The text of a finite float: sign, grouped integer part, point and
    two digits, which together write the hundredths. *)
Lemma format_2f_finite (x : float) :
  is_finite x = true ->
  exists int_part d1 d2,
    format_2f x = sign_str (signbit x) ++ int_part ++ lit "." ++ [d1; d2]
    /\ grouped int_part
    /\ is_digit d1 = true /\ is_digit d2 = true
    /\ digits_val (remove_char "," int_part) * 100
       + digit_val d1 * 10 + digit_val d2 = hundredths_of x.
Proof.
  assert (F : forall h, 0 <= h ->
            exists int_part d1 d2,
              fixed2 h = int_part ++ lit "." ++ [d1; d2]
              /\ grouped int_part
              /\ is_digit d1 = true /\ is_digit d2 = true
              /\ digits_val (remove_char "," int_part) * 100
                 + digit_val d1 * 10 + digit_val d2 = h).
  { intros h H. unfold fixed2.
    assert (Hq : 0 <= h / 100) by (apply Z.div_pos; lia).
    destruct (int_str_spec _ Hq) as [Ne [Dg Vl]].
    destruct (thousands_spec _ Ne Dg) as [G R].
    pose proof (Z.mod_pos_bound h 100 ltac:(lia)) as B100.
    pose proof (Z.mod_pos_bound h 10 ltac:(lia)) as B10.
    assert (B1 : 0 <= h mod 100 / 10 <= 9).
    { split; [apply Z.div_pos; lia|].
      apply Z.lt_succ_r, Z.div_lt_upper_bound; lia. }
    destruct (digit_char_spec _ B1) as [D1 V1].
    destruct (digit_char_spec (h mod 10) ltac:(lia)) as [D2 V2].
    eexists. eexists. eexists. split; [reflexivity|].
    split; [exact G|]. split; [exact D1|]. split; [exact D2|].
    rewrite R, Vl, V1, V2.
    pose proof (Z.div_mod h 100 ltac:(lia)) as E1.
    pose proof (Z.div_mod (h mod 100) 10 ltac:(lia)) as E2.
    assert (E3 : (h mod 100) mod 10 = h mod 10).
    { change 100 with (10 * 10).
      rewrite Z.rem_mul_r by lia.
      rewrite (Z.mul_comm 10), Z.mod_add by lia.
      apply Z.mod_mod. lia. }
    lia. }
  destruct x as [s|s| |s m e]; try discriminate; intros _.
  - destruct (F 0 ltac:(lia)) as [ip [d1 [d2 [E R]]]].
    exists ip, d1, d2. simpl format_2f. rewrite E. auto.
  - destruct (F (hundredths m e) (proj1 (hundredths_nearest m e)))
      as [ip [d1 [d2 [E R]]]].
    exists ip, d1, d2. simpl format_2f. rewrite E. auto.
Qed.

(** [strip] leaves a text alone when neither end is to be stripped. *)
Lemma strip_by_id (p : ascii -> bool) (s u : str) (z : ascii) :
  s = u ++ [z] -> p z = false ->
  (exists a t, s = a :: t /\ p a = false) ->
  strip_by p s = s.
Proof.
  intros E Pz [a [t [Es Pa]]]. unfold strip_by.
  rewrite Es at 1. simpl. rewrite Pa, <- Es, E.
  unfold rstrip_by. rewrite rev_app_distr. simpl.
  rewrite Pz. rewrite <- (rev_involutive u) at 2.
  change (z :: rev u) with ([z] ++ rev u).
  rewrite rev_app_distr. reflexivity.
Qed.

End FormatFacts.

(* ================================================================== *)
(** * Facts about the matcher *)
(* ================================================================== *)
Module ReFacts.
Import PyStr Re PyFloat Spec StrFacts.

Create HintDb re.
#[local] Hint Constructors matches : re.

(** The loop of a starred atom, one turn unfolded. *)
Lemma match_here_star p pat (s : str) :
  match_here ((p, Star) :: pat) s =
  match s with
  | c :: t =>
      if p c then
        match match_here ((p, Star) :: pat) t with
        | Some n => Some (S n)
        | None => match_here pat s
        end
      else match_here pat s
  | [] => match_here pat s
  end.
Proof. destruct s; reflexivity. Qed.

Lemma match_here_opt p pat (s : str) :
  match_here ((p, Opt) :: pat) s =
  match s with
  | c :: t =>
      if p c then
        match match_here pat t with
        | Some n => Some (S n)
        | None => match_here pat s
        end
      else match_here pat s
  | [] => match_here pat s
  end.
Proof. reflexivity. Qed.

Lemma match_here_one p pat (s : str) :
  match_here ((p, One) :: pat) s =
  match s with
  | c :: t => if p c then option_map S (match_here pat t) else None
  | [] => None
  end.
Proof. reflexivity. Qed.

(** What the matcher returns is the length of a prefix the pattern
    denotes. *)
Lemma match_here_sound pat : forall (s : str) n,
  match_here pat s = Some n ->
  (n <= List.length s)%nat /\ matches pat (firstn n s).
Proof.
  induction pat as [|[p q] pat IH]; intros s n H.
  - injection H as <-. split; [lia|]. simpl. constructor.
  - destruct q.
    + (* One *)
      destruct s as [|c t]; simpl in H; [discriminate|].
      destruct (p c) eqn:Pc; [|discriminate].
      destruct (match_here pat t) as [k|] eqn:K; [|discriminate].
      injection H as <-. destruct (IH _ _ K) as [L M].
      split; [simpl; lia|]. simpl. auto with re.
    + (* Opt *)
      destruct s as [|c t]; simpl in H.
      * destruct (IH _ _ H) as [L M]. split; auto with re.
      * destruct (p c) eqn:Pc.
        -- destruct (match_here pat t) as [k|] eqn:K.
           ++ injection H as <-. destruct (IH _ _ K) as [L M].
              split; [simpl; lia|]. simpl. auto with re.
           ++ destruct (IH _ _ H) as [L M]. split; auto with re.
        -- destruct (IH _ _ H) as [L M]. split; auto with re.
    + (* Star *)
      revert n H. induction s as [|c t IHs]; intros n H;
        rewrite match_here_star in H.
      * destruct (IH _ _ H) as [L M]. split; auto with re.
      * destruct (p c) eqn:Pc.
        -- destruct (match_here ((p, Star) :: pat) t) as [k|] eqn:K.
           ++ injection H as <-. destruct (IHs _ K) as [L M].
              split; [simpl; lia|]. simpl. auto with re.
           ++ destruct (IH _ _ H) as [L M]. split; auto with re.
        -- destruct (IH _ _ H) as [L M]. split; auto with re.
Qed.

(** Where the pattern denotes a prefix of the text, the matcher finds a
    match. *)
Lemma match_here_complete pat (m : str) :
  matches pat m -> forall rest, exists n, match_here pat (m ++ rest) = Some n.
Proof.
  induction 1 as [|q pat c s Qc M IH|q pat s M IH|q pat c s Qc M IH
                  |q pat s M IH|q pat c s Qc M IH]; intros rest.
  - exists 0%nat. reflexivity.
  - destruct (IH rest) as [n E]. exists (S n).
    rewrite match_here_one. simpl app. cbv iota. rewrite Qc, E. reflexivity.
  - destruct (IH rest) as [n E]. rewrite match_here_opt.
    destruct (s ++ rest) as [|c t]; [eauto|].
    destruct (q c); [|eauto].
    destruct (match_here pat t); eauto.
  - destruct (IH rest) as [n E]. exists (S n).
    rewrite match_here_opt. simpl app. cbv iota. rewrite Qc, E. reflexivity.
  - destruct (IH rest) as [n E]. rewrite match_here_star.
    destruct (s ++ rest) as [|c t]; [eauto|].
    destruct (q c); [|eauto].
    destruct (match_here ((q, Star) :: pat) t); eauto.
  - destruct (IH rest) as [n E]. exists (S n).
    rewrite match_here_star. simpl app. cbv iota. rewrite Qc, E. reflexivity.
Qed.

(** Every string [findall] returns occurs in the text and is denoted by
    the pattern. *)
Lemma findall_from_sound pat : forall (s : str) skip m,
  In m (findall_from pat skip s) ->
  matches pat m /\ exists pre post, occurs s pre m post.
Proof.
  unfold occurs.
  induction s as [|c t IH]; intros skip m H; simpl in H.
  - destruct skip; [|contradiction].
    destruct (match_here pat []) as [n|] eqn:K; [|contradiction].
    destruct H as [<-|[]]. apply match_here_sound in K as [L M].
    destruct n; [|simpl in L; lia]. split; [exact M|].
    exists [], []. reflexivity.
  - destruct skip as [|k].
    + destruct (match_here pat (c :: t)) as [n|] eqn:K.
      * destruct H as [<-|H].
        -- apply match_here_sound in K as [L M]. split; [exact M|].
           exists [], (skipn n (c :: t)). simpl app.
           symmetry. apply firstn_skipn.
        -- apply IH in H as [M [pre [post ->]]]. split; [exact M|].
           exists (c :: pre), post. reflexivity.
      * apply IH in H as [M [pre [post ->]]]. split; [exact M|].
        exists (c :: pre), post. reflexivity.
    + apply IH in H as [M [pre [post ->]]]. split; [exact M|].
      exists (c :: pre), post. reflexivity.
Qed.

(** A match contains a character for every atom without quantifier. *)
Lemma matches_has_one p pat (m : str) :
  matches pat m -> In (p, One) pat -> existsb p m = true.
Proof.
  induction 1 as [|q pat c s Qc M IH|q pat s M IH|q pat c s Qc M IH
                  |q pat s M IH|q pat c s Qc M IH]; intros I.
  - destruct I.
  - destruct I as [E|I].
    + injection E as ->. simpl. rewrite Qc. reflexivity.
    + simpl. rewrite (IH I). apply orb_true_r.
  - destruct I as [E|I]; [discriminate|auto].
  - destruct I as [E|I]; [discriminate|].
    simpl. rewrite (IH I). apply orb_true_r.
  - destruct I as [E|I]; [discriminate|auto].
  - simpl. rewrite (IH I). apply orb_true_r.
Qed.

(** The characters of a match come from the classes of the pattern. *)
Lemma matches_alphabet pat (m : str) :
  matches pat m ->
  Forall (fun c => existsb (fun a : atom => fst a c) pat = true) m.
Proof.
  induction 1 as [|q pat c s Qc M IH|q pat s M IH|q pat c s Qc M IH
                  |q pat s M IH|q pat c s Qc M IH]; simpl.
  - constructor.
  - constructor; [rewrite Qc; reflexivity|].
    eapply Forall_impl; [|exact IH]. simpl. intros a ->. apply orb_true_r.
  - eapply Forall_impl; [|exact IH]. simpl. intros a ->. apply orb_true_r.
  - constructor; [rewrite Qc; reflexivity|].
    eapply Forall_impl; [|exact IH]. simpl. intros a ->. apply orb_true_r.
  - eapply Forall_impl; [|exact IH]. simpl. intros a ->. apply orb_true_r.
  - constructor; [rewrite Qc; reflexivity|exact IH].
Qed.

Lemma matches_nil_inv (m : str) : matches [] m -> m = [].
Proof. inversion 1; reflexivity. Qed.

Lemma matches_one_inv p pat (m : str) :
  matches ((p, One) :: pat) m ->
  exists c r, m = c :: r /\ p c = true /\ matches pat r.
Proof. inversion 1; subst; eauto. Qed.

Lemma matches_opt_inv p pat (m : str) :
  matches ((p, Opt) :: pat) m ->
  exists a r, m = a ++ r /\ at_most_one p a /\ matches pat r.
Proof.
  inversion 1; subst.
  - exists [], m. repeat split; [left; reflexivity|assumption].
  - exists [c], s. repeat split; [right; eauto|assumption].
Qed.

Lemma matches_star_inv p pat (m : str) :
  matches ((p, Star) :: pat) m ->
  exists a r, m = a ++ r /\ forallb p a = true /\ matches pat r.
Proof.
  remember ((p, Star) :: pat) as pat0 eqn:E.
  induction 1 as [| | | |q pat' s M _|q pat' c s Qc M IH]; try discriminate.
  - injection E as -> ->. exists [], s. auto.
  - destruct (IH E) as [a [r [-> [F R]]]]. injection E as -> ->.
    exists (c :: a), r. simpl. rewrite Qc, F. auto.
Qed.

(** What the price pattern denotes has the shape of a price. *)
Lemma price_pattern_numeric (m : str) : matches price_pattern m -> numeric m.
Proof.
  unfold price_pattern. intros H.
  apply matches_opt_inv in H as [sign [r1 [-> [Hs H]]]].
  apply matches_opt_inv in H as [dollar [r2 [-> [Hd H]]]].
  apply matches_star_inv in H as [ws [r3 [-> [Hw H]]]].
  apply matches_one_inv in H as [d [r4 [-> [Hg H]]]].
  apply matches_star_inv in H as [body [r5 [-> [Hb H]]]].
  apply matches_opt_inv in H as [dot [r6 [-> [Ho H]]]].
  apply matches_star_inv in H as [frac [r7 [-> [Hf H]]]].
  apply matches_nil_inv in H as ->. rewrite app_nil_r.
  now constructor.
Qed.

(** A match of the price pattern has a digit. *)
Lemma price_pattern_has_digit (m : str) :
  matches price_pattern m -> existsb is_digit m = true.
Proof.
  intros H. apply (matches_has_one _ _ _ H).
  unfold price_pattern. simpl. auto.
Qed.

(** The matches found on a line: each has the shape of a price and
    occurs on the line. *)
Lemma findall_price_sound (line m : str) :
  In m (findall price_pattern line) ->
  numeric m /\ matches price_pattern m
  /\ exists pre post, occurs line pre m post.
Proof.
  intros H. apply findall_from_sound in H as [M O].
  auto using price_pattern_numeric.
Qed.

(** Without a digit on the line nothing matches. *)
Lemma findall_no_digit (line : str) :
  existsb is_digit line = false -> findall price_pattern line = [].
Proof.
  intros N. destruct (findall price_pattern line) as [|m ms] eqn:E;
    [reflexivity|exfalso].
  assert (I : In m (findall price_pattern line)) by (rewrite E; left; auto).
  apply findall_price_sound in I as [_ [M [pre [post O]]]].
  apply price_pattern_has_digit in M. unfold occurs in O. subst line.
  rewrite !existsb_app, M in N. simpl in N.
  rewrite orb_true_r in N. discriminate.
Qed.

End ReFacts.

(* ================================================================== *)
(** * Facts about the items parser *)
(* ================================================================== *)
Module ItemsFacts.
Import PyStr Re PyFloat Items Spec StrFacts ReFacts.

Lemma last_of_some (nums : list str) last :
  last_of nums = Some last -> exists init, nums = init ++ [last].
Proof.
  unfold last_of. intros H. destruct (rev nums) as [|x r] eqn:E;
    [discriminate|]. injection H as ->.
  exists (rev r). rewrite <- (rev_involutive nums), E. reflexivity.
Qed.

Lemma last_of_none (nums : list str) : last_of nums = None -> nums = [].
Proof.
  unfold last_of. intros H. destruct (rev nums) as [|x r] eqn:E;
    [|discriminate].
  rewrite <- (rev_involutive nums), E. reflexivity.
Qed.

Lemma last_of_app (init : list str) last : last_of (init ++ [last]) = Some last.
Proof. unfold last_of. rewrite rev_app_distr. reflexivity. Qed.

(** The loop leaves one item per non-blank line, in the order read. *)
Lemma loop_items (ls : list str) : forall acc,
  fold_left loop_body ls acc = acc ++ map item_of_line (filter nonblank ls).
Proof.
  induction ls as [|l ls IH]; intros acc; simpl.
  - symmetry. apply app_nil_r.
  - rewrite IH. unfold loop_body. rewrite strip_nonempty.
    destruct (nonblank l); simpl; [|reflexivity].
    rewrite <- app_assoc. reflexivity.
Qed.

Lemma parse_items_eq (raw : str) :
  parse_items raw =
  match nonblank_lines raw with
  | [] => inr no_items
  | ls => inl (map item_of_line ls)
  end.
Proof.
  unfold parse_items, nonblank_lines. rewrite loop_items. simpl.
  destruct (filter nonblank (splitlines raw)); reflexivity.
Qed.

(** The item made of the [i]-th non-blank line. *)
Lemma parse_items_nth (raw : str) i line :
  nth_error (nonblank_lines raw) i = Some line ->
  exists items,
    parse_items raw = inl items
    /\ nth_error items i = Some (item_of_line line).
Proof.
  intros H. rewrite parse_items_eq.
  destruct (nonblank_lines raw) as [|l ls] eqn:E.
  - destruct i; discriminate.
  - exists (map item_of_line (l :: ls)). split; [reflexivity|].
    rewrite nth_error_map, H. reflexivity.
Qed.

(** A digit is neither a sign, a dollar nor whitespace. *)
Lemma digit_classes (c : ascii) :
  is_digit c = true ->
  is_sign c = false /\ is_dollar c = false /\ isspace c = false.
Proof.
  destruct c as [[] [] [] [] [] [] [] []]; intros H;
    try discriminate H; repeat split; reflexivity.
Qed.






(** The item of a line with a last match [last]. *)
Lemma parse_line_some (line last : str) :
  last_of (findall price_pattern line) = Some last ->
  exists pre post,
    occurs line pre last post
    /\ (forall pre' post', occurs line pre' last post' -> len pre' <= len pre)
    /\ parse_line line =
       {| desc := (let d := strip_chars separators (pre ++ post) in
                   if nonempty d then d else line);
          qty := 1;
          unit_price := price_of last |}.
Proof.
  intros H. unfold parse_line. rewrite H.
  apply last_of_some in H as [init E].
  assert (I : In last (findall price_pattern line))
    by (rewrite E; apply in_or_app; right; left; reflexivity).
  apply findall_price_sound in I as [_ [_ [pre0 [post0 O0]]]].
  destruct (rfind_from_spec last line 0) as [[_ N]|[pre [post [O [R M]]]]];
    [lia|exfalso; exact (N _ _ O0)|].
  exists pre, post. split; [exact O|]. split; [exact M|].
  unfold cut, rfind. rewrite R. simpl Z.add.
  destruct (slices_around _ _ _ _ O) as [-> ->]. reflexivity.
Qed.

Lemma parse_line_none (line : str) :
  last_of (findall price_pattern line) = None ->
  parse_line line = {| desc := line; qty := 1; unit_price := zero |}.
Proof. intros H. unfold parse_line. rewrite H. reflexivity. Qed.

Lemma remove_char_Forall (P : ascii -> Prop) a (s : str) :
  Forall P s -> Forall P (remove_char a s).
Proof.
  unfold remove_char. intros H. apply Forall_forall. intros c I.
  apply filter_In in I as [I _]. revert c I. apply Forall_forall, H.
Qed.

(** What reaches [float]: signs, whitespace, digits and points only. *)
Lemma cleaned_alphabet (line last : str) :
  In last (findall price_pattern line) ->
  Forall (fun c => (is_sign c || isspace c || is_digit c || is_dot c)%bool
                   = true) (cleaned last).
Proof.
  intros I. apply findall_price_sound in I as [_ [M _]].
  apply matches_alphabet in M. unfold cleaned, strip.
  apply strip_by_Forall. unfold remove_char.
  apply Forall_forall. intros c Ic.
  apply filter_In in Ic as [Ic N1]. apply filter_In in Ic as [Ic N2].
  rewrite Forall_forall in M. specialize (M c Ic).
  unfold price_pattern in M. simpl in M.
  unfold digit_or_comma, is_comma, is_dollar in *.
  destruct (is_sign c), (isspace c), (is_digit c), (is_dot c),
    (is_char "$" c), (is_char "," c); simpl in *; congruence.
Qed.

End ItemsFacts.

(* ================================================================== *)
(** * Properties of the items parser *)
(* ================================================================== *)
Import PyStr Re PyFloat Items Spec StrFacts ReFacts ItemsFacts.




(** The description the specification words for "a5 b5", whose last
    match is the second "5": removing the first occurrence of "5" would
    leave "a b5", while [parse_items] answers "a5 b". *)
Lemma description_not_first_occurrence :
  exists it last,
    parse_items (lit "a5 b5") = inl [it]
    /\ last_of (findall price_pattern (lit "a5 b5")) = Some last
    /\ desc it = lit "a5 b"
    /\ desc_first_occurrence (lit "a5 b5") last = lit "a b5"
    /\ desc it <> desc_first_occurrence (lit "a5 b5") last.
Proof.
  eexists. eexists. split; [vm_compute; reflexivity|].
  split; [vm_compute; reflexivity|].
  split; [reflexivity|]. split; [vm_compute; reflexivity|].
  vm_compute. discriminate.
Qed.

(** C3 (amended). For every non-blank line with a numeric match, the
    description is the line with the last occurrence of the last match
    removed, then stripped of the separators space, hyphen, colon and
    pipe, and it is the whole (stripped) line when that leaves nothing.
    For a line without a digit the unit price is 0.0 and the description
    is the stripped line. For "Shipping - $120" the description is
    "Shipping" and the unit price 120.00. *)
Theorem description_removes_last_occurrence (raw : str) (i : nat) (line : str) :
  nth_error (nonblank_lines raw) i = Some line ->
  (exists items it,
     parse_items raw = inl items /\ nth_error items i = Some it
     /\ match last_of (findall price_pattern (strip line)) with
        | Some last =>
            exists pre post,
              occurs (strip line) pre last post
              /\ (forall pre' post',
                    occurs (strip line) pre' last post' ->
                    len pre' <= len pre)
              /\ desc it =
                 (let d := strip_chars (lit " -:|") (pre ++ post) in
                  if nonempty d then d else strip line)
        | None => desc it = strip line /\ unit_price it = zero
        end
     /\ (existsb is_digit line = false ->
         unit_price it = zero /\ desc it = strip line))
  /\ (exists it,
        parse_items (lit "Shipping - $120") = inl [it]
        /\ desc it = lit "Shipping"
        /\ exists q, to_Q (unit_price it) = Some q /\ (q == 120.00)%Q).
Proof.
  intros H. split.
  - destruct (parse_items_nth raw i line H) as [items [P N]].
    exists items, (item_of_line line). split; [exact P|]. split; [exact N|].
    unfold item_of_line. split.
    + destruct (last_of (findall price_pattern (strip line))) as [last|] eqn:L.
      * destruct (parse_line_some _ _ L) as [pre [post [O [M ->]]]].
        exists pre, post. auto.
      * rewrite (parse_line_none _ L). auto.
    + intros D.
      assert (D' : existsb is_digit (strip line) = false).
      { destruct (existsb is_digit (strip line)) eqn:X; [|reflexivity].
        apply existsb_exists in X as [c [Ic Dc]].
        assert (F : Forall (fun c => is_digit c = false) line).
        { apply Forall_forall. intros a Ia.
          destruct (is_digit a) eqn:Da; [|reflexivity].
          assert (existsb is_digit line = true)
            by (apply existsb_exists; eauto).
          congruence. }
        apply (strip_by_Forall _ isspace) in F.
        rewrite Forall_forall in F. specialize (F c Ic). congruence. }
      apply findall_no_digit in D'.
      unfold parse_line. rewrite D'. simpl. auto.
  - eexists. split; [vm_compute; reflexivity|].
    split; [vm_compute; reflexivity|].
    eexists. split; [vm_compute; reflexivity|]. reflexivity.
Qed.

Lemma description_removes_last_occurrence_witness :
  nth_error (nonblank_lines (lit "a5 b5")) 0 = Some (lit "a5 b5")
  /\ exists items it,
       parse_items (lit "a5 b5") = inl items
       /\ nth_error items 0 = Some it.
Proof.
  split; [reflexivity|].
  destruct (description_removes_last_occurrence (lit "a5 b5") 0 (lit "a5 b5")
              eq_refl) as [[items [it [P [N _]]]] _].
  exists items, it. split; assumption.
Defined.

(* ================================================================== *)
(** * Facts about the rendering *)
(* ================================================================== *)
Module PdfFacts.
Import PyStr PyFloat Items Model Pdf Spec.

Lemma drawn_emit o c : drawn (emit o c) = drawn c ++ [o].
Proof. unfold drawn, emit. simpl. apply app_assoc. Qed.

Lemma drawn_showPage c : drawn (showPage c) = drawn c.
Proof.
  unfold drawn, showPage. simpl.
  rewrite concat_app. simpl. rewrite !app_nil_r. reflexivity.
Qed.

(** The footer goes on the page being drawn. *)
Lemma draw_footer_eq logo c :
  draw_footer logo c =
  {| pages := pages c; code := code c ++ footer_ops logo |}.
Proof.
  unfold draw_footer, footer_ops, emit.
  destruct logo; simpl; rewrite <- !app_assoc; reflexivity.
Qed.

(** One turn of the items loop: the check, then the row. *)
Lemma item_step_eq cur c y total it :
  item_step cur (c, y, total) it =
  let y1 := if y <? FOOTER_SPACE then page_h - 60 else y in
  ({| pages := if y <? FOOTER_SPACE then pages c ++ [code c] else pages c;
      code := (if y <? FOOTER_SPACE then [SetFont "Helvetica" 10] else code c)
              ++ row_ops cur y1 it |},
   y1 - 14,
   fadd total (fmul (of_int (qty it)) (unit_price it))).
Proof.
  unfold item_step, row_ops, emit, showPage.
  destruct (y <? FOOTER_SPACE); simpl; rewrite <- ?app_assoc; reflexivity.
Qed.

(** The row of an item is never below the footer zone. *)
Lemma row_position (y : Z) :
  FOOTER_SPACE <= (if y <? FOOTER_SPACE then page_h - 60 else y).
Proof.
  destruct (y <? FOOTER_SPACE) eqn:E.
  - unfold FOOTER_SPACE, page_h. lia.
  - apply Z.ltb_ge in E. exact E.
Qed.

(** What the loop draws is made of rows at or above the footer zone. *)
Lemma draw_items_rows cur (items : list item) : forall c y total,
  exists rows,
    drawn (fst (fst (draw_items cur items (c, y, total)))) = drawn c ++ rows
    /\ text_above FOOTER_SPACE rows
    /\ Forall (fun o => is_footer o = false) rows.
Proof.
  unfold draw_items.
  induction items as [|it items IH]; intros c y total.
  - exists []. simpl. rewrite app_nil_r. repeat split; constructor.
  - cbn [fold_left]. rewrite item_step_eq. cbv zeta.
    match goal with
    | |- context [fold_left _ items (?c1, ?y1, ?t1)] =>
        destruct (IH c1 y1 t1) as [rows [E [A F]]]
    end.
    pose proof (row_position y) as R.
    exists ((if y <? FOOTER_SPACE then [SetFont "Helvetica" 10] else [])
            ++ row_ops cur (if y <? FOOTER_SPACE then page_h - 60 else y) it
            ++ rows).
    split; [|split].
    + rewrite E. unfold drawn. simpl.
      destruct (y <? FOOTER_SPACE); simpl.
      * rewrite concat_app. simpl. rewrite app_nil_r, <- !app_assoc.
        reflexivity.
      * rewrite <- !app_assoc. reflexivity.
    + unfold text_above in *. apply Forall_app. split.
      * destruct (y <? FOOTER_SPACE); repeat constructor.
      * apply Forall_app. split; [|exact A].
        unfold row_ops. repeat constructor; simpl; exact R.
    + apply Forall_app. split.
      * destruct (y <? FOOTER_SPACE); repeat constructor.
      * apply Forall_app. split; [|exact F].
        unfold row_ops. repeat constructor.
Qed.

(** The loop only adds pages. *)
Lemma draw_items_pages cur (items : list item) : forall c y total,
  exists more,
    pages (fst (fst (draw_items cur items (c, y, total)))) = pages c ++ more.
Proof.
  unfold draw_items.
  induction items as [|it items IH]; intros c y total.
  - exists []. simpl. symmetry. apply app_nil_r.
  - cbn [fold_left]. rewrite item_step_eq. cbv zeta.
    match goal with
    | |- context [fold_left _ items (?c1, ?y1, ?t1)] =>
        destruct (IH c1 y1 t1) as [more E]
    end.
    rewrite E. simpl. destruct (y <? FOOTER_SPACE).
    + exists ([code c] ++ more). symmetry. apply app_assoc.
    + exists more. reflexivity.
Qed.

Lemma capacity_step (y : Z) :
  FOOTER_SPACE <= y -> capacity (y - 14) = capacity y - 1.
Proof.
  unfold capacity, FOOTER_SPACE. intros H.
  replace (y <? 160) with false by (symmetry; apply Z.ltb_ge; lia).
  destruct (y - 14 <? 160) eqn:E.
  - apply Z.ltb_lt in E. rewrite Z.div_small by lia. reflexivity.
  - apply Z.ltb_ge in E.
    replace (y - 160) with ((y - 14 - 160) + 1 * 14) by lia.
    rewrite Z.div_add by lia. lia.
Qed.

(** More items than fit under the cursor: the loop breaks the page. *)
Lemma draw_items_overflow cur (items : list item) : forall c y total,
  capacity y < Z.of_nat (List.length items) ->
  (List.length (pages c) <
   List.length (pages (fst (fst (draw_items cur items (c, y, total))))))%nat.
Proof.
  unfold draw_items.
  induction items as [|it items IH]; intros c y total H.
  - simpl in H. unfold capacity in H.
    destruct (y <? FOOTER_SPACE) eqn:E; [lia|].
    apply Z.ltb_ge in E. unfold FOOTER_SPACE in *.
    assert (0 <= (y - 160) / 14) by (apply Z.div_pos; lia). lia.
  - cbn [fold_left]. rewrite item_step_eq. cbv zeta.
    destruct (y <? FOOTER_SPACE) eqn:E.
    + match goal with
      | |- context [fold_left _ items (?c1, ?y1, ?t1)] =>
          destruct (draw_items_pages cur items c1 y1 t1) as [more P]
      end.
      unfold draw_items in P. rewrite P. simpl.
      rewrite !length_app. simpl. lia.
    + apply Z.ltb_ge in E.
      match goal with
      | |- context [fold_left _ items (?c1, ?y1, ?t1)] =>
          specialize (IH c1 y1 t1)
      end.
      simpl in IH. apply IH. rewrite capacity_step by exact E.
      simpl List.length in H. lia.
Qed.

(** The running total of the loop is the sum of the line totals, added
    from left to right. *)
Lemma draw_items_total cur (items : list item) : forall c y total,
  snd (draw_items cur items (c, y, total)) =
  fold_left fadd
    (map (fun it => fmul (of_int (qty it)) (unit_price it)) items) total.
Proof.
  unfold draw_items.
  induction items as [|it items IH]; intros c y total; [reflexivity|].
  cbn [fold_left]. rewrite item_step_eq. cbv zeta. apply IH.
Qed.

Lemma clean_emit o c : is_footer o = false -> clean c -> clean (emit o c).
Proof.
  unfold clean. intros F C. rewrite drawn_emit.
  apply Forall_app. split; [exact C|]. constructor; [exact F|constructor].
Qed.

Lemma clean_address (ls : list str) : forall c y,
  clean c -> clean (fst (fold_left address_step ls (c, y))).
Proof.
  induction ls as [|l ls IH]; intros c y C; [exact C|].
  cbn [fold_left]. unfold address_step at 2. apply IH.
  apply clean_emit; [reflexivity|exact C].
Qed.

(** The header is drawn on the first page and has no call of the
    footer. *)
Lemma clean_header cur inv : clean (fst (draw_header cur inv)).
Proof.
  unfold draw_header.
  assert (C0 : clean new_canvas) by constructor.
  repeat match goal with
         | |- clean (emit _ _) => apply clean_emit; [reflexivity|]
         | |- clean (fst (let '(c, y) := ?x in _)) =>
             let E := fresh "E" in
             assert (E : clean (fst x)); [|destruct x; simpl in *]
         | |- clean (fst (_, _)) => simpl fst
         | |- clean (fst (if ?b then _ else _)) => destruct b
         | |- clean (fst (fold_left address_step _ _)) => apply clean_address
         end; try assumption.
Qed.

Lemma clean_parts c :
  clean c ->
  Forall (fun pg => count is_footer pg = 0%nat) (pages c)
  /\ count is_footer (code c) = 0%nat.
Proof.
  unfold clean, drawn, count. intros C.
  apply Forall_app in C as [P K].
  assert (Z : forall l, Forall (fun o => is_footer o = false) l ->
                        List.length (filter is_footer l) = 0%nat).
  { induction 1 as [|o l F _ IH]; [reflexivity|]. simpl. rewrite F. exact IH. }
  split; [|apply Z, K].
  rewrite Forall_forall in *. intros pg I. apply Z.
  rewrite Forall_forall. intros o Io. apply P.
  apply in_concat. eauto.
Qed.

Lemma count_app p (l1 l2 : list op) :
  count p (l1 ++ l2) = (count p l1 + count p l2)%nat.
Proof. unfold count. rewrite filter_app. apply length_app. Qed.

(** Calls that are not of the footer count for nothing in it. *)
Lemma count_clean (p : op -> bool) (l : list op) :
  (forall o, p o = true -> is_footer o = true) ->
  Forall (fun o => is_footer o = false) l ->
  count p l = 0%nat.
Proof.
  intros Hp. unfold count. induction 1 as [|o l F _ IH]; [reflexivity|].
  simpl. destruct (p o) eqn:Po; [|exact IH].
  apply Hp in Po. congruence.
Qed.

(** [save] finishes a page that has code on it. *)
Lemma save_page c l o r :
  code c = l ++ o :: r -> save c = pages c ++ [code c].
Proof.
  unfold save, showPage. intros E.
  destruct (code c); [destruct l; discriminate|reflexivity].
Qed.

End PdfFacts.

(* ================================================================== *)
(** * Pagination of the PDF *)
(* ================================================================== *)
Import Model Pdf PdfFacts.

Section Pagination.

Variable upper : str -> str.
Variable logo_readable : bool.

(** C5. Before the row of each item is drawn the cursor is compared
    with the footer zone of 160 points: below it the page is finished, a
    new one is started and the cursor goes back to the top margin, and
    only then the row is drawn. So every row lies at or above the footer
    zone. The total line comes on the page where the loop stopped, 8
    points under the cursor, with no such check (it can land inside the
    footer zone), and the footer follows on that same page: it is on the
    last page of the document and on no other, once. When there are more
    items than fit under the head of the table the document has at least
    two pages. *)
Theorem pagination_before_each_row (inv : invoice) (items : list item) :
  let cur := upper (currency inv) in
  let start := draw_header cur inv in
  let st := draw_items cur items (fst start, snd start, zero) in
  let c := fst (fst st) in
  let y := snd (fst st) in
  let doc := invoice_pdf_bytes upper logo_readable inv items in
  let last_page :=
    code c ++ [ SetFont "Helvetica-Bold" 12;
                DrawRightString 560 (y - 8)
                  (lit "TOTAL: " ++ money cur (snd st)) ]
    ++ footer_ops logo_readable in
  (* the check made before each row *)
  (forall c1 y1 t1 it,
     let y_row := if y1 <? FOOTER_SPACE then page_h - 60 else y1 in
     FOOTER_SPACE <= y_row
     /\ fst (item_step cur (c1, y1, t1) it) =
        ({| pages := if y1 <? FOOTER_SPACE then pages c1 ++ [code c1]
                     else pages c1;
            code := (if y1 <? FOOTER_SPACE then [SetFont "Helvetica" 10]
                     else code c1) ++ row_ops cur y_row it |},
         y_row - 14))
  (* no row inside the footer zone *)
  /\ (exists rows,
        drawn c = drawn (fst start) ++ rows
        /\ text_above FOOTER_SPACE rows)
  (* the total line and the footer close the last page *)
  /\ doc = pages c ++ [last_page]
  /\ Forall (fun pg => count is_footer pg = 0%nat) (pages c)
  /\ count is_link last_page = 1%nat
  /\ count is_caption last_page = 2%nat
  /\ count is_brand last_page = (if logo_readable then 1%nat else 0%nat)
  (* more items than fit: several pages *)
  /\ (capacity (snd start) < Z.of_nat (List.length items) ->
      (2 <= List.length doc)%nat)
  (* the total line is not kept out of the footer zone *)
  /\ (exists inv' items',
        let st' := draw_items (upper (currency inv')) items'
                     (fst (draw_header (upper (currency inv')) inv'),
                      snd (draw_header (upper (currency inv')) inv'), zero) in
        pages (fst (fst st')) = []
        /\ snd (fst st') - 8 < FOOTER_SPACE).
Proof.
  intros cur start st c y doc last_page.
  assert (Cs : clean (fst start)) by apply clean_header.
  destruct (draw_items_rows cur items (fst start) (snd start) zero)
    as [rows [Er [Ar Fr]]].
  fold st in Er. fold c in Er.
  assert (Cc : clean c).
  { unfold clean. rewrite Er. apply Forall_app. split; assumption. }
  destruct (clean_parts c Cc) as [Cp Ck].
  assert (Ed : doc = pages c ++ [last_page]).
  { unfold doc, invoice_pdf_bytes. fold cur. fold start.
    destruct start as [c0 y0] eqn:Es. simpl fst in st. simpl snd in st.
    fold st. destruct st as [[c' y'] total] eqn:Est.
    unfold draw_total. rewrite draw_footer_eq.
    simpl in c, y. subst c y.
    assert (F : exists o r, footer_ops logo_readable = o :: r)
      by (destruct logo_readable; eexists; eexists; reflexivity).
    destruct F as [o [r F]].
    rewrite (save_page _ (code c' ++ [SetFont "Helvetica-Bold" 12;
               DrawRightString 560 (y' - 8)
                 (lit "TOTAL: " ++ money cur total)]) o r).
    - simpl. unfold last_page. simpl. rewrite <- !app_assoc. reflexivity.
    - simpl. rewrite F, <- !app_assoc. reflexivity. }
  assert (Cnt : forall p : op -> bool,
            (forall o, p o = true -> is_footer o = true) ->
            count p last_page =
            count p (footer_ops logo_readable)).
  { intros p Hp. unfold last_page.
    rewrite !count_app.
    rewrite (count_clean p (code c) Hp).
    - rewrite (count_clean p [_; _] Hp); [reflexivity|].
      repeat constructor.
    - unfold clean, drawn in Cc. apply Forall_app in Cc as [_ K]. exact K. }
  split.
  { intros c1 y1 t1 it y_row. split; [apply row_position|].
    rewrite item_step_eq. reflexivity. }
  split; [exists rows; auto|].
  split; [exact Ed|]. split; [exact Cp|].
  split.
  { rewrite Cnt; [destruct logo_readable; reflexivity|].
    intros [] E; try discriminate E; reflexivity. }
  split.
  { rewrite Cnt; [destruct logo_readable; reflexivity|].
    intros [] E; try discriminate E; reflexivity. }
  split.
  { rewrite Cnt; [destruct logo_readable; reflexivity|].
    intros [] E; try discriminate E; reflexivity. }
  split.
  { intros H. rewrite Ed, length_app. simpl.
    pose proof (draw_items_overflow cur items (fst start) (snd start) zero H)
      as L.
    fold st in L. fold c in L. lia. }
  exists Samples.sample_invoice, (repeat Samples.sample_item 32).
  split; vm_compute; reflexivity.
Qed.

End Pagination.

Lemma pagination_before_each_row_witness :
  capacity (snd (draw_header
                   (Samples.upper_ascii (Model.currency Samples.sample_invoice))
                   Samples.sample_invoice))
  < Z.of_nat (List.length (repeat Samples.sample_item 33))
  /\ (2 <= List.length
             (Pdf.invoice_pdf_bytes Samples.upper_ascii true
                Samples.sample_invoice (repeat Samples.sample_item 33)))%nat.
Proof.
  assert (H : capacity (snd (draw_header
                (Samples.upper_ascii (Model.currency Samples.sample_invoice))
                Samples.sample_invoice))
              < Z.of_nat (List.length (repeat Samples.sample_item 33)))
    by (vm_compute; reflexivity).
  split; [exact H|].
  exact (proj1 (proj2 (proj2 (proj2 (proj2 (proj2 (proj2 (proj2
           (pagination_before_each_row Samples.upper_ascii true
              Samples.sample_invoice (repeat Samples.sample_item 33)))))))))
           H).
Defined.


(* ================================================================== *)
(** * Facts about the store and the routes *)
(* ================================================================== *)
Module WebFacts.
Import PyStr PyFloat Items Model Pdf Web Spec StrFacts.

Lemma str_eqb_true (a b : str) : str_eqb a b = true <-> a = b.
Proof.
  unfold str_eqb. destruct (list_eq_dec ascii_dec a b); split;
    congruence.
Qed.

Lemma str_eqb_refl (a : str) : str_eqb a a = true.
Proof. apply str_eqb_true. reflexivity. Qed.

(** An accepted invoice row is appended as it is, under the next id;
    its total is a number and its token is new. *)
Lemma insert_invoice_inv d row i d' :
  insert_invoice d row = Some (i, d') ->
  exists stored,
    invoices d' = invoices d ++ [stored]
    /\ users d' = users d
    /\ id stored = i
    /\ i = next_id (invoices d)
    /\ items_json stored = items_json row
    /\ total_amount stored = total_amount row
    /\ view_token stored = view_token row
    /\ is_nan (total_amount row) = false
    /\ ~ In (view_token row) (map view_token (invoices d)).
Proof.
  unfold insert_invoice. intros H.
  destruct (existsb _ (invoices d)) eqn:X; [discriminate|].
  destruct (is_nan (total_amount row)) eqn:N; [discriminate|].
  simpl in H. injection H as <- <-.
  eexists. simpl. repeat split; try reflexivity.
  intros I. apply in_map_iff in I as [x [E I]].
  assert (existsb (fun i => str_eqb (view_token i) (view_token row))
            (invoices d) = true).
  { apply existsb_exists. exists x. split; [exact I|].
    apply str_eqb_true, E. }
  congruence.
Qed.

(** An accepted user row is an owner, appended. *)
Lemma insert_user_inv d name hash created d' :
  insert_user d name hash created = Some d' ->
  exists u,
    users d' = users d ++ [u] /\ invoices d' = invoices d /\ role u = owner.
Proof.
  unfold insert_user. intros H.
  destruct (existsb _ (users d)); [discriminate|].
  injection H as <-. eexists. simpl. repeat split.
Qed.


(** A 6-bit group is written with a URL-safe character. *)
Lemma sextet_urlsafe (n : N) : is_urlsafe (sextet n) = true.
Proof.
  unfold sextet. change 63%N with (N.ones 6). rewrite N.land_ones.
  assert (L : (N.to_nat (n mod 2 ^ 6) < 64)%nat).
  { pose proof (N.mod_upper_bound n (2 ^ 6)%N) as U.
    change (2 ^ 6)%N with 64%N in *. lia. }
  revert L. generalize (N.to_nat (n mod 2 ^ 6)). intros k L.
  do 64 (destruct k as [|k]; [reflexivity|]). lia.
Qed.

Lemma urlsafe_not_pad (c : ascii) :
  is_urlsafe c = true -> is_char "=" c = false.
Proof.
  destruct c as [[] [] [] [] [] [] [] []]; intros H;
    try discriminate H; reflexivity.
Qed.

(** Whole groups of three bytes give four URL-safe characters each,
    without padding. *)
Lemma urlsafe_b64encode_whole (n : nat) : forall bs,
  List.length bs = (3 * n)%nat ->
  List.length (urlsafe_b64encode bs) = (4 * n)%nat
  /\ forallb is_urlsafe (urlsafe_b64encode bs) = true.
Proof.
  induction n as [|n IH]; intros bs L.
  - destruct bs; [split; reflexivity|discriminate].
  - destruct bs as [|x [|y [|z rest]]]; try (simpl in L; lia).
    destruct (IH rest) as [Ll Lu]; [simpl in L; lia|].
    cbn [urlsafe_b64encode]. cbv zeta. split.
    + cbn [List.length]. rewrite Ll. lia.
    + cbn [forallb]. rewrite !sextet_urlsafe, Lu. reflexivity.
Qed.

Lemma rstrip_by_none (p : ascii -> bool) (s : str) :
  forallb (fun c => negb (p c)) s = true -> rstrip_by p s = s.
Proof.
  intros H. unfold rstrip_by.
  assert (E : lstrip_by p (rev s) = rev s).
  { destruct (rev s) as [|c t] eqn:R; [reflexivity|].
    simpl. assert (I : In c s) by (apply in_rev; rewrite R; left; auto).
    rewrite forallb_forall in H. apply H in I.
    destruct (p c); [discriminate I|reflexivity]. }
  rewrite E. apply rev_involutive.
Qed.

(** The encoding of the bytes 0 to 17, as [base64] gives it. *)
Lemma token_urlsafe_counting :
  token_urlsafe 18 Samples.counting = lit "AAECAwQFBgcICQoLDA0ODxAR".
Proof. vm_compute. reflexivity. Qed.








(** The token of 18 random bytes: 24 URL-safe characters, nothing
    stripped. *)
Lemma token_urlsafe_18 (rnd : entropy) :
  token_urlsafe 18 rnd = urlsafe_b64encode (token_bytes 18 rnd)
  /\ List.length (token_urlsafe 18 rnd) = 24%nat
  /\ forallb is_urlsafe (token_urlsafe 18 rnd) = true.
Proof.
  destruct (urlsafe_b64encode_whole 6 (token_bytes 18 rnd)) as [L U].
  { unfold token_bytes. rewrite length_map, length_seq. reflexivity. }
  assert (E : token_urlsafe 18 rnd = urlsafe_b64encode (token_bytes 18 rnd)).
  { unfold token_urlsafe. apply rstrip_by_none.
    rewrite forallb_forall in *. intros c I.
    rewrite (urlsafe_not_pad c (U c I)). reflexivity. }
  rewrite E. auto.
Qed.

Section RoutesFacts.
Variable upper : str -> str.
Variable generate_password_hash : str -> entropy -> str.
Variable check_password_hash : str -> str -> bool.
Variable OWNER_SETUP_KEY : str.
Variable logo_readable : bool.

Let handle := handle upper generate_password_hash check_password_hash
                OWNER_SETUP_KEY logo_readable.
Let owner_setup := owner_setup generate_password_hash OWNER_SETUP_KEY.
Let new_invoice := new_invoice upper.
Let step := step upper generate_password_hash check_password_hash
              OWNER_SETUP_KEY logo_readable.
Let reachable_from := reachable_from upper generate_password_hash
                        check_password_hash OWNER_SETUP_KEY logo_readable.

Lemma owner_setup_effect e req d : effect e d (db_out (owner_setup e req d)).
Proof.
  unfold owner_setup, Web.owner_setup.
  destruct (any_owner_exists d) eqn:A; [constructor|].
  destruct (meth req); [constructor|].
  destruct (negb _); [constructor|].
  destruct (_ || _)%bool; [constructor|].
  destruct (insert_user _ _ _ _) eqn:I; [|constructor].
  simpl. eapply owner_created; eassumption.
Qed.

Lemma new_invoice_effect s e req d : effect e d (db_out (new_invoice s e req d)).
Proof.
  unfold new_invoice, Web.new_invoice.
  destruct (meth req); [constructor|].
  destruct (_ || _)%bool; [constructor|].
  destruct (parse_items _) as [items|[msg]] eqn:P; [|constructor].
  destruct (insert_invoice _ _) as [[i d']|] eqn:I; [|constructor].
  simpl. eapply invoice_created; [exact P| | | |exact I]; reflexivity.
Qed.

(** Every route leaves the store as it is, but for the two inserts. *)
Lemma handle_effect r e req d : effect e d (db_out (handle r e req d)).
Proof.
  destruct r; unfold handle, Web.handle, get_only, staff_required,
    home, login, logout, dashboard, created, invoice_pdf, public_view,
    public_pdf, health;
    repeat first
      [ apply no_effect
      | apply owner_setup_effect
      | apply new_invoice_effect
      | match goal with
        | |- context [match meth ?x with _ => _ end] => destruct (meth x)
        | |- context [match sess ?x with _ => _ end] => destruct (sess x)
        | |- context [match by_id ?a ?b with _ => _ end] =>
            destruct (by_id a b)
        | |- context [match by_token ?a ?b with _ => _ end] =>
            destruct (by_token a b)
        | |- context [match find ?a ?b with _ => _ end] => destruct (find a b)
        | |- context [if ?b then _ else _] => destruct b
        end ].
Qed.

(** Induction over the stores reached, one effect at a time. *)
Lemma reachable_from_ind_effect (P : database -> Prop) (d0 : database) :
  P d0 ->
  (forall e d d', P d -> effect e d d' -> P d') ->
  forall d, reachable_from d0 d -> P d.
Proof.
  intros H0 Hs d R. induction R as [|d1 d2 R IH S]; [exact H0|].
  destruct S as [r e req d1]. eapply Hs; [exact IH|].
  apply handle_effect.
Qed.




(** Once an owner exists the users table is frozen. *)
Lemma effect_users e d d' :
  any_owner_exists d = true -> effect e d d' -> users d' = users d.
Proof.
  intros A [|name hash d1 A' I|raw items row i d1 P J T K I].
  - reflexivity.
  - congruence.
  - apply insert_invoice_inv in I as [stored [_ [E _]]]. exact E.
Qed.

Lemma users_frozen d d' :
  any_owner_exists d = true -> reachable_from d d' -> users d' = users d.
Proof.
  intros A. revert d'. apply reachable_from_ind_effect; [reflexivity|].
  intros e d1 d2 E F. rewrite <- E. apply (effect_users e); [|exact F].
  unfold any_owner_exists in *. rewrite E. exact A.
Qed.



End RoutesFacts.

End WebFacts.

(* ================================================================== *)
(** * Properties of the store and the routes *)
(* ================================================================== *)
Import Web WebFacts.

Section Application.
Variable upper : str -> str.
Variable generate_password_hash : str -> entropy -> str.
Variable check_password_hash : str -> str -> bool.
Variable OWNER_SETUP_KEY : str.
Variable logo_readable : bool.

Local Abbreviation handle :=
  (Web.handle upper generate_password_hash check_password_hash
     OWNER_SETUP_KEY logo_readable).
Local Abbreviation reachable_from :=
  (Web.reachable_from upper generate_password_hash check_password_hash
     OWNER_SETUP_KEY logo_readable).
Local Abbreviation reachable :=
  (Web.reachable upper generate_password_hash check_password_hash
     OWNER_SETUP_KEY logo_readable).
Local Abbreviation new_invoice := (Web.new_invoice upper).
Local Abbreviation owner_setup :=
  (Web.owner_setup generate_password_hash OWNER_SETUP_KEY).


(** C6. Once an owner exists, in every store reached afterwards the
    owner-setup route answers "Owner already exists" to any request, GET
    or POST, and leaves the store as it is; no user is added by any
    route any more. The test reads the store at each request, so this
    holds from the store left by the request that created the owner. *)
Theorem owner_setup_closed_once_owner_exists (d : database) :
  any_owner_exists d = true ->
  (forall d', reachable_from d d' ->
     users d' = users d
     /\ forall e req,
          owner_setup e req d' =
          {| resp := Page "Owner Setup" OwnerAlreadyExists;
             sess_out := sess req; db_out := d' |})
  /\ (forall d0 e0 req0,
        resp (owner_setup e0 req0 d0) = Redirect "login" None ->
        any_owner_exists (db_out (owner_setup e0 req0 d0)) = true).
Proof.
  intros A. split.
  - intros d' R.
    pose proof (users_frozen upper generate_password_hash
                  check_password_hash OWNER_SETUP_KEY logo_readable
                  d d' A R) as U.
    split; [exact U|]. intros e req. unfold Web.owner_setup.
    unfold any_owner_exists in *. rewrite U, A. reflexivity.
  - intros d0 e0 req0 H. unfold Web.owner_setup in *.
    destruct (any_owner_exists d0) eqn:A0; [discriminate H|].
    destruct (meth req0); [discriminate H|].
    destruct (negb _); [discriminate H|].
    destruct (_ || _)%bool; [discriminate H|].
    destruct (insert_user _ _ _ _) as [d1|] eqn:I; [|discriminate H].
    simpl. apply insert_user_inv in I as [u [E [_ Ro]]].
    unfold any_owner_exists. rewrite E, existsb_app. simpl.
    rewrite Ro, str_eqb_refl. apply orb_true_r.
Qed.


(** C9. The three validation failures are answered with a page, that
    is with status 200 and the message in the body, the store left as it
    is: a required field of the invoice form missing, an items text
    without any item line, and an owner-setup form that breaks the
    password policy. *)
Theorem validation_errors_answer_200 (e : env) (req : request) (d : database) :
  (forall s,
     sess req = Some s -> is_staff_role (s_role s) = true ->
     meth req = POST ->
     (missing_required req = true ->
      handle NewInvoice e req d =
      {| resp := Page "Create Invoice" MissingRequiredFields;
         sess_out := sess req; db_out := d |})
     /\ (missing_required req = false ->
         forall err,
           parse_items (form_get (form req) "items_raw" []) = inr err ->
           handle NewInvoice e req d =
           {| resp := Page "Create Invoice"
                        (ItemsError (lit "Add at least 1 item line."));
              sess_out := sess req; db_out := d |}))
  /\ (any_owner_exists d = false -> meth req = POST ->
      form_get (form req) "setup_key" [] = OWNER_SETUP_KEY ->
      password_policy_violated req = true ->
      handle OwnerSetup e req d =
      {| resp := Page "Owner Setup" BadInput;
         sess_out := sess req; db_out := d |})
  /\ (forall title v, status_code (Page title v) = 200).
Proof.
  split; [|split; [|reflexivity]].
  - intros s Hs Hr Hm. unfold Web.handle, staff_required.
    rewrite Hs, Hr. unfold Web.new_invoice. rewrite Hm.
    unfold missing_required. cbv zeta. split.
    + intros ->. unfold answer. rewrite Hs. reflexivity.
    + intros -> err P. rewrite P.
      rewrite ItemsFacts.parse_items_eq in P.
      destruct (nonblank_lines _); [|discriminate P].
      injection P as <-. unfold answer. rewrite Hs. reflexivity.
  - intros A Hm Hk Hv. unfold Web.handle, Web.owner_setup.
    rewrite A, Hm, Hk, str_eqb_refl. simpl negb. cbv iota.
    unfold password_policy_violated in Hv. cbv zeta in Hv.
    rewrite Hv. reflexivity.
Qed.

(** C10. The numeric pattern takes a leading sign and [float] keeps it:
    the line "Refund -120" gives the unit price -120.0, and an invoice
    made of it is stored with the negative total -120.0. *)
Theorem negative_price_and_total :
  (exists it,
     parse_items (lit "Refund -120") = inl [it]
     /\ desc it = lit "Refund"
     /\ is_negative (unit_price it) = true
     /\ exists q, to_Q (unit_price it) = Some q /\ (q == -120)%Q)
  /\ (exists inv,
        let r := handle NewInvoice Samples.sample_env
                   (Samples.invoice_post "Refund -120") init_db in
        resp r = Redirect "created" (Some 1)
        /\ invoices (db_out r) = [inv]
        /\ is_negative (total_amount inv) = true
        /\ exists q, to_Q (total_amount inv) = Some q /\ (q == -120)%Q).
Proof.
  split.
  - eexists. split; [vm_compute; reflexivity|].
    split; [vm_compute; reflexivity|]. split; [vm_compute; reflexivity|].
    eexists. split; [vm_compute; reflexivity|]. reflexivity.
  - eexists. cbv zeta. split; [vm_compute; reflexivity|].
    split; [vm_compute; reflexivity|]. split; [vm_compute; reflexivity|].
    eexists. split; [vm_compute; reflexivity|]. reflexivity.
Qed.

End Application.

(* ================================================================== *)
(** * The money format of the PDF *)
(* ================================================================== *)
Import FormatFacts.

(** An amount the parser can produce and the format writes without
    decimals: a price of 310 digits is the float [inf], drawn as
    "$inf USD". *)
Lemma money_of_infinite_amount :
  exists it,
    parse_items (lit "Fee " ++ repeat "9"%char 310) = inl [it]
    /\ unit_price it = S754_infinity false
    /\ money (lit "USD") (line_total it) = lit "$inf USD".
Proof.
  eexists. split; [vm_compute; reflexivity|].
  split; vm_compute; reflexivity.
Qed.

(** C7 (amended). For a three-letter currency code and a finite amount,
    [money] writes the sign, the integer part in groups of three digits
    separated by commas, a point and exactly two digits (the amount
    rounded to hundredths), then a space and the currency code; the text
    starts with "$" exactly when the currency is USD. So 1234.56 is
    "$1,234.56 USD" in USD and "1,234.56 EUR" in EUR. *)
Theorem money_two_decimals_and_code (cur : str) (x : float) :
  currency_code cur -> is_finite x = true ->
  (exists int_part d1 d2,
     money cur x =
       (if str_eqb cur (lit "USD") then lit "$" else [])
       ++ sign_str (signbit x) ++ int_part ++ lit "." ++ [d1; d2]
       ++ lit " " ++ cur
     /\ grouped int_part
     /\ is_digit d1 = true /\ is_digit d2 = true
     /\ digits_val (remove_char "," int_part) * 100
        + digit_val d1 * 10 + digit_val d2 = hundredths_of x)
  /\ (startswith (money cur x) (lit "$") = true <-> cur = lit "USD")
  /\ money (lit "USD") (of_decimal false 123456 2) = lit "$1,234.56 USD"
  /\ money (lit "EUR") (of_decimal false 123456 2) = lit "1,234.56 EUR".
Proof.
  intros [L U] F.
  destruct (format_2f_finite x F) as [ip [d1 [d2 [E [G [D1 [D2 V]]]]]]].
  destruct cur as [|a [|b [|c [|]]]]; try discriminate L. clear L.
  assert (Sc : isspace c = false).
  { simpl in U. repeat (apply andb_prop in U as [? U]).
    revert H1. clear. destruct c as [[] [] [] [] [] [] [] []];
      intros H; try discriminate H; reflexivity. }
  destruct (grouped_head ip G) as [h [t [Eh Dh]]].
  destruct (ItemsFacts.digit_classes h Dh) as [_ [Nd Sh]].
  assert (M : money [a; b; c] x =
              (if str_eqb [a; b; c] (lit "USD") then lit "$" else [])
              ++ sign_str (signbit x) ++ ip ++ lit "." ++ [d1; d2]
              ++ lit " " ++ [a; b; c]).
  { unfold money. rewrite E, <- !app_assoc. unfold strip.
    set (sym := if str_eqb [a; b; c] (lit "USD") then lit "$" else []).
    assert (R : sym ++ sign_str (signbit x) ++ ip ++ lit "." ++ [d1; d2]
                ++ lit " " ++ [a; b; c]
                = (sym ++ sign_str (signbit x) ++ ip ++ lit "." ++ [d1; d2]
                   ++ lit " " ++ [a; b]) ++ [c])
      by (rewrite <- !app_assoc; reflexivity).
    apply (strip_by_id _ _ _ c R Sc). subst ip sym.
    destruct (str_eqb [a; b; c] (lit "USD")), (signbit x);
      eexists; eexists; (split; [reflexivity|]);
      reflexivity || exact Sh. }
  split; [|split; [|split; vm_compute; reflexivity]].
  - exists ip, d1, d2. auto.
  - rewrite M. destruct (str_eqb [a; b; c] (lit "USD")) eqn:Q.
    + split; [intros _; apply str_eqb_true, Q|intros _].
      apply startswith_spec. eexists. reflexivity.
    + split.
      * intros S. exfalso. subst ip.
        apply startswith_spec in S as [post S].
        destruct (signbit x); simpl in S; [discriminate S|].
        injection S as -> _. discriminate Nd.
      * intros Q'. apply str_eqb_true in Q'. congruence.
Qed.

Lemma money_two_decimals_and_code_witness :
  (currency_code (lit "CAD") /\ is_finite (of_int 45) = true)
  /\ startswith (money (lit "CAD") (of_int 45)) (lit "$") = false.
Proof.
  assert (C : currency_code (lit "CAD")) by (split; reflexivity).
  assert (F : is_finite (of_int 45) = true) by reflexivity.
  split; [split; assumption|].
  destruct (money_two_decimals_and_code (lit "CAD") (of_int 45) C F)
    as [_ [[S _] _]].
  destruct (startswith (money (lit "CAD") (of_int 45)) (lit "$"));
    [|reflexivity].
  discriminate (S eq_refl).
Defined.

(* ================================================================== *)
(** * The properties of the store on sample requests *)
(* ================================================================== *)


Lemma owner_setup_closed_once_owner_exists_witness :
  any_owner_exists Samples.one_owner = true
  /\ Web.owner_setup Samples.sample_hash Samples.sample_key
       Samples.sample_env (Samples.setup_post "bob" "secret1" "secret1")
       Samples.one_owner
     = {| resp := Page "Owner Setup" OwnerAlreadyExists;
          sess_out := None; db_out := Samples.one_owner |}.
Proof.
  assert (A : any_owner_exists Samples.one_owner = true) by reflexivity.
  split; [exact A|].
  exact (proj2 (proj1 (owner_setup_closed_once_owner_exists
                         Samples.upper_ascii Samples.sample_hash
                         Samples.sample_check Samples.sample_key true
                         Samples.one_owner A)
                  Samples.one_owner
                  (reach_here _ _ _ _ _ _))
           Samples.sample_env
           (Samples.setup_post "bob" "secret1" "secret1")).
Defined.


Lemma validation_errors_answer_200_witness :
  (sess (Samples.invoice_post " ") = Samples.staff
   /\ missing_required (Samples.invoice_post " ") = false
   /\ parse_items (form_get (form (Samples.invoice_post " ")) "items_raw" [])
      = inr no_items
   /\ password_policy_violated (Samples.setup_post "al" "secret1" "secret1")
      = true)
  /\ resp (Web.handle Samples.upper_ascii Samples.sample_hash
             Samples.sample_check Samples.sample_key true
             NewInvoice Samples.sample_env (Samples.invoice_post " ") init_db)
     = Page "Create Invoice" (ItemsError (lit "Add at least 1 item line."))
  /\ resp (Web.handle Samples.upper_ascii Samples.sample_hash
             Samples.sample_check Samples.sample_key true
             OwnerSetup Samples.sample_env
             (Samples.setup_post "al" "secret1" "secret1") init_db)
     = Page "Owner Setup" BadInput.
Proof.
  split; [repeat split; reflexivity|]. split.
  - rewrite (proj2 (proj1 (validation_errors_answer_200
                             Samples.upper_ascii Samples.sample_hash
                             Samples.sample_check Samples.sample_key true
                             Samples.sample_env (Samples.invoice_post " ")
                             init_db)
                      _ eq_refl eq_refl eq_refl)
               eq_refl no_items eq_refl).
    reflexivity.
  - rewrite (proj1 (proj2 (validation_errors_answer_200
                             Samples.upper_ascii Samples.sample_hash
                             Samples.sample_check Samples.sample_key true
                             Samples.sample_env
                             (Samples.setup_post "al" "secret1" "secret1")
                             init_db))
               eq_refl eq_refl eq_refl eq_refl).
    reflexivity.
Defined.

(* ================================================================== *)
(** * Further facts about the store *)
(* ================================================================== *)
Module StoreFacts.
Import PyStr PyFloat Items Model Pdf Web Spec Behaviour StrFacts WebFacts.


Lemma countdown_length (n : nat) : List.length (countdown n) = n.
Proof. induction n as [|n IH]; [reflexivity|]. simpl. rewrite IH. reflexivity. Qed.





(** A row appended to rows that do not match is the one found. *)
Lemma find_snoc_fresh {A} (f : A -> bool) (l : list A) (x : A) :
  existsb f l = false -> f x = true -> find f (l ++ [x]) = Some x.
Proof.
  induction l as [|a l IH]; simpl; intros E F.
  - rewrite F. reflexivity.
  - apply orb_false_iff in E as [Ea El]. rewrite Ea. apply IH; assumption.
Qed.

Section Reached.
Variable upper : str -> str.
Variable generate_password_hash : str -> entropy -> str.
Variable check_password_hash : str -> str -> bool.
Variable OWNER_SETUP_KEY : str.
Variable logo_readable : bool.

Let reachable_from := reachable_from upper generate_password_hash
                        check_password_hash OWNER_SETUP_KEY logo_readable.


(** The ids of a reachable store, latest first, count down to 1. *)
Lemma ids_countdown d :
  reachable_from init_db d ->
  map id (rev (invoices d)) = countdown (List.length (invoices d)).
Proof.
  revert d.
  refine (reachable_from_ind_effect upper generate_password_hash
            check_password_hash OWNER_SETUP_KEY logo_readable
            (fun d => map id (rev (invoices d))
                      = countdown (List.length (invoices d))) init_db _ _).
  - reflexivity.
  - intros e d1 d2 IH [|name hash d3 A I|raw items row i d3 P J T K I].
    + exact IH.
    + apply insert_user_inv in I as [u [_ [E _]]]. rewrite E. exact IH.
    + apply insert_invoice_inv in I as [stored [E [_ [Ei [Hi _]]]]].
      rewrite E, rev_app_distr, length_app. simpl rev. simpl List.length.
      rewrite Nat.add_1_r. cbn [app map countdown]. rewrite IH. f_equal.
      rewrite Ei, Hi. unfold next_id. lia.
Qed.

(** A reachable store has no account, or the one owner, of id 1. *)
Lemma accounts d :
  reachable_from init_db d ->
  users d = []
  \/ exists u, users d = [u] /\ role u = owner /\ user_id u = 1.
Proof.
  revert d.
  refine (reachable_from_ind_effect upper generate_password_hash
            check_password_hash OWNER_SETUP_KEY logo_readable
            (fun d => users d = []
                      \/ exists u, users d = [u] /\ role u = owner
                                   /\ user_id u = 1) init_db _ _).
  - left. reflexivity.
  - intros e d1 d2 IH [|name hash d3 A I|raw items row i d3 P J T K I].
    + exact IH.
    + destruct IH as [E|[u [E [Ro _]]]].
      * right. unfold insert_user in I. rewrite E in I. simpl in I.
        injection I as <-. eexists. simpl. repeat split.
      * exfalso. unfold any_owner_exists in A. rewrite E in A. simpl in A.
        rewrite Ro, str_eqb_refl in A. discriminate A.
    + apply insert_invoice_inv in I as [stored [_ [E _]]]. rewrite E. exact IH.
Qed.

(** Only the owner-setup view writes to the users table. *)
Lemma handle_users r e req d :
  r <> OwnerSetup ->
  users (db_out (Web.handle upper generate_password_hash check_password_hash
                   OWNER_SETUP_KEY logo_readable r e req d)) = users d.
Proof.
  intros H.
  assert (N : forall s, users (db_out (Web.new_invoice upper s e req d))
                        = users d).
  { intros s. unfold Web.new_invoice.
    destruct (meth req); [reflexivity|].
    destruct (_ || _)%bool; [reflexivity|].
    destruct (parse_items _) as [items|[msg]]; [|reflexivity].
    destruct (insert_invoice _ _) as [[i d']|] eqn:I; [|reflexivity].
    apply insert_invoice_inv in I as [stored [_ [E _]]]. exact E. }
  destruct r; try congruence;
    unfold Web.handle, get_only, staff_required, home, login, logout,
      dashboard, created, invoice_pdf, public_view, public_pdf, health;
    repeat match goal with
           | |- context [match meth ?x with _ => _ end] => destruct (meth x)
           | |- context [match sess ?x with _ => _ end] => destruct (sess x)
           | |- context [match by_id ?a ?b with _ => _ end] =>
               destruct (by_id a b)
           | |- context [match by_token ?a ?b with _ => _ end] =>
               destruct (by_token a b)
           | |- context [match find ?a ?b with _ => _ end] => destruct (find a b)
           | |- context [if ?b then _ else _] => destruct b
           end; try reflexivity; apply N.
Qed.

End Reached.

End StoreFacts.

(* ================================================================== *)
(** * Sessions, accounts and lookups *)
(* ================================================================== *)
Import Behaviour StoreFacts.

Section Sessions.
Variable upper : str -> str.
Variable generate_password_hash : str -> entropy -> str.
Variable check_password_hash : str -> str -> bool.
Variable OWNER_SETUP_KEY : str.
Variable logo_readable : bool.

Local Abbreviation handle :=
  (Web.handle upper generate_password_hash check_password_hash
     OWNER_SETUP_KEY logo_readable).
Local Abbreviation reachable_from :=
  (Web.reachable_from upper generate_password_hash check_password_hash
     OWNER_SETUP_KEY logo_readable).
Local Abbreviation reachable :=
  (Web.reachable upper generate_password_hash check_password_hash
     OWNER_SETUP_KEY logo_readable).
Local Abbreviation login := (Web.login check_password_hash).
Local Abbreviation owner_setup :=
  (Web.owner_setup generate_password_hash OWNER_SETUP_KEY).
Local Abbreviation download := (Web.download upper logo_readable).

(** X1. The four views behind [staff_required] (dashboard, new invoice,
    created, staff PDF) never run for a request without a staff session:
    with no session the answer is the redirect to the login page, with a
    session whose role is neither owner nor employee it is 403 "No
    access"; a POST to one of the GET-only views is refused with 405
    before that. Store and session are left as they are. *)
Theorem staff_views_need_a_staff_session
  (r : route) (e : env) (req : request) (d : database) :
  protected r = true -> staff_session req = false ->
  handle r e req d =
  {| resp := if method_allowed r (meth req) then refusal req
             else Status 405 "Method Not Allowed";
     sess_out := sess req; db_out := d |}.
Proof.
  intros P S. unfold staff_session in S. unfold refusal.
  destruct r; try discriminate P;
    unfold Web.handle, get_only, staff_required, method_allowed, answer;
    destruct (meth req); destruct (sess req) as [s|];
    try rewrite S; reflexivity.
Qed.

(** X2. What a request cannot do. A GET request never changes the
    store. The users table is only changed by the owner-setup view and
    the invoices table only by the new-invoice view, and no invoice is
    stored for a request without a staff session. The session is only
    changed by login and logout. *)
Theorem requests_that_cannot_write
  (r : route) (e : env) (req : request) (d : database) :
  (meth req = GET -> db_out (handle r e req d) = d)
  /\ (r <> OwnerSetup -> users (db_out (handle r e req d)) = users d)
  /\ (r <> NewInvoice -> invoices (db_out (handle r e req d)) = invoices d)
  /\ (staff_session req = false ->
      invoices (db_out (handle r e req d)) = invoices d)
  /\ (r <> Login -> r <> Logout -> sess_out (handle r e req d) = sess req).
Proof.
  assert (O : invoices (db_out (owner_setup e req d)) = invoices d).
  { unfold Web.owner_setup.
    destruct (any_owner_exists d); [reflexivity|].
    destruct (meth req); [reflexivity|].
    destruct (negb _); [reflexivity|].
    destruct (_ || _)%bool; [reflexivity|].
    destruct (insert_user _ _ _ _) as [d'|] eqn:I; [|reflexivity].
    apply insert_user_inv in I as [u [_ [E _]]]. exact E. }
  assert (Os : sess_out (owner_setup e req d) = sess req).
  { unfold Web.owner_setup.
    destruct (any_owner_exists d); [reflexivity|].
    destruct (meth req); [reflexivity|].
    destruct (negb _); [reflexivity|].
    destruct (_ || _)%bool; [reflexivity|].
    destruct (insert_user _ _ _ _); reflexivity. }
  assert (Ns : forall s, sess_out (Web.new_invoice upper s e req d)
                         = sess req).
  { intros s. unfold Web.new_invoice.
    destruct (meth req); [reflexivity|].
    destruct (_ || _)%bool; [reflexivity|].
    destruct (parse_items _) as [items|[msg]]; [|reflexivity].
    destruct (insert_invoice _ _) as [[i d']|]; reflexivity. }
  assert (L : db_out (login e req d) = d).
  { unfold Web.login. destruct (meth req); [reflexivity|].
    destruct (find _ _); [|reflexivity].
    destruct (check_password_hash _ _); reflexivity. }
  split; [|split; [|split; [|split]]].
  - intros G.
    destruct r; unfold Web.handle, get_only, staff_required, home, logout,
      dashboard, created, invoice_pdf, public_view, public_pdf, health,
      Web.owner_setup, Web.new_invoice; try exact L; rewrite ?G;
      repeat match goal with
             | |- context [match sess ?x with _ => _ end] => destruct (sess x)
             | |- context [match by_id ?a ?b with _ => _ end] =>
                 destruct (by_id a b)
             | |- context [match by_token ?a ?b with _ => _ end] =>
                 destruct (by_token a b)
             | |- context [if ?b then _ else _] => destruct b
             end; reflexivity.
  - apply handle_users.
  - intros H.
    destruct r; try congruence;
      unfold Web.handle, get_only, staff_required, home, logout,
        dashboard, created, invoice_pdf, public_view, public_pdf, health;
      try (rewrite L; reflexivity); try exact O;
      repeat match goal with
             | |- context [match meth ?x with _ => _ end] => destruct (meth x)
             | |- context [match sess ?x with _ => _ end] => destruct (sess x)
             | |- context [match by_id ?a ?b with _ => _ end] =>
                 destruct (by_id a b)
             | |- context [match by_token ?a ?b with _ => _ end] =>
                 destruct (by_token a b)
             | |- context [if ?b then _ else _] => destruct b
             end; reflexivity.
  - intros S. unfold staff_session in S.
    destruct r;
      unfold Web.handle, get_only, staff_required, home, logout,
        dashboard, created, invoice_pdf, public_view, public_pdf, health;
      try (rewrite L; reflexivity); try exact O;
      repeat match goal with
             | |- context [match meth ?x with _ => _ end] => destruct (meth x)
             | |- context [match sess ?x with _ => _ end] =>
                 destruct (sess x); try rewrite S
             | |- context [match by_id ?a ?b with _ => _ end] =>
                 destruct (by_id a b)
             | |- context [match by_token ?a ?b with _ => _ end] =>
                 destruct (by_token a b)
             | |- context [if ?b then _ else _] => destruct b
             end; reflexivity.
  - intros H1 H2.
    destruct r; try congruence;
      unfold Web.handle, get_only, staff_required, home,
        dashboard, created, invoice_pdf, public_view, public_pdf, health;
      try exact Os;
      repeat match goal with
             | |- context [match meth ?x with _ => _ end] => destruct (meth x)
             | |- context [match sess ?x with _ => _ end] =>
                 destruct (sess x) eqn:?
             | |- context [match by_id ?a ?b with _ => _ end] =>
                 destruct (by_id a b)
             | |- context [match by_token ?a ?b with _ => _ end] =>
                 destruct (by_token a b)
             | |- context [if ?b then _ else _] => destruct b
             end; try reflexivity; try assumption; apply Ns.
Qed.

(** X3. An application started on a new database file never has more
    than one account: it is the owner made by owner setup, with id 1. *)
Theorem only_account_is_the_first_owner (d : database) :
  reachable d ->
  (List.length (users d) <= 1)%nat
  /\ (forall u, In u (users d) -> role u = owner /\ user_id u = 1)
  /\ any_owner_exists d = nonempty_users d.
Proof.
  intros R.
  destruct (accounts upper generate_password_hash check_password_hash
              OWNER_SETUP_KEY logo_readable d R) as [E|[u [E [Ro Ui]]]];
    unfold any_owner_exists, nonempty_users; rewrite E; simpl.
  - split; [lia|]. split; [intros u []|reflexivity].
  - split; [lia|]. split.
    + intros v [<-|[]]. split; assumption.
    + rewrite Ro, str_eqb_refl. reflexivity.
Qed.

(** X4. Login on a reachable store. It never changes the store. It
    succeeds exactly when an account has the stripped user name of the
    form and the password check passes on its stored hash: the answer is
    then the redirect to the dashboard and the session holds that
    account's id and name with the role owner, which passes the staff
    gate. In every other case the answer is the "Invalid login" page
    and the session stays as it was. *)
Theorem login_needs_matching_credentials
  (d : database) (e : env) (req : request) :
  reachable d -> meth req = POST ->
  let u := strip (form_get (form req) "username" []) in
  let p := form_get (form req) "password" [] in
  (exists user,
     In user (users d) /\ username user = u
     /\ check_password_hash (password_hash user) p = true
     /\ login e req d =
        {| resp := Redirect "dashboard" None;
           sess_out := Some {| s_user_id := user_id user; s_username := u;
                               s_role := owner |};
           db_out := d |}
     /\ is_staff_role owner = true)
  \/ ((forall user,
         In user (users d) -> username user = u ->
         check_password_hash (password_hash user) p = false)
      /\ login e req d =
         {| resp := Page "Login" InvalidLogin;
            sess_out := sess req; db_out := d |}).
Proof.
  intros R M u p. unfold Web.login. rewrite M. fold u. fold p.
  destruct (accounts upper generate_password_hash check_password_hash
              OWNER_SETUP_KEY logo_readable d R) as [E|[a [E [Ro Ui]]]];
    rewrite E; simpl.
  - right. split; [intros user []|reflexivity].
  - destruct (str_eqb (username a) u) eqn:Q.
    + apply str_eqb_true in Q.
      destruct (check_password_hash (password_hash a) p) eqn:C.
      * left. exists a. rewrite Q, Ro. repeat split; auto.
      * right. split; [|reflexivity]. intros user [<-|[]] _. exact C.
    + right. split; [|reflexivity]. intros user [<-|[]] Eu.
      apply str_eqb_true in Eu. congruence.
Qed.

(** X5. Owner setup, then login. When the password check accepts the
    hash made of a password, the account made by a successful owner
    setup can log in, in every store reached afterwards, with the same
    user name (up to surrounding whitespace) and password: login answers
    with the redirect to the dashboard and a session of role owner, and
    with that session the dashboard is shown. *)
Theorem owner_can_log_in_after_setup
  (d : database) (e : env) (req : request) :
  (forall p rnd, check_password_hash (generate_password_hash p rnd) p = true) ->
  resp (owner_setup e req d) = Redirect "login" None ->
  forall d', reachable_from (db_out (owner_setup e req d)) d' ->
  forall e' req',
    meth req' = POST ->
    strip (form_get (form req') "username" [])
    = strip (form_get (form req) "username" []) ->
    form_get (form req') "password" [] = form_get (form req) "password" [] ->
    exists s,
      login e' req' d' =
      {| resp := Redirect "dashboard" None; sess_out := Some s; db_out := d' |}
      /\ s_username s = strip (form_get (form req) "username" [])
      /\ s_role s = owner
      /\ forall e2 req2,
           meth req2 = GET -> sess req2 = Some s ->
           resp (handle Dashboard e2 req2 d') =
           Page "Dashboard"
             (DashboardView (s_username s) owner
                (firstn 250 (rev (invoices d')))).
Proof.
  intros C H d' R e' req' M Eu Ep.
  unfold Web.owner_setup in H, R.
  destruct (any_owner_exists d) eqn:A; [discriminate H|].
  destruct (meth req); [discriminate H|].
  destruct (negb _); [discriminate H|].
  destruct (_ || _)%bool; [discriminate H|].
  unfold insert_user in H, R.
  destruct (existsb _ (users d)) eqn:X; [discriminate H|].
  simpl in R.
  match type of R with
  | Web.reachable_from _ _ _ _ _ ?d1 _ => set (d1' := d1) in R
  end.
  assert (A1 : any_owner_exists d1' = true).
  { unfold any_owner_exists, d1'. simpl. rewrite existsb_app. simpl.
    apply orb_true_r. }
  pose proof (users_frozen upper generate_password_hash check_password_hash
                OWNER_SETUP_KEY logo_readable d1' d' A1 R) as U.
  unfold Web.login. rewrite M, Eu, Ep, U. unfold d1'. simpl users.
  rewrite (find_snoc_fresh _ _ _ X) by apply str_eqb_refl.
  simpl password_hash. rewrite C.
  eexists. split; [reflexivity|]. simpl. split; [reflexivity|].
  split; [reflexivity|].
  intros e2 req2 M2 S2. unfold Web.handle, get_only, staff_required.
  rewrite M2, S2. reflexivity.
Qed.

(** X6. The users table changes only through owner setup with the right
    key: when a request changes it, the request is a POST to the
    owner-setup view of a store without owner, its setup key is
    [OWNER_SETUP_KEY], the form meets the password policy, and the one
    row added is an owner with the stripped user name, the hash of the
    password and the time of the request; the answer is the redirect to
    the login page and no session is opened. *)
Theorem accounts_are_made_with_the_setup_key
  (r : route) (e : env) (req : request) (d : database) :
  users (db_out (handle r e req d)) <> users d ->
  r = OwnerSetup /\ meth req = POST /\ any_owner_exists d = false
  /\ form_get (form req) "setup_key" [] = OWNER_SETUP_KEY
  /\ password_policy_violated req = false
  /\ handle r e req d =
     {| resp := Redirect "login" None;
        sess_out := sess req;
        db_out :=
          {| users := users d ++
               [{| user_id := Z.of_nat (List.length (users d)) + 1;
                   username := strip (form_get (form req) "username" []);
                   password_hash :=
                     generate_password_hash
                       (form_get (form req) "password" []) (random e);
                   role := owner;
                   user_created_at := now e |}];
             invoices := invoices d |} |}.
Proof.
  intros H.
  assert (E : r = OwnerSetup).
  { destruct r; try reflexivity; exfalso; apply H;
      apply (handle_users upper generate_password_hash check_password_hash
               OWNER_SETUP_KEY logo_readable); discriminate. }
  subst r. split; [reflexivity|]. revert H.
  unfold Web.handle, Web.owner_setup, password_policy_violated.
  destruct (any_owner_exists d); [intros H; exfalso; apply H; reflexivity|].
  destruct (meth req); [intros H; exfalso; apply H; reflexivity|].
  destruct (str_eqb _ OWNER_SETUP_KEY) eqn:K;
    [|intros H; exfalso; apply H; reflexivity].
  simpl negb. cbv iota zeta.
  destruct (_ || _)%bool; [intros H; exfalso; apply H; reflexivity|].
  unfold insert_user.
  destruct (existsb _ (users d)); [intros H; exfalso; apply H; reflexivity|].
  intros _. apply str_eqb_true in K. repeat split; auto.
Qed.



(** X9. The dashboard of a staff session lists the invoices from the
    latest to the oldest and stops after 250: on a reachable store with
    n invoices the ids shown are n, n - 1, ... down to 1 or to n - 249. *)
Theorem dashboard_lists_the_latest_250
  (d : database) (e : env) (req : request) (s : session_data) :
  reachable d -> meth req = GET ->
  sess req = Some s -> is_staff_role (s_role s) = true ->
  exists rows,
    handle Dashboard e req d =
    {| resp := Page "Dashboard" (DashboardView (s_username s) (s_role s) rows);
       sess_out := sess req; db_out := d |}
    /\ map id rows = firstn 250 (countdown (List.length (invoices d)))
    /\ List.length rows = Nat.min 250 (List.length (invoices d))
    /\ forall inv, In inv rows -> In inv (invoices d).
Proof.
  intros R M S St. exists (firstn 250 (rev (invoices d))).
  split; [|split; [|split]].
  - unfold Web.handle, get_only, staff_required, dashboard.
    rewrite M, S, St. unfold answer. rewrite S. reflexivity.
  - rewrite <- firstn_map.
    rewrite (ids_countdown upper generate_password_hash check_password_hash
               OWNER_SETUP_KEY logo_readable d R). reflexivity.
  - rewrite length_firstn, length_rev. reflexivity.
  - intros inv I. apply in_rev.
    rewrite <- (firstn_skipn 250 (rev (invoices d))).
    apply in_or_app. left. exact I.
Qed.

(** X10. Logout empties the session and leaves the store as it is; a
    request that carries the session it leaves is sent to the login page
    by every view behind [staff_required]. *)
Theorem logout_closes_the_session
  (r : route) (e e' : env) (req req' : request) (d : database) :
  meth req = GET -> protected r = true ->
  method_allowed r (meth req') = true ->
  sess req' = sess_out (handle Logout e req d) ->
  handle Logout e req d =
  {| resp := Redirect "login" None; sess_out := None; db_out := d |}
  /\ handle r e' req' d =
     {| resp := Redirect "login" None; sess_out := None; db_out := d |}.
Proof.
  intros M P A S. revert S. unfold Web.handle at 1 2. unfold get_only.
  rewrite M. unfold logout. simpl. intros S. split; [reflexivity|].
  destruct r; try discriminate P;
    unfold Web.handle, get_only, staff_required, answer;
    rewrite S; destruct (meth req'); try discriminate A; reflexivity.
Qed.

End Sessions.

(* ================================================================== *)
(** * Sessions, accounts and lookups on sample requests *)
(* ================================================================== *)
Import Cases.

Lemma visited_after_setup : visited after_setup.
Proof. eapply reach_step; [apply reach_here|apply step_request]. Qed.

Lemma visited_after_invoice : visited after_invoice.
Proof. eapply reach_step; [apply reach_here|apply step_request]. Qed.

Lemma sample_check_accepts (p : str) (rnd : entropy) :
  Samples.sample_check (Samples.sample_hash p rnd) p = true.
Proof. apply str_eqb_refl. Qed.

Lemma staff_views_need_a_staff_session_witness :
  (protected Dashboard = true /\ staff_session (get_as None) = false)
  /\ serve Dashboard Samples.sample_env (get_as None) init_db =
     {| resp := Redirect "login" None; sess_out := None; db_out := init_db |}.
Proof.
  split; [split; reflexivity|].
  exact (staff_views_need_a_staff_session Samples.upper_ascii
           Samples.sample_hash Samples.sample_check Samples.sample_key true
           Dashboard Samples.sample_env (get_as None) init_db
           eq_refl eq_refl).
Defined.

Lemma requests_that_cannot_write_witness :
  staff_session (Samples.invoice_post "Fee 10") = true
  /\ OwnerSetup <> NewInvoice
  /\ invoices (db_out (serve OwnerSetup Samples.sample_env
                         (Samples.invoice_post "Fee 10") init_db)) = [].
Proof.
  assert (N : OwnerSetup <> NewInvoice) by discriminate.
  split; [reflexivity|]. split; [exact N|].
  exact (proj1 (proj2 (proj2 (requests_that_cannot_write Samples.upper_ascii
           Samples.sample_hash Samples.sample_check Samples.sample_key true
           OwnerSetup Samples.sample_env (Samples.invoice_post "Fee 10")
           init_db))) N).
Defined.

Lemma only_account_is_the_first_owner_witness :
  visited after_setup
  /\ List.length (users after_setup) = 1%nat
  /\ (List.length (users after_setup) <= 1)%nat.
Proof.
  split; [exact visited_after_setup|]. split; [reflexivity|].
  exact (proj1 (only_account_is_the_first_owner Samples.upper_ascii
                  Samples.sample_hash Samples.sample_check
                  Samples.sample_key true after_setup visited_after_setup)).
Defined.

Lemma login_needs_matching_credentials_witness :
  (visited after_setup /\ meth (login_post " ana " "secret1") = POST)
  /\ resp (Web.login Samples.sample_check Samples.sample_env
             (login_post " ana " "secret1") after_setup)
     = Redirect "dashboard" None
  /\ resp (Web.login Samples.sample_check Samples.sample_env
             (login_post "ana" "secret2") after_setup)
     = Page "Login" InvalidLogin.
Proof.
  split; [split; [exact visited_after_setup|reflexivity]|].
  split.
  - destruct (login_needs_matching_credentials Samples.upper_ascii
                Samples.sample_hash Samples.sample_check Samples.sample_key
                true after_setup Samples.sample_env
                (login_post " ana " "secret1") visited_after_setup eq_refl)
      as [[user [_ [_ [_ [E _]]]]]|[_ E]]; [rewrite E; reflexivity|].
    vm_compute in E. discriminate E.
  - reflexivity.
Defined.

Lemma owner_can_log_in_after_setup_witness :
  resp (Web.owner_setup Samples.sample_hash Samples.sample_key
          Samples.sample_env (Samples.setup_post "ana" "secret1" "secret1")
          init_db) = Redirect "login" None
  /\ visited_from after_setup after_invoice_of_owner
  /\ exists s,
       Web.login Samples.sample_check Samples.sample_env
         (login_post " ana " "secret1") after_invoice_of_owner =
       {| resp := Redirect "dashboard" None; sess_out := Some s;
          db_out := after_invoice_of_owner |}
       /\ s_role s = owner.
Proof.
  assert (R : visited_from after_setup after_invoice_of_owner).
  { eapply reach_step; [apply reach_here|apply step_request]. }
  split; [reflexivity|]. split; [exact R|].
  destruct (owner_can_log_in_after_setup Samples.upper_ascii
              Samples.sample_hash Samples.sample_check Samples.sample_key
              true init_db Samples.sample_env
              (Samples.setup_post "ana" "secret1" "secret1")
              sample_check_accepts eq_refl after_invoice_of_owner R
              Samples.sample_env (login_post " ana " "secret1")
              eq_refl eq_refl eq_refl) as [s [E [_ [Ro _]]]].
  exists s. split; assumption.
Defined.

Lemma accounts_are_made_with_the_setup_key_witness :
  users after_setup <> users init_db
  /\ form_get (form (Samples.setup_post "ana" "secret1" "secret1"))
       "setup_key" [] = Samples.sample_key.
Proof.
  assert (H : users after_setup <> users init_db) by discriminate.
  split; [exact H|].
  exact (proj1 (proj2 (proj2 (proj2
           (accounts_are_made_with_the_setup_key Samples.upper_ascii
              Samples.sample_hash Samples.sample_check Samples.sample_key
              true OwnerSetup Samples.sample_env
              (Samples.setup_post "ana" "secret1" "secret1") init_db H))))).
Defined.



Lemma dashboard_lists_the_latest_250_witness :
  (visited after_invoice /\ is_staff_role owner = true)
  /\ exists rows,
       resp (serve Dashboard Samples.sample_env (get_as Samples.staff)
               after_invoice)
       = Page "Dashboard" (DashboardView (lit "ana") owner rows)
       /\ map id rows = [1].
Proof.
  split; [split; [exact visited_after_invoice|reflexivity]|].
  destruct (dashboard_lists_the_latest_250 Samples.upper_ascii
              Samples.sample_hash Samples.sample_check Samples.sample_key
              true after_invoice Samples.sample_env (get_as Samples.staff)
              _ visited_after_invoice eq_refl eq_refl eq_refl)
    as [rows [E [I _]]].
  exists rows. split; [exact (f_equal resp E)|exact I].
Defined.

Lemma logout_closes_the_session_witness :
  (protected (Created 1) = true
   /\ method_allowed (Created 1) (meth (get_as None)) = true)
  /\ serve (Created 1) Samples.sample_env (get_as None) after_invoice =
     {| resp := Redirect "login" None; sess_out := None;
        db_out := after_invoice |}.
Proof.
  split; [split; reflexivity|].
  exact (proj2 (logout_closes_the_session Samples.upper_ascii
                  Samples.sample_hash Samples.sample_check
                  Samples.sample_key true (Created 1) Samples.sample_env
                  Samples.sample_env (get_as Samples.staff) (get_as None)
                  after_invoice eq_refl eq_refl eq_refl eq_refl)).
Defined.

(* ================================================================== *)
(** * Facts about float arithmetic *)
(* ================================================================== *)
Module FloatFacts.
Import PyStr PyFloat Items Web.

Lemma shr_1_nonneg (mrs : shr_record) :
  0 <= shr_m mrs -> 0 <= shr_m (shr_1 mrs).
Proof. destruct mrs as [[|[p|p|]|[p|p|]] r s]; simpl; lia. Qed.

Lemma iter_pos_shr_1_nonneg (p : positive) : forall mrs,
  0 <= shr_m mrs -> 0 <= shr_m (iter_pos shr_1 p mrs).
Proof.
  induction p as [p IH|p IH|]; intros mrs H; simpl.
  - apply IH, IH, shr_1_nonneg, H.
  - apply IH, IH, H.
  - apply shr_1_nonneg, H.
Qed.

Lemma shr_fexp_nonneg (m e : Z) (l : location) :
  0 <= m -> 0 <= shr_m (fst (shr_fexp prec emax m e l)).
Proof.
  intros H. unfold shr_fexp, shr.
  assert (R : 0 <= shr_m (shr_record_of_loc m l))
    by (destruct l as [|[]]; exact H).
  destruct (fexp prec emax (Zdigits2 m + e) - e); simpl;
    [exact R|apply iter_pos_shr_1_nonneg, R|exact R].
Qed.

Lemma round_nearest_even_nonneg (m : Z) (l : location) :
  0 <= m -> 0 <= round_nearest_even m l.
Proof.
  intros H. destruct l as [|[]]; simpl; try lia.
  destruct (Z.even m); lia.
Qed.

(** Rounding a magnitude gives a number: zero, finite or infinite. *)
Lemma binary_round_aux_number (s : bool) (m e : Z) (l : location) :
  0 <= m -> is_nan (binary_round_aux prec emax s m e l) = false.
Proof.
  intros H. unfold binary_round_aux.
  pose proof (shr_fexp_nonneg m e l H) as H1.
  destruct (shr_fexp prec emax m e l) as [mrs' e'].
  simpl fst in H1.
  pose proof (shr_fexp_nonneg _ e' loc_Exact
                (round_nearest_even_nonneg _ (loc_of_shr_record mrs') H1))
    as H2.
  destruct (shr_fexp prec emax _ e' loc_Exact) as [mrs2 e2].
  simpl fst in H2.
  destruct (shr_m mrs2) as [|p|p]; [reflexivity| |lia].
  destruct (e2 <=? emax - prec); reflexivity.
Qed.

Lemma binary_normalize_number (m e : Z) (sz : bool) :
  is_nan (binary_normalize prec emax m e sz) = false.
Proof.
  unfold binary_normalize, binary_round.
  destruct m as [|p|p]; [reflexivity| |];
    destruct (shl_align _ _ _) as [mz ez];
    apply binary_round_aux_number; lia.
Qed.

(** A sum is NaN only when both terms are infinite, or one is NaN. *)
Lemma fadd_number (x y : float) :
  is_nan x = false -> is_nan y = false ->
  (is_finite x = true \/ is_finite y = true) ->
  is_nan (fadd x y) = false.
Proof.
  intros Nx Ny F. unfold fadd, SFadd.
  destruct x as [sx|sx| |sx mx ex]; try discriminate Nx;
    destruct y as [sy|sy| |sy my ey]; try discriminate Ny;
    try reflexivity.
  - destruct sx, sy; reflexivity.
  - destruct F as [F|F]; discriminate F.
  - apply binary_normalize_number.
Qed.

(** The product of 1.0 and a number is a number. *)
Lemma fmul_one_number (x : float) :
  is_nan x = false -> is_nan (fmul (of_int 1) x) = false.
Proof.
  intros N. change (of_int 1) with (S754_finite false 4503599627370496 (-52)).
  destruct x as [sx|sx| |sx mx ex]; try discriminate N; try reflexivity.
  unfold fmul, SFmul. apply binary_round_aux_number. lia.
Qed.

(** The float of a decimal text is a number. *)
Lemma of_decimal_number (neg : bool) (m : Z) (k : nat) :
  is_nan (of_decimal neg m k) = false.
Proof.
  unfold of_decimal. destruct m as [|p|p]; try reflexivity.
  unfold SFdiv, SFdiv_core_binary. cbv zeta.
  match goal with
  | |- context [Z.div_eucl ?a ?b] =>
      pose proof (Z_div_mod a b) as D;
      assert (A : 0 <= a); [|destruct (Z.div_eucl a b) as [q r]]
  end.
  - destruct (_ - _) as [|s|s]; [lia| |lia].
    apply Z.shiftl_nonneg. lia.
  - apply binary_round_aux_number.
    destruct D as [D1 D2]; [lia|]. nia.
Qed.

Lemma float_of_str_number (s : str) (x : float) :
  float_of_str s = Some x -> is_nan x = false.
Proof.
  unfold float_of_str.
  destruct (strip_by float_space s) as [|c t].
  - simpl. discriminate.
  - destruct (if is_char "-" c then _ else _) as [neg body].
    destruct (span is_digit body) as [ip rest].
    destruct rest as [|c' fr].
    + destruct (nonempty ip); [|discriminate].
      intros H. injection H as <-. apply of_decimal_number.
    + destruct (_ && _)%bool; [|discriminate].
      intros H. injection H as <-. apply of_decimal_number.
Qed.

Lemma price_of_number (last : str) : is_nan (price_of last) = false.
Proof.
  unfold price_of. destruct (float_of_str (cleaned last)) as [x|] eqn:E.
  - eapply float_of_str_number, E.
  - reflexivity.
Qed.

(** A sum of numbers, added from left to right, is NaN only when a term
    is infinite. *)
Lemma fold_fadd_number (ts : list float) : forall acc,
  is_nan acc = false ->
  Forall (fun t => is_finite t = true) ts ->
  is_nan (fold_left fadd ts acc) = false.
Proof.
  induction ts as [|t ts IH]; intros acc N F; [exact N|].
  inversion F as [|? ? Ft Fts]; subst. simpl. apply IH; [|exact Fts].
  apply fadd_number; [exact N| |right; exact Ft].
  destruct t; try reflexivity; discriminate Ft.
Qed.

End FloatFacts.

(* ================================================================== *)
(** * Further facts about the items parser *)
(* ================================================================== *)
Module ParserFacts.
Import PyStr Re PyFloat Items Spec Behaviour StrFacts ItemsFacts FloatFacts.

Lemma splitlines_from_cons cur c (t : str) :
  splitlines_from cur (c :: t) =
  if is_linebreak c then
    if N.eqb (ord c) 13 then
      match t with
      | c' :: t' =>
          if N.eqb (ord c') 10 then cur :: splitlines_from [] t'
          else cur :: splitlines_from [] t
      | [] => cur :: splitlines_from [] t
      end
    else cur :: splitlines_from [] t
  else splitlines_from (cur ++ [c]) t.
Proof. reflexivity. Qed.

Lemma filter_line cur (ls : list str) :
  filter nonblank (cur :: ls)
  = filter nonblank (match cur with [] => [] | _ => [cur] end)
    ++ filter nonblank ls.
Proof. destruct cur as [|c t]; [reflexivity|]. simpl. destruct (_ || _)%bool; reflexivity. Qed.

(** The lines of two texts joined by a line feed: those of the first,
    then those of the second, blank lines apart. *)
Lemma splitlines_from_joined (n : nat) : forall (a : str),
  (List.length a <= n)%nat -> forall cur b,
  filter nonblank (splitlines_from cur (a ++ newline :: b))
  = filter nonblank (splitlines_from cur a)
    ++ filter nonblank (splitlines b).
Proof.
  assert (Base : forall cur b,
            filter nonblank (splitlines_from cur ([] ++ newline :: b))
            = filter nonblank (splitlines_from cur [])
              ++ filter nonblank (splitlines b)).
  { intros cur b. simpl app. rewrite splitlines_from_cons.
    change (is_linebreak newline) with true.
    change (N.eqb (ord newline) 13) with false. cbv iota.
    apply filter_line. }
  induction n as [|n IH]; intros a L cur b.
  - destruct a; [apply Base|simpl in L; lia].
  - destruct a as [|c t]; [apply Base|].
    simpl in L. rewrite <- app_comm_cons, !splitlines_from_cons.
    destruct (is_linebreak c).
    + destruct (N.eqb (ord c) 13).
      * destruct t as [|c' t'].
        -- simpl app. cbv beta iota.
           change (N.eqb (ord newline) 10) with true. cbv iota.
           rewrite filter_line. f_equal. destruct cur; reflexivity.
        -- rewrite <- app_comm_cons. destruct (N.eqb (ord c') 10).
           ++ rewrite (filter_line cur), (filter_line cur (splitlines_from [] t')).
              rewrite <- app_assoc. f_equal. apply IH. simpl in L. lia.
           ++ rewrite (filter_line cur),
                (filter_line cur (splitlines_from [] (c' :: t'))).
              rewrite <- app_assoc. f_equal.
              rewrite app_comm_cons. apply IH. simpl in *. lia.
      * rewrite (filter_line cur), (filter_line cur (splitlines_from [] t)).
        rewrite <- app_assoc. f_equal. apply IH. lia.
    + apply IH. lia.
Qed.

Lemma nonblank_lines_joined (a b : str) :
  nonblank_lines (a ++ newline :: b) = nonblank_lines a ++ nonblank_lines b.
Proof.
  unfold nonblank_lines, splitlines.
  apply (splitlines_from_joined (List.length a)). apply Nat.le_refl.
Qed.

(** The item of a line that is not blank has a description. *)
Lemma parse_line_desc (line : str) :
  nonempty line = true -> nonempty (desc (parse_line line)) = true.
Proof.
  intros H. unfold parse_line.
  destruct (last_of _) as [last|]; simpl; [|exact H].
  destruct (nonempty (cut line last (rfind line last))) eqn:E; assumption.
Qed.

Lemma parse_line_price (line : str) :
  is_nan (unit_price (parse_line line)) = false.
Proof.
  unfold parse_line. destruct (last_of _) as [last|]; simpl;
    [apply price_of_number|reflexivity].
Qed.

Lemma parse_line_qty (line : str) : qty (parse_line line) = 1.
Proof. unfold parse_line. destruct (last_of _); reflexivity. Qed.

End ParserFacts.

(* ================================================================== *)
(** * Further properties of the items parser *)
(* ================================================================== *)
Import FloatFacts ParserFacts.

(** X11. The items [parse_items] returns: at least one, each with the
    quantity 1, a description that is not empty, and a unit price that
    is a number (zero, finite or infinite, never NaN), so that the
    amount of the line, quantity times unit price, is a number too. *)
Theorem parsed_items_are_well_formed (raw : str) (items : list item) :
  parse_items raw = inl items ->
  items <> []
  /\ Forall (fun it =>
               qty it = 1 /\ desc it <> []
               /\ is_nan (unit_price it) = false
               /\ is_nan (line_total it) = false) items.
Proof.
  rewrite parse_items_eq. unfold nonblank_lines.
  destruct (filter nonblank (splitlines raw)) as [|l ls] eqn:E;
    [discriminate|].
  intros H. injection H as <-. split; [discriminate|].
  assert (F : Forall (fun l => nonblank l = true) (l :: ls)).
  { rewrite <- E. apply Forall_forall. intros x I.
    apply filter_In in I. apply I. }
  change (item_of_line l :: map item_of_line ls)
    with (map item_of_line (l :: ls)).
  apply Forall_map. revert F. apply Forall_impl.
  intros x Hl. unfold item_of_line. rewrite <- strip_nonempty in Hl.
  split; [apply parse_line_qty|].
  split; [apply nonempty_true, parse_line_desc, Hl|].
  split; [apply parse_line_price|].
  unfold line_total. rewrite parse_line_qty.
  apply fmul_one_number, parse_line_price.
Qed.

(** X12. Parsing is local to the lines: the items of two texts joined
    by a line feed are the items of the first followed by the items of
    the second; a text without item lines adds nothing, and the error
    is raised only when neither has one. *)
Theorem parse_items_of_joined_texts (a b : str) :
  parse_items (a ++ newline :: b) =
  match parse_items a, parse_items b with
  | inl ia, inl ib => inl (ia ++ ib)
  | inl ia, inr _ => inl ia
  | inr _, inl ib => inl ib
  | inr _, inr _ => inr no_items
  end.
Proof.
  rewrite !parse_items_eq, nonblank_lines_joined.
  destruct (nonblank_lines a) as [|x xs], (nonblank_lines b) as [|y ys];
    try reflexivity.
  - rewrite app_nil_r. reflexivity.
  - rewrite <- map_app. reflexivity.
Qed.

Lemma parsed_items_are_well_formed_witness :
  exists items, parse_items (lit "Fee 10") = inl items /\ items <> [].
Proof.
  destruct (parse_items (lit "Fee 10")) as [items|err] eqn:E.
  - exists items. split; [reflexivity|].
    exact (proj1 (parsed_items_are_well_formed _ _ E)).
  - vm_compute in E. discriminate E.
Defined.


Section Refusals.
Variable upper : str -> str.
Variable generate_password_hash : str -> entropy -> str.
Variable check_password_hash : str -> str -> bool.
Variable OWNER_SETUP_KEY : str.
Variable logo_readable : bool.

Local Abbreviation handle :=
  (Web.handle upper generate_password_hash check_password_hash
     OWNER_SETUP_KEY logo_readable).


End Refusals.


(* ================================================================== *)
(** * Further facts about the rendering *)
(* ================================================================== *)
Module PageFacts.
Import PyStr PyFloat Items Model Pdf Spec Behaviour PdfFacts.

Lemma address_fold (ls : list str) : forall c y,
  pages (fst (fold_left address_step ls (c, y))) = pages c
  /\ snd (fold_left address_step ls (c, y))
     = y - 14 * Z.of_nat (List.length ls).
Proof.
  induction ls as [|l ls IH]; intros c y.
  - simpl. split; [reflexivity|lia].
  - cbn [fold_left]. unfold address_step at 2 4.
    destruct (IH (emit (DrawString 50 (y - 14) (firstn 110 l)) c) (y - 14))
      as [P Y].
    rewrite P, Y. split; [reflexivity|]. cbn [List.length]. lia.
Qed.

(** The header stays on the first page and leaves the cursor at
    [table_top]. *)
Lemma draw_header_end cur inv :
  pages (fst (draw_header cur inv)) = []
  /\ snd (draw_header cur inv) = table_top inv.
Proof.
  unfold draw_header, table_top, address_rows, page_h.
  destruct (nonempty (client_email inv));
    destruct (nonempty (client_address inv)); cbv zeta;
    try match goal with
        | |- context [fold_left address_step ?ls (?c, ?y)] =>
            destruct (address_fold ls c y) as [P Y];
            destruct (fold_left address_step ls (c, y)) as [c1 y1];
            cbn [fst snd emit pages new_canvas] in P, Y; subst y1
        end;
    cbn [fst snd emit pages new_canvas];
    (split; [assumption || reflexivity|lia]).
Qed.

(** The pages the items loop starts. *)
Lemma draw_items_page_count cur (items : list item) : forall c y total,
  Z.of_nat (List.length
              (pages (fst (fst (draw_items cur items (c, y, total))))))
  = Z.of_nat (List.length (pages c))
    + page_breaks y (Z.of_nat (List.length items)).
Proof.
  unfold draw_items.
  induction items as [|it items IH]; intros c y total.
  - simpl. unfold page_breaks.
    replace (0 <=? capacity y) with true; [lia|].
    symmetry. apply Z.leb_le. unfold capacity.
    destruct (y <? FOOTER_SPACE) eqn:E; [lia|].
    apply Z.ltb_ge in E. unfold FOOTER_SPACE in *.
    assert (0 <= (y - 160) / 14) by (apply Z.div_pos; lia). lia.
  - cbn [fold_left]. rewrite item_step_eq. cbv zeta.
    match goal with
    | |- context [fold_left _ items (?c1, ?y1, ?t1)] =>
        rewrite (IH c1 y1 t1)
    end.
    cbn [pages List.length]. rewrite Nat2Z.inj_succ.
    set (m := Z.of_nat (List.length items)).
    assert (Hm : 0 <= m) by apply Nat2Z.is_nonneg.
    destruct (y <? FOOTER_SPACE) eqn:E.
    + rewrite length_app. cbn [List.length].
      unfold page_breaks, rows_per_page.
      assert (C0 : capacity y = 0) by (unfold capacity; rewrite E; reflexivity).
      change (capacity (page_h - 60 - 14)) with 40. rewrite C0.
      replace (Z.succ m <=? 0) with false by (symmetry; apply Z.leb_gt; lia).
      destruct (m <=? 40) eqn:L.
      * apply Z.leb_le in L.
        replace (Z.succ m - 0 - 1) with m by lia.
        rewrite (Z.div_small m 41) by lia. lia.
      * apply Z.leb_gt in L.
        replace (Z.succ m - 0 - 1) with ((m - 40 - 1) + 1 * 41) by lia.
        rewrite Z.div_add by lia. lia.
    + apply Z.ltb_ge in E. unfold page_breaks.
      rewrite (capacity_step y E).
      destruct (m <=? capacity y - 1) eqn:L.
      * apply Z.leb_le in L.
        replace (Z.succ m <=? capacity y) with true
          by (symmetry; apply Z.leb_le; lia).
        lia.
      * apply Z.leb_gt in L.
        replace (Z.succ m <=? capacity y) with false
          by (symmetry; apply Z.leb_gt; lia).
        replace (Z.succ m - capacity y - 1) with (m - (capacity y - 1) - 1)
          by lia.
        lia.
Qed.

(** The document: the pages of the loop and the page of the total and
    the footer. *)
Lemma document_length upper logo inv items :
  List.length (invoice_pdf_bytes upper logo inv items) =
  S (List.length
       (pages (fst (fst (draw_items (upper (currency inv)) items
                           (fst (draw_header (upper (currency inv)) inv),
                            snd (draw_header (upper (currency inv)) inv),
                            zero)))))).
Proof.
  unfold invoice_pdf_bytes.
  destruct (draw_header (upper (currency inv)) inv) as [c0 y0].
  simpl fst. simpl snd.
  destruct (draw_items (upper (currency inv)) items (c0, y0, zero))
    as [[c y] total].
  unfold draw_total. rewrite draw_footer_eq.
  assert (F : exists o r, footer_ops logo = o :: r)
    by (destruct logo; eexists; eexists; reflexivity).
  destruct F as [o [r F]].
  rewrite (save_page _ (code c ++ [SetFont "Helvetica-Bold" 12;
             DrawRightString 560 (y - 8)
               (lit "TOTAL: " ++ money (upper (currency inv)) total)]) o r).
  - simpl. rewrite length_app. simpl. lia.
  - simpl. rewrite F, <- !app_assoc. reflexivity.
Qed.

End PageFacts.

(* ================================================================== *)
(** * The number of pages of the PDF *)
(* ================================================================== *)
Import PageFacts.

(** X14. The header of the PDF (title, invoice data, bill-to block with
    the e-mail and every line of the address, table head) is drawn on
    the first page without any page break, and leaves the cursor of the
    first item row at 606 points, lowered by 14 for the e-mail and for
    each address line. From there the items loop starts a page each time
    the rows do not fit above the footer zone: a document of n items has
    one page when n is at most the capacity under that cursor, and one
    more for every 41 further rows or part of it. *)
Theorem pdf_page_count
  (upper : str -> str) (logo_readable : bool)
  (inv : invoice) (items : list item) :
  let cur := upper (currency inv) in
  pages (fst (draw_header cur inv)) = []
  /\ snd (draw_header cur inv) = table_top inv
  /\ Z.of_nat (List.length (invoice_pdf_bytes upper logo_readable inv items))
     = 1 + page_breaks (table_top inv) (Z.of_nat (List.length items))
  /\ capacity (page_h - 60 - 14) + 1 = rows_per_page
  /\ (client_email inv = [] -> client_address inv = [] ->
      capacity (table_top inv) = 32).
Proof.
  intros cur. destruct (draw_header_end cur inv) as [P Y].
  split; [exact P|]. split; [exact Y|]. split; [|split; [reflexivity|]].
  - rewrite document_length. fold cur. rewrite Nat2Z.inj_succ.
    rewrite draw_items_page_count, P, Y. simpl List.length. lia.
  - intros E A. unfold table_top, address_rows. rewrite E, A. reflexivity.
Qed.

(* ================================================================== *)
(** * Facts about the schema *)
(* ================================================================== *)
Module SchemaFacts.
Import Schema.

Lemma run_eq cols migs t : run cols migs t = fold_left (turn cols) migs (Some t).
Proof. reflexivity. Qed.

Lemma turn_None cols migs : fold_left (turn cols) migs None = None.
Proof. induction migs as [|m migs IH]; [reflexivity|exact IH]. Qed.

Lemma listed_iff (name : string) (cols : list string) :
  existsb (String.eqb name) cols = true <-> In name cols.
Proof.
  rewrite existsb_exists. split.
  - intros [x [I E]]. apply String.eqb_eq in E. subst x. exact I.
  - intros I. exists name. split; [exact I|apply String.eqb_refl].
Qed.

(** A run that succeeds adds the missing columns, in order, after the
    columns the table had. *)
Lemma run_spec cols migs : forall t t',
  run cols migs t = Some t' -> t' = t ++ map col (missing cols migs).
Proof.
  induction migs as [|m migs IH]; intros t t' H.
  - injection H as <-. symmetry. apply app_nil_r.
  - rewrite run_eq in H. cbn [fold_left] in H. unfold turn at 2 in H.
    unfold add_col, missing in *. cbn [filter].
    destruct (existsb (String.eqb (fst m)) cols); cbn [negb].
    + apply IH, H.
    + unfold alter_add in H. destruct (existsb _ t).
      * rewrite turn_None in H. discriminate H.
      * apply IH in H. rewrite H, <- app_assoc. reflexivity.
Qed.

(** When every column is listed, nothing is run. *)
Lemma run_skip cols migs t :
  (forall m, In m migs -> In (fst m) cols) -> run cols migs t = Some t.
Proof.
  induction migs as [|m migs IH]; intros H; [reflexivity|].
  rewrite run_eq. cbn [fold_left]. unfold turn at 2, add_col.
  rewrite (proj2 (listed_iff (fst m) cols)) by (apply H; left; reflexivity).
  apply IH. intros x I. apply H. right. exact I.
Qed.

(** After a run that succeeds every column of the list is there. *)
Lemma run_complete migs t t' :
  migrate_table migs t = Some t' ->
  forall m, In m migs -> In (fst m) (map col_name t').
Proof.
  unfold migrate_table. intros H m I. apply run_spec in H. subst t'.
  rewrite map_app. apply in_or_app.
  destruct (existsb (String.eqb (fst m)) (map col_name t)) eqn:E.
  - left. apply listed_iff, E.
  - right. rewrite map_map. apply in_map_iff. exists m.
    split; [reflexivity|]. apply filter_In. split; [exact I|].
    rewrite E. reflexivity.
Qed.

Lemma migrate_table_again migs t t' :
  migrate_table migs t = Some t' -> migrate_table migs t' = Some t'.
Proof.
  intros H. apply run_skip. apply (run_complete migs t t' H).
Qed.

(** A column that differs from a missing one by the case of its letters
    stops the run. *)
Lemma run_clash cols (m : string * string) (c : column) migs : forall t,
  In c t -> same_name (col_name c) (fst m) = true ->
  In m migs -> ~ In (fst m) cols ->
  run cols migs t = None.
Proof.
  induction migs as [|m0 migs IH]; intros t Ic S Im N; [destruct Im|].
  rewrite run_eq. cbn [fold_left]. unfold turn at 2.
  assert (A : alter_add t m = None).
  { unfold alter_add.
    replace (existsb (fun c0 => same_name (col_name c0) (fst m)) t) with true;
      [reflexivity|].
    symmetry. apply existsb_exists. eauto. }
  destruct Im as [->|Im].
  - unfold add_col.
    destruct (existsb (String.eqb (fst m)) cols) eqn:E.
    + apply listed_iff in E. contradiction.
    + rewrite A. apply turn_None.
  - destruct (add_col cols t m0) as [t1|] eqn:E; [|apply turn_None].
    apply (IH t1); try assumption.
    unfold add_col in E. destruct (existsb (String.eqb (fst m0)) cols).
    + injection E as <-. exact Ic.
    + unfold alter_add in E. destruct (existsb _ t); [discriminate E|].
      injection E as <-. apply in_or_app. left. exact Ic.
Qed.

Lemma migrate_db_inv f f' :
  migrate_db f = Some f' ->
  exists ti tu ti' tu',
    invoices_table f = Some ti /\ users_table f = Some tu
    /\ migrate_table invoice_migrations ti = Some ti'
    /\ migrate_table user_migrations tu = Some tu'
    /\ f' = {| users_table := Some tu'; invoices_table := Some ti' |}.
Proof.
  unfold migrate_db. intros H.
  destruct (invoices_table f) as [ti|]; [|discriminate H].
  destruct (migrate_table invoice_migrations ti) as [ti'|] eqn:Mi;
    [|discriminate H].
  destruct (users_table f) as [tu|]; [|discriminate H].
  destruct (migrate_table user_migrations tu) as [tu'|] eqn:Mu;
    [|discriminate H].
  injection H as <-. exists ti, tu, ti', tu'. auto.
Qed.

Lemma migrate_db_again f f' : migrate_db f = Some f' -> migrate_db f' = Some f'.
Proof.
  intros H.
  destruct (migrate_db_inv f f' H) as [ti [tu [ti' [tu' [_ [_ [Mi [Mu ->]]]]]]]].
  unfold migrate_db. simpl.
  rewrite (migrate_table_again _ _ _ Mi), (migrate_table_again _ _ _ Mu).
  reflexivity.
Qed.

Lemma has_column_iff (t : table) (name : string) :
  existsb (fun c => String.eqb (col_name c) name) t = true
  <-> In name (map col_name t).
Proof.
  rewrite existsb_exists, in_map_iff. split.
  - intros [c [I E]]. apply String.eqb_eq in E. eauto.
  - intros [c [E I]]. exists c. split; [exact I|]. apply String.eqb_eq, E.
Qed.

End SchemaFacts.

(* ================================================================== *)
(** * Properties of the schema *)
(* ================================================================== *)
Import Schema SchemaFacts.

(** X15. A run of [migrate_db] that ends without exception found both
    tables, kept every column they had, in place and as declared, and
    put after them exactly the columns of its list whose names were not
    there, in the order of the list. Afterwards all those names are
    columns, and running [init_db] or [migrate_db] again changes
    nothing. *)
Theorem migrate_db_adds_the_missing_columns (f f' : file) :
  migrate_db f = Some f' ->
  exists ti tu,
    invoices_table f = Some ti /\ users_table f = Some tu
    /\ invoices_table f' =
       Some (ti ++ map col (missing (map col_name ti) invoice_migrations))
    /\ users_table f' =
       Some (tu ++ map col (missing (map col_name tu) user_migrations))
    /\ (forall m, In m invoice_migrations ->
          invoices_table_has_column f' (fst m) = true)
    /\ (forall m, In m user_migrations ->
          exists tu', users_table f' = Some tu'
                      /\ In (fst m) (map col_name tu'))
    /\ migrate_db f' = Some f'
    /\ init_db f' = f'.
Proof.
  intros H.
  destruct (migrate_db_inv f f' H) as [ti [tu [ti' [tu' [Ei [Eu [Mi [Mu E]]]]]]]].
  exists ti, tu. split; [exact Ei|]. split; [exact Eu|].
  pose proof (migrate_db_again f f' H) as Again. subst f'.
  cbn [invoices_table users_table].
  pose proof (run_spec _ _ _ _ Mi) as Si.
  pose proof (run_spec _ _ _ _ Mu) as Su.
  split; [rewrite Si; reflexivity|]. split; [rewrite Su; reflexivity|].
  split; [|split; [|split; [exact Again|reflexivity]]].
  - intros m I. unfold invoices_table_has_column.
    cbn [invoices_table]. apply has_column_iff.
    apply (run_complete _ _ _ Mi m I).
  - intros m I. exists tu'. split; [reflexivity|].
    apply (run_complete _ _ _ Mu m I).
Qed.

Lemma migrate_db_adds_the_missing_columns_witness :
  exists f',
    migrate_db old_file = Some f'
    /\ invoices_table_has_column f' "view_token" = true
    /\ migrate_db f' = Some f'.
Proof.
  destruct (migrate_db old_file) as [f'|] eqn:E.
  - exists f'. split; [reflexivity|].
    destruct (migrate_db_adds_the_missing_columns old_file f' E)
      as [ti [tu [_ [_ [_ [_ [Hi [_ [A _]]]]]]]]].
    split; [|exact A].
    apply (Hi ("view_token", "view_token TEXT")%string).
    unfold invoice_migrations. simpl. tauto.
  - vm_compute in E. discriminate E.
Defined.

(** X16. What the import of the module leaves, when [init_db] and
    [migrate_db] end without exception: the same file and the same
    [HAS_USER_ID_COL] come out of a second start; [HAS_USER_ID_COL] is
    true exactly when the invoices table was there before with a
    [user_id] column; a table that was not there is created with the
    columns of [init_db] and no column is added to it, so on a new file
    [HAS_USER_ID_COL] is false. *)
Theorem startup_is_stable (f f' : file) (b : bool) :
  startup f = Some (f', b) ->
  startup f' = Some (f', b)
  /\ b = invoices_table_has_column f "user_id"
  /\ (invoices_table f = None ->
      invoices_table f' = Some (map col invoices_columns) /\ b = false)
  /\ (users_table f = None ->
      users_table f' = Some (map col users_columns)).
Proof.
  unfold startup. intros H.
  destruct (migrate_db (init_db f)) as [f1|] eqn:M; [|discriminate H].
  injection H as <- <-.
  destruct (migrate_db_inv _ _ M) as [ti [tu [ti' [tu' [Ei [Eu [Mi [Mu E]]]]]]]].
  pose proof (migrate_db_again _ _ M) as Again.
  assert (I : init_db f1 = f1) by (subst f1; reflexivity).
  split; [rewrite I, Again; reflexivity|].
  pose proof (run_spec _ _ _ _ Mi) as Si.
  pose proof (run_spec _ _ _ _ Mu) as Su.
  assert (U : invoices_table_has_column f1 "user_id"
              = existsb (fun c => String.eqb (col_name c) "user_id") ti).
  { subst f1. unfold invoices_table_has_column. simpl. rewrite Si.
    rewrite existsb_app.
    assert (Z : forall l,
              existsb (fun c => String.eqb (col_name c) "user_id")
                (map col (missing l invoice_migrations)) = false).
    { intros l. destruct (existsb _ (map col _)) eqn:X; [|reflexivity].
      apply has_column_iff in X. rewrite map_map in X.
      apply in_map_iff in X as [m [Em Im]].
      apply filter_In in Im as [Im _]. exfalso.
      unfold invoice_migrations in Im. simpl in Im.
      repeat (destruct Im as [<-|Im]; [discriminate Em|]). exact Im. }
    rewrite Z. apply orb_false_r. }
  simpl in Ei, Eu. unfold create_if_not_exists in Ei, Eu.
  split; [|split].
  - rewrite U. unfold invoices_table_has_column.
    destruct (invoices_table f) as [t|].
    + injection Ei as ->. reflexivity.
    + injection Ei as <-. reflexivity.
  - intros N. rewrite N in Ei. injection Ei as <-.
    rewrite U. split; [|reflexivity].
    subst f1. simpl. rewrite <- Mi. reflexivity.
  - intros N. rewrite N in Eu. injection Eu as <-.
    subst f1. simpl. rewrite <- Mu. reflexivity.
Qed.

Lemma startup_is_stable_witness :
  startup new_file = Some (init_db new_file, false)
  /\ startup (init_db new_file) = Some (init_db new_file, false).
Proof.
  assert (H : startup new_file = Some (init_db new_file, false))
    by reflexivity.
  split; [exact H|].
  exact (proj1 (startup_is_stable new_file _ _ H)).
Defined.

(** X17. [migrate_db] does not go through on every existing database:
    when a table has a column whose name differs from a name of the list
    only by the case of its letters, the name is not found in the list
    of columns, [ALTER TABLE] is run and fails with a duplicate column
    name, and the import of the module ends with that exception. *)
Theorem migrate_db_fails_on_a_case_variant
  (f : file) (t : table) (c : column) (m : string * string) :
  (invoices_table f = Some t /\ In m invoice_migrations)
  \/ (users_table f = Some t /\ In m user_migrations) ->
  In c t -> same_name (col_name c) (fst m) = true ->
  ~ In (fst m) (map col_name t) ->
  migrate_db f = None /\ startup f = None.
Proof.
  intros H Ic S N.
  assert (M : forall g,
            (invoices_table g = Some t /\ In m invoice_migrations)
            \/ (users_table g = Some t /\ In m user_migrations) ->
            migrate_db g = None).
  { intros g [[E I]|[E I]]; unfold migrate_db.
    - rewrite E. unfold migrate_table.
      rewrite (run_clash _ m c _ t Ic S I N). reflexivity.
    - destruct (invoices_table g) as [ti|]; [|reflexivity].
      destruct (migrate_table invoice_migrations ti); [|reflexivity].
      rewrite E. unfold migrate_table.
      rewrite (run_clash _ m c _ t Ic S I N). reflexivity. }
  split; [apply M, H|].
  unfold startup. rewrite M; [reflexivity|].
  unfold init_db, create_if_not_exists. simpl.
  destruct H as [[E I]|[E I]]; rewrite E; auto.
Qed.

Lemma migrate_db_fails_on_a_case_variant_witness :
  same_name "Notes" "notes" = true
  /\ startup {| users_table := None; invoices_table := Some legacy_invoices |}
     = None.
Proof.
  split; [reflexivity|].
  refine (proj2 (migrate_db_fails_on_a_case_variant
                   {| users_table := None;
                      invoices_table := Some legacy_invoices |}
                   legacy_invoices (col ("Notes", "Notes TEXT")%string)
                   ("notes", "notes TEXT")%string _ _ eq_refl _)).
  - left. split; [reflexivity|]. unfold invoice_migrations. simpl. tauto.
  - unfold legacy_invoices. simpl. tauto.
  - unfold legacy_invoices. simpl.
    intros H. repeat (destruct H as [H|H]; [discriminate H|]). exact H.
Defined.

(* ================================================================== *)
(** * Facts about the value of a price *)
(* ================================================================== *)
Module PriceFacts.
Import PyStr Re PyFloat Items Spec StrFacts FormatFacts ItemsFacts.

(** The character classes of the pattern do not overlap with the
    characters [float] and the cleaning look for. *)
Lemma sign_class (c : ascii) :
  is_sign c = true ->
  is_char "$" c = false /\ is_char "," c = false /\ isspace c = false
  /\ float_space c = false
  /\ (is_char "-" c = false -> is_char "+" c = true).
Proof.
  destruct c as [[] [] [] [] [] [] [] []]; intros H;
    try discriminate H; repeat split; intros; try reflexivity; discriminate.
Qed.

Lemma space_class (c : ascii) :
  isspace c = true ->
  is_char "$" c = false /\ is_char "," c = false /\ is_digit c = false
  /\ is_char "." c = false.
Proof.
  destruct c as [[] [] [] [] [] [] [] []]; intros H;
    try discriminate H; repeat split.
Qed.

Lemma digit_class (c : ascii) :
  is_digit c = true ->
  is_char "$" c = false /\ is_char "," c = false /\ isspace c = false
  /\ float_space c = false /\ is_char "-" c = false /\ is_char "+" c = false.
Proof.
  destruct c as [[] [] [] [] [] [] [] []]; intros H;
    try discriminate H; repeat split.
Qed.

Lemma dot_class (c : ascii) :
  is_dot c = true ->
  is_char "$" c = false /\ is_char "," c = false /\ isspace c = false
  /\ float_space c = false /\ is_digit c = false /\ is_char "." c = true.
Proof.
  destruct c as [[] [] [] [] [] [] [] []]; intros H;
    try discriminate H; repeat split.
Qed.

Lemma comma_class (c : ascii) :
  digit_or_comma c = true -> is_char "$" c = false.
Proof.
  destruct c as [[] [] [] [] [] [] [] []]; intros H;
    try discriminate H; reflexivity.
Qed.

Lemma remove_char_app a (x y : str) :
  remove_char a (x ++ y) = remove_char a x ++ remove_char a y.
Proof. apply filter_app. Qed.

Lemma remove_char_none a (s : str) :
  (forall c, In c s -> is_char a c = false) -> remove_char a s = s.
Proof.
  induction s as [|c s IH]; intros H; [reflexivity|].
  unfold remove_char in *. simpl. rewrite (H c) by (left; reflexivity).
  simpl. f_equal. apply IH. intros x I. apply H. right. exact I.
Qed.

Lemma forallb_In (p : ascii -> bool) (s : str) c :
  forallb p s = true -> In c s -> p c = true.
Proof. intros H I. rewrite forallb_forall in H. apply H, I. Qed.

Lemma lstrip_by_app_all p (a b : str) :
  forallb p a = true -> lstrip_by p (a ++ b) = lstrip_by p b.
Proof.
  induction a as [|c a IH]; intros H; [reflexivity|].
  simpl in H. apply andb_prop in H as [Hc Ha]. simpl. rewrite Hc.
  apply IH, Ha.
Qed.

Lemma span_all p (a : str) : forallb p a = true -> span p a = (a, []).
Proof.
  induction a as [|c a IH]; intros H; [reflexivity|].
  simpl in H. apply andb_prop in H as [Hc Ha]. simpl.
  rewrite Hc, (IH Ha). reflexivity.
Qed.

Lemma span_stop p (a : str) c (b : str) :
  forallb p a = true -> p c = false -> span p (a ++ c :: b) = (a, c :: b).
Proof.
  induction a as [|x a IH]; intros H Hc.
  - simpl. rewrite Hc. reflexivity.
  - simpl in H. apply andb_prop in H as [Hx Ha]. simpl.
    rewrite Hx, (IH Ha Hc). reflexivity.
Qed.

(** [float] on digits with at most one point. *)
Lemma float_of_digits (neg : bool) (ip dot frac : str) :
  ip <> [] -> forallb is_digit ip = true ->
  at_most_one is_dot dot -> forallb is_digit frac = true ->
  (let '(i, rest) := span is_digit (ip ++ dot ++ frac) in
   match rest with
   | [] => if nonempty i then Some (of_decimal neg (digits_val i) 0)
           else None
   | c :: fr =>
       if (is_char "." c && forallb is_digit fr
           && (nonempty i || nonempty fr))%bool
       then Some (of_decimal neg (digits_val (i ++ fr)) (List.length fr))
       else None
   end)
  = Some (of_decimal neg (digits_val (ip ++ frac))
            (if nonempty dot then List.length frac else 0%nat)).
Proof.
  intros Ni Di [->|[o [-> Ho]]] Df.
  - simpl app. rewrite span_all by (rewrite forallb_app, Di, Df; reflexivity).
    destruct (ip ++ frac) eqn:E; [|reflexivity].
    destruct ip; [contradiction|discriminate E].
  - destruct (dot_class o Ho) as [_ [_ [_ [_ [Nd Od]]]]].
    simpl app. rewrite (span_stop _ _ _ _ Di Nd). rewrite Od, Df.
    destruct ip; [contradiction|reflexivity].
Qed.

Lemma remove_class a (p : ascii -> bool) (s : str) :
  (forall c, p c = true -> is_char a c = false) ->
  forallb p s = true -> remove_char a s = s.
Proof.
  intros H F. apply remove_char_none. intros c I.
  apply H. eapply forallb_In; eassumption.
Qed.

Lemma at_most_one_all p (s : str) : at_most_one p s -> forallb p s = true.
Proof. intros [->|[c [-> H]]]; simpl; [reflexivity|rewrite H; reflexivity]. Qed.

(** Text that ends with a character outside the class, and its last
    character. *)
Lemma ends_outside (p q : ascii -> bool) (s : str) :
  s <> [] -> (forall c, In c s -> p c = false /\ q c = false) ->
  exists u z, s = u ++ [z] /\ p z = false /\ q z = false.
Proof.
  intros N H. destruct (exists_last N) as [u [z E]].
  exists u, z. split; [exact E|]. apply H. rewrite E.
  apply in_or_app. right. left. reflexivity.
Qed.

End PriceFacts.

(* ================================================================== *)
(** * The value of a price *)
(* ================================================================== *)
Import PriceFacts.

(** X18. The unit price read from a numeric text (optional sign,
    optional dollar sign, optional whitespace, digits with commas,
    optional point and decimals), as every match of the pattern is.
    When a sign is followed by whitespace before the digits, as in
    "- 120", [float] rejects the cleaned text and the price is 0.0. In
    every other case the price is the float nearest to the decimal
    number written by the digits, commas dropped, negative exactly when
    the sign is a minus. *)
Theorem price_of_a_numeric_text
  (sign dollar ws : str) (d : ascii) (body dot frac : str) :
  at_most_one is_sign sign -> at_most_one is_dollar dollar ->
  forallb isspace ws = true -> is_digit d = true ->
  forallb digit_or_comma body = true ->
  at_most_one is_dot dot -> forallb is_digit frac = true ->
  price_of (sign ++ dollar ++ ws ++ d :: body ++ dot ++ frac) =
  if (nonempty sign && nonempty ws)%bool then zero
  else of_decimal (existsb (is_char "-") sign)
         (digits_val (remove_char "," (d :: body) ++ frac))
         (if nonempty dot then List.length frac else 0%nat).
Proof.
  intros Hs Hd Hw Dd Hb Ho Hf.
  set (ip := remove_char "," (d :: body)).
  assert (Eip : ip = d :: remove_char "," body).
  { unfold ip, remove_char. cbn [filter].
    rewrite (proj1 (proj2 (digit_class d Dd))). reflexivity. }
  assert (Dip : forallb is_digit ip = true).
  { rewrite Eip. simpl. rewrite Dd. simpl. apply forallb_forall.
    intros c I. apply filter_In in I as [I N].
    pose proof (forallb_In _ _ _ Hb I) as X. unfold digit_or_comma in X.
    destruct (is_digit c); [reflexivity|]. simpl in X.
    unfold is_comma in X. rewrite X in N. discriminate N. }
  assert (Nip : ip <> []) by (rewrite Eip; discriminate).
  set (core := ip ++ dot ++ frac).
  assert (C : remove_char "," (remove_char "$"
                (sign ++ dollar ++ ws ++ d :: body ++ dot ++ frac))
              = sign ++ ws ++ core).
  { change (d :: body ++ dot ++ frac) with ((d :: body) ++ dot ++ frac).
    rewrite !remove_char_app.
    rewrite (remove_class "$" is_sign sign), (remove_class "$" isspace ws),
      (remove_class "$" digit_or_comma (d :: body)),
      (remove_class "$" is_dot dot), (remove_class "$" is_digit frac);
      try assumption; try (apply at_most_one_all; assumption).
    - assert (Z : remove_char "$" dollar = []).
      { destruct Hd as [->|[c [-> Hc]]]; [reflexivity|].
        unfold remove_char. cbn [filter]. unfold is_dollar in Hc.
        rewrite Hc. reflexivity. }
      rewrite Z. change (remove_char "," []) with (@nil ascii). cbn [app].
      rewrite (remove_class "," is_sign sign), (remove_class "," isspace ws),
        (remove_class "," is_dot dot), (remove_class "," is_digit frac);
        try assumption; try (apply at_most_one_all; assumption).
      + reflexivity.
      + intros c H. apply digit_class in H. tauto.
      + intros c H. apply dot_class in H. tauto.
      + intros c H. apply space_class in H. tauto.
      + intros c H. apply sign_class in H. tauto.
    - intros c H. apply digit_class in H. tauto.
    - intros c H. apply dot_class in H. tauto.
    - apply comma_class.
    - simpl. rewrite Hb. unfold digit_or_comma. rewrite Dd. reflexivity.
    - intros c H. apply space_class in H. tauto.
    - intros c H. apply sign_class in H. tauto. }
  assert (Out : forall c, In c core -> isspace c = false /\ float_space c = false).
  { intros c I. unfold core in I.
    apply in_app_or in I as [I|I];
      [|apply in_app_or in I as [I|I]].
    - apply (forallb_In _ _ _ Dip) in I. apply digit_class in I. tauto.
    - apply (forallb_In _ _ _ (at_most_one_all _ _ Ho)) in I.
      apply dot_class in I. tauto.
    - apply (forallb_In _ _ _ Hf) in I. apply digit_class in I. tauto. }
  assert (Nc : core <> []).
  { unfold core. rewrite Eip. discriminate. }
  destruct (ends_outside isspace float_space core Nc Out)
    as [u [z [Ec [Sz Fz]]]].
  assert (Hd0 : core = d :: (remove_char "," body ++ dot ++ frac)).
  { unfold core. rewrite Eip. reflexivity. }
  destruct (digit_class d Dd) as [_ [_ [Sd [Fd [Md Pd]]]]].
  assert (Digits : forall neg,
            (let '(i, rest) := span is_digit core in
             match rest with
             | [] => if nonempty i then Some (of_decimal neg (digits_val i) 0)
                     else None
             | c :: fr =>
                 if (is_char "." c && forallb is_digit fr
                     && (nonempty i || nonempty fr))%bool
                 then Some (of_decimal neg (digits_val (i ++ fr))
                              (List.length fr))
                 else None
             end)
            = Some (of_decimal neg (digits_val (ip ++ frac))
                      (if nonempty dot then List.length frac else 0%nat))).
  { intros neg. apply float_of_digits; assumption. }
  unfold price_of, cleaned. rewrite C. clearbody core.
  destruct Hs as [->|[c [-> Hc]]].
  - (* no sign *)
    simpl app. cbn [nonempty andb existsb].
    assert (S1 : strip (ws ++ core) = core).
    { unfold strip, strip_by. rewrite (lstrip_by_app_all _ _ _ Hw).
      apply (strip_by_id isspace core u z Ec Sz).
      exists d. eexists. split; [exact Hd0|exact Sd]. }
    rewrite S1. unfold float_of_str.
    rewrite (strip_by_id float_space core u z Ec Fz)
      by (exists d; eexists; split; [exact Hd0|exact Fd]).
    revert Digits. rewrite Hd0. intros Digits. cbv iota.
    rewrite Md, Pd. rewrite (Digits false). reflexivity.
  - (* a sign *)
    destruct (sign_class c Hc) as [_ [_ [Sc [Fc Pc]]]].
    assert (E2 : [c] ++ ws ++ core = (c :: ws ++ u) ++ [z]).
    { rewrite Ec. simpl. rewrite <- app_assoc. reflexivity. }
    assert (S1 : strip ([c] ++ ws ++ core) = c :: ws ++ core).
    { apply (strip_by_id isspace _ _ z E2 Sz).
      exists c. eexists. split; [reflexivity|exact Sc]. }
    rewrite S1. unfold float_of_str.
    rewrite (strip_by_id float_space (c :: ws ++ core) _ z E2 Fz)
      by (exists c; eexists; split; [reflexivity|exact Fc]).
    cbn [nonempty andb existsb]. rewrite orb_false_r.
    destruct ws as [|w ws'].
    + simpl app. cbn [nonempty].
      destruct (is_char "-" c) eqn:M.
      * rewrite (Digits true). reflexivity.
      * rewrite (Pc eq_refl). rewrite (Digits false). reflexivity.
    + cbn [nonempty]. simpl in Hw. apply andb_prop in Hw as [Hw _].
      destruct (space_class w Hw) as [_ [_ [Dw Ow]]].
      assert (Sp : forall neg,
                (let '(i, rest) := span is_digit ((w :: ws') ++ core) in
                 match rest with
                 | [] => if nonempty i
                         then Some (of_decimal neg (digits_val i) 0)
                         else None
                 | c0 :: fr =>
                     if (is_char "." c0 && forallb is_digit fr
                         && (nonempty i || nonempty fr))%bool
                     then Some (of_decimal neg (digits_val (i ++ fr))
                                  (List.length fr))
                     else None
                 end) = None).
      { intros neg. cbn [app span]. rewrite Dw. cbv iota. rewrite Ow.
        reflexivity. }
      destruct (is_char "-" c) eqn:M.
      * rewrite (Sp true). reflexivity.
      * rewrite (Pc eq_refl). rewrite (Sp false). reflexivity.
Qed.

Lemma price_of_a_numeric_text_witness :
  price_of (lit "- 120") = zero
  /\ price_of (lit "-$1,250.5") = of_decimal true 12505 1
  /\ parse_items (lit "Shipping - 120")
     = inl [{| desc := lit "Shipping"; qty := 1; unit_price := zero |}].
Proof.
  split; [|split; [|vm_compute; reflexivity]].
  - exact (price_of_a_numeric_text (lit "-") [] (lit " ") "1" (lit "20") [] []
             (or_intror (ex_intro _ "-"%char (conj eq_refl eq_refl)))
             (or_introl eq_refl) eq_refl eq_refl eq_refl
             (or_introl eq_refl) eq_refl).
  - exact (price_of_a_numeric_text (lit "-") (lit "$") [] "1" (lit ",250")
             (lit ".") (lit "5")
             (or_intror (ex_intro _ "-"%char (conj eq_refl eq_refl)))
             (or_intror (ex_intro _ "$"%char (conj eq_refl eq_refl)))
             eq_refl eq_refl eq_refl
             (or_intror (ex_intro _ "."%char (conj eq_refl eq_refl)))
             eq_refl).
Defined.

(* ================================================================== *)
(** * The landing route *)
(* ================================================================== *)

Section Landing.
Variable upper : str -> str.
Variable generate_password_hash : str -> entropy -> str.
Variable check_password_hash : str -> str -> bool.
Variable OWNER_SETUP_KEY : str.
Variable logo_readable : bool.

Local Abbreviation handle :=
  (Web.handle upper generate_password_hash check_password_hash
     OWNER_SETUP_KEY logo_readable).
Local Abbreviation reachable :=
  (Web.reachable upper generate_password_hash check_password_hash
     OWNER_SETUP_KEY logo_readable).
Local Abbreviation login := (Web.login check_password_hash).

(** X19. The landing route sends a request without session to the login
    page, and a request that carries the session opened by a successful
    login to the dashboard: on a reachable store the user id kept in
    that session is 1, which the test of the route takes as logged in.
    Store and session are left as they are. *)
Theorem home_follows_the_session
  (d : database) (e e' : env) (req req' : request) :
  reachable d -> meth req' = GET ->
  (sess req' = None ->
   handle Home e' req' d =
   {| resp := Redirect "login" None; sess_out := None; db_out := d |})
  /\ (meth req = POST ->
      resp (login e req d) = Redirect "dashboard" None ->
      sess req' = sess_out (login e req d) ->
      handle Home e' req' d =
      {| resp := Redirect "dashboard" None;
         sess_out := sess req'; db_out := d |}).
Proof.
  intros R G. unfold Web.handle, get_only, home, answer. rewrite G. split.
  - intros ->. reflexivity.
  - intros M. unfold Web.login. rewrite M.
    destruct (find _ (users d)) as [user|] eqn:F; [|discriminate].
    destruct (check_password_hash _ _); [|discriminate].
    simpl. intros _ ->.
    apply find_some in F as [I _].
    destruct (accounts upper generate_password_hash check_password_hash
                OWNER_SETUP_KEY logo_readable d R) as [E|[u [E [_ Ui]]]];
      rewrite E in I; [destruct I|].
    destruct I as [<-|[]]. rewrite Ui. reflexivity.
Qed.

End Landing.

Lemma home_follows_the_session_witness :
  (visited after_setup /\ meth (get_as None) = GET)
  /\ serve Home Samples.sample_env (get_as None) after_setup =
     {| resp := Redirect "login" None; sess_out := None;
        db_out := after_setup |}.
Proof.
  split; [split; [exact visited_after_setup|reflexivity]|].
  exact (proj1 (home_follows_the_session Samples.upper_ascii
                  Samples.sample_hash Samples.sample_check
                  Samples.sample_key true after_setup Samples.sample_env
                  Samples.sample_env (get_as None) (get_as None)
                  visited_after_setup eq_refl) eq_refl).
Defined.

Lemma pdf_page_count_witness :
  (client_email Samples.sample_invoice = []
   /\ client_address Samples.sample_invoice = [])
  /\ capacity (table_top Samples.sample_invoice) = 32
  /\ Z.of_nat (List.length
                 (invoice_pdf_bytes Samples.upper_ascii true
                    Samples.sample_invoice (repeat Samples.sample_item 74)))
     = 3.
Proof.
  split; [split; reflexivity|].
  destruct (pdf_page_count Samples.upper_ascii true Samples.sample_invoice
              (repeat Samples.sample_item 74)) as [_ [_ [L [_ C]]]].
  split; [exact (C eq_refl eq_refl)|].
  rewrite L. reflexivity.
Defined.

(* ================================================================== *)
(** * Facts about stripping and validation *)
(* ================================================================== *)
Module ValidFacts.
Import PyStr Re PyFloat Items Model Pdf Web Spec Behaviour.
Import StrFacts FormatFacts ItemsFacts WebFacts FloatFacts ParserFacts.

Lemma lstrip_by_head p (s : str) :
  match lstrip_by p s with [] => True | a :: _ => p a = false end.
Proof.
  induction s as [|c s IH]; [exact I|].
  simpl. destruct (p c) eqn:E; [exact IH|exact E].
Qed.

Lemma rstrip_by_split p (s : str) :
  exists suf, s = rstrip_by p s ++ suf.
Proof.
  unfold rstrip_by. destruct (lstrip_by_split p (rev s)) as [pre [E _]].
  exists (rev pre). rewrite <- rev_app_distr, <- E. symmetry.
  apply rev_involutive.
Qed.

(** A stripped text is empty, or begins and ends outside the class. *)
Lemma strip_by_shape p (s : str) :
  strip_by p s = []
  \/ (exists a t, strip_by p s = a :: t /\ p a = false)
     /\ (exists u z, strip_by p s = u ++ [z] /\ p z = false).
Proof.
  unfold strip_by. set (l := lstrip_by p s).
  pose proof (lstrip_by_head p s) as H. fold l in H.
  destruct (rstrip_by_split p l) as [suf E].
  unfold rstrip_by in *.
  pose proof (lstrip_by_head p (rev l)) as K.
  destruct (lstrip_by p (rev l)) as [|z t]; [left; reflexivity|].
  right. simpl rev in *. split.
  - destruct (rev t) as [|a t']; simpl in *.
    + exists z, []. split; [reflexivity|exact K].
    + exists a, (t' ++ [z]). split; [reflexivity|].
      rewrite E in H. exact H.
  - exists (rev t), z. split; [reflexivity|exact K].
Qed.

(** Stripping twice is stripping once. *)
Lemma strip_idem (s : str) : strip (strip s) = strip s.
Proof.
  unfold strip. destruct (strip_by_shape isspace s) as [->|[[a [t [E Ha]]] [u [z [E' Hz]]]]].
  - reflexivity.
  - apply (strip_by_id isspace _ u z E' Hz). eauto.
Qed.

(** What holds of the item of each line holds of the parsed items. *)
Lemma parse_items_Forall (P : item -> Prop) raw items :
  (forall line, nonempty line = true -> P (parse_line line)) ->
  parse_items raw = inl items -> items <> [] /\ Forall P items.
Proof.
  intros H. rewrite parse_items_eq. unfold nonblank_lines.
  destruct (filter nonblank (splitlines raw)) as [|l ls] eqn:E;
    [discriminate|].
  intros Q. injection Q as <-. split; [discriminate|].
  change (item_of_line l :: map item_of_line ls)
    with (map item_of_line (l :: ls)).
  apply Forall_map. rewrite <- E. apply Forall_forall. intros x I.
  apply filter_In in I as [_ I]. rewrite <- strip_nonempty in I.
  apply H, I.
Qed.

Section Validation.
Variable upper : str -> str.
Variable generate_password_hash : str -> entropy -> str.
Variable check_password_hash : str -> str -> bool.
Variable OWNER_SETUP_KEY : str.
Variable logo_readable : bool.

Let handle := Web.handle upper generate_password_hash check_password_hash
                OWNER_SETUP_KEY logo_readable.

(** A row stored by the new-invoice view went through its checks. *)
Lemma new_invoice_valid s e req d :
  invoices (db_out (Web.new_invoice upper s e req d)) = invoices d
  \/ exists inv,
       invoices (db_out (Web.new_invoice upper s e req d))
       = invoices d ++ [inv]
       /\ valid_invoice inv.
Proof.
  unfold Web.new_invoice.
  destruct (meth req); [left; reflexivity|].
  cbv zeta.
  match goal with
  | |- context [if ?c then answer _ _ (Page _ MissingRequiredFields) else _] =>
      destruct c eqn:Req; [left; reflexivity|]
  end.
  destruct (parse_items _) as [items|[msg]] eqn:P; [|left; reflexivity].
  unfold insert_invoice.
  match goal with
  | |- context [if ?c then None else _] =>
      destruct c eqn:Ins; [left; reflexivity|]
  end.
  right. cbv zeta. unfold answer. cbn [db_out invoices].
  eexists. split; [reflexivity|].
  apply orb_false_iff in Req as [Req Rd].
  apply orb_false_iff in Req as [Req Ri].
  apply orb_false_iff in Req as [Rn Rc].
  apply negb_false_iff in Rn, Rc, Ri, Rd.
  apply orb_false_iff in Ins as [_ Nan]. cbn [total_amount] in Nan.
  destruct (parse_items_Forall
              (fun it => qty it = 1 /\ desc it <> []
                         /\ is_nan (unit_price it) = false) _ _
              (fun line H => conj (parse_line_qty line)
                               (conj (proj1 (nonempty_true _)
                                        (parse_line_desc line H))
                                     (parse_line_price line))) P)
    as [Ne Fa].
  unfold valid_invoice.
  cbn [invoice_number client_name client_email client_address issue_date
       due_date payment_methods notes items_json total_amount view_token].
  repeat split; try assumption.
  - repeat constructor; apply strip_idem.
  - apply (token_urlsafe_18 (random e)).
Qed.

Lemma handle_valid r e req d :
  invoices (db_out (handle r e req d)) = invoices d
  \/ exists inv,
       invoices (db_out (handle r e req d)) = invoices d ++ [inv]
       /\ valid_invoice inv.
Proof.
  assert (O : invoices (db_out (Web.owner_setup generate_password_hash
                                  OWNER_SETUP_KEY e req d)) = invoices d).
  { unfold Web.owner_setup.
    destruct (any_owner_exists d); [reflexivity|].
    destruct (meth req); [reflexivity|].
    destruct (negb _); [reflexivity|].
    destruct (_ || _)%bool; [reflexivity|].
    destruct (insert_user _ _ _ _) as [d'|] eqn:I; [|reflexivity].
    apply insert_user_inv in I as [u [_ [E _]]]. exact E. }
  destruct r; unfold handle, Web.handle, get_only, staff_required, home,
    login, logout, dashboard, created, invoice_pdf, public_view,
    public_pdf, health; try (left; exact O);
    repeat match goal with
           | |- context [match meth ?x with _ => _ end] => destruct (meth x)
           | |- context [match sess ?x with _ => _ end] => destruct (sess x)
           | |- context [match by_id ?a ?b with _ => _ end] =>
               destruct (by_id a b)
           | |- context [match by_token ?a ?b with _ => _ end] =>
               destruct (by_token a b)
           | |- context [match find ?a ?b with _ => _ end] => destruct (find a b)
           | |- context [if ?b then _ else _] => destruct b
           end; try (left; reflexivity); apply new_invoice_valid.
Qed.

End Validation.

End ValidFacts.

(* ================================================================== *)
(** * What the store holds *)
(* ================================================================== *)
Import ValidFacts.

Section Stored.
Variable upper : str -> str.
Variable generate_password_hash : str -> entropy -> str.
Variable check_password_hash : str -> str -> bool.
Variable OWNER_SETUP_KEY : str.
Variable logo_readable : bool.

Local Abbreviation handle :=
  (Web.handle upper generate_password_hash check_password_hash
     OWNER_SETUP_KEY logo_readable).
Local Abbreviation reachable_from :=
  (Web.reachable_from upper generate_password_hash check_password_hash
     OWNER_SETUP_KEY logo_readable).
Local Abbreviation reachable :=
  (Web.reachable upper generate_password_hash check_password_hash
     OWNER_SETUP_KEY logo_readable).

(** X20. Every invoice of a reachable store went through the checks of
    the form and of the parser: invoice number, client name, issue date
    and due date are not empty; no text field has whitespace around it;
    there is at least one item, each with quantity 1, a description and
    a unit price that is a number; the total is a number; the token has
    24 characters. And no request takes that away from a store that has
    it: the rows stay as they are. *)
Theorem stored_invoices_are_valid (d : database) :
  reachable d ->
  Forall valid_invoice (invoices d)
  /\ (forall d0 d1,
        Forall valid_invoice (invoices d0) -> reachable_from d0 d1 ->
        Forall valid_invoice (invoices d1)).
Proof.
  assert (G : forall d0 d1,
            Forall valid_invoice (invoices d0) -> reachable_from d0 d1 ->
            Forall valid_invoice (invoices d1)).
  { intros d0 d1 V R. induction R as [|d1 d2 R IH S]; [exact V|].
    destruct S as [r e req d1].
    destruct (handle_valid upper generate_password_hash check_password_hash
                OWNER_SETUP_KEY logo_readable r e req d1)
      as [E|[inv [E Vi]]]; rewrite E; [exact IH|].
    apply Forall_app. split; [exact IH|]. constructor; [exact Vi|constructor]. }
  intros R. split; [|exact G].
  apply (G Web.init_db d); [constructor|exact R].
Qed.

End Stored.

Lemma stored_invoices_are_valid_witness :
  visited after_invoice /\ Forall valid_invoice (invoices after_invoice).
Proof.
  split; [exact visited_after_invoice|].
  exact (proj1 (stored_invoices_are_valid Samples.upper_ascii
                  Samples.sample_hash Samples.sample_check
                  Samples.sample_key true after_invoice
                  visited_after_invoice)).
Defined.

(* ================================================================== *)
(** * Facts about blank texts *)
(* ================================================================== *)
Module BlankFacts.
Import PyStr Re PyFloat Items Model Spec Behaviour.
Import StrFacts ItemsFacts ParserFacts.

Lemma linebreak_space (c : ascii) : is_linebreak c = true -> isspace c = true.
Proof.
  destruct c as [[] [] [] [] [] [] [] []]; intros H;
    try discriminate H; reflexivity.
Qed.

Lemma nonblank_app (a b : str) :
  nonblank (a ++ b) = (nonblank a || nonblank b)%bool.
Proof. apply existsb_app. Qed.

(** A text has a line that is not blank exactly when it has a character
    that is not whitespace. *)
Lemma lines_nonblank (n : nat) : forall (s : str),
  (List.length s <= n)%nat -> forall cur,
  existsb nonblank (splitlines_from cur s)
  = (nonblank cur || nonblank s)%bool.
Proof.
  induction n as [|n IH]; intros s L cur.
  - destruct s; [|simpl in L; lia].
    destruct cur; simpl; rewrite ?orb_false_r; reflexivity.
  - destruct s as [|c t].
    { destruct cur; simpl; rewrite ?orb_false_r; reflexivity. }
    simpl in L. rewrite splitlines_from_cons.
    change (nonblank (c :: t))
      with (negb (isspace c) || nonblank t)%bool.
    destruct (is_linebreak c) eqn:B.
    + rewrite (linebreak_space c B). cbn [negb orb].
      destruct (N.eqb (ord c) 13).
      * destruct t as [|c' t'].
        -- simpl. reflexivity.
        -- destruct (N.eqb (ord c') 10) eqn:E.
           ++ cbn [existsb]. rewrite IH by (simpl in L; lia).
              change (nonblank (c' :: t'))
                with (negb (isspace c') || nonblank t')%bool.
              assert (Sc : isspace c' = true).
              { apply linebreak_space. unfold is_linebreak, between.
                apply N.eqb_eq in E. rewrite E. reflexivity. }
              rewrite Sc. reflexivity.
           ++ cbn [existsb]. rewrite IH by lia. reflexivity.
      * cbn [existsb]. rewrite IH by lia. reflexivity.
    + rewrite IH by lia. rewrite nonblank_app.
      change (nonblank [c]) with (negb (isspace c) || false)%bool.
      rewrite orb_false_r, orb_assoc. reflexivity.
Qed.

Lemma nonblank_lines_nil (s : str) :
  nonblank_lines s = [] <-> nonblank s = false.
Proof.
  unfold nonblank_lines, splitlines.
  assert (E : existsb nonblank (splitlines_from [] s) = nonblank s)
    by (rewrite (lines_nonblank (List.length s) s (Nat.le_refl _) []);
        reflexivity).
  rewrite <- E. clear E.
  generalize (splitlines_from [] s). intros ls. split.
  - intros H. destruct (existsb nonblank ls) eqn:E; [|reflexivity].
    apply existsb_exists in E as [x [I Hx]].
    assert (K : In x (filter nonblank ls)) by (apply filter_In; auto).
    rewrite H in K. destruct K.
  - intros H. destruct (filter nonblank ls) as [|x xs] eqn:E; [reflexivity|].
    assert (K : In x (filter nonblank ls)) by (rewrite E; left; reflexivity).
    apply filter_In in K as [I Hx].
    assert (existsb nonblank ls = true) by (apply existsb_exists; eauto).
    congruence.
Qed.

Lemma nonblank_forallb (s : str) :
  nonblank s = negb (forallb isspace s).
Proof.
  unfold nonblank. induction s as [|c s IH]; [reflexivity|].
  simpl. rewrite IH. destruct (isspace c); reflexivity.
Qed.

End BlankFacts.

(* ================================================================== *)
(** * Blank texts *)
(* ================================================================== *)
Import BlankFacts.

(** X21. [parse_items] raises its error exactly on the texts made of
    whitespace only (the empty text among them): a text with any other
    character has a line that is not blank, and gives at least one
    item. *)
Theorem parse_items_fails_exactly_on_blank_text (raw : str) :
  (forallb isspace raw = true -> parse_items raw = inr no_items)
  /\ (forallb isspace raw = false ->
      exists items, parse_items raw = inl items /\ items <> []).
Proof.
  rewrite parse_items_eq. split; intros H.
  - assert (E : nonblank_lines raw = []).
    { apply nonblank_lines_nil. rewrite nonblank_forallb, H. reflexivity. }
    rewrite E. reflexivity.
  - destruct (nonblank_lines raw) as [|l ls] eqn:E.
    + apply nonblank_lines_nil in E. rewrite nonblank_forallb, H in E.
      discriminate E.
    + eexists. split; [reflexivity|discriminate].
Qed.

Lemma parse_items_fails_exactly_on_blank_text_witness :
  forallb isspace (lit "  ") = true
  /\ parse_items (lit "  ") = inr no_items
  /\ forallb isspace (lit " x ") = false
  /\ exists items, parse_items (lit " x ") = inl items /\ items <> [].
Proof.
  split; [reflexivity|].
  split; [exact (proj1 (parse_items_fails_exactly_on_blank_text (lit "  "))
                   eq_refl)|].
  split; [reflexivity|].
  exact (proj2 (parse_items_fails_exactly_on_blank_text (lit " x ")) eq_refl).
Defined.

(** X22. The payment methods card of the public page is never empty:
    when the stored text has a character that is not whitespace, the
    card shows its lines that are not blank, at least one, joined by
    line breaks; otherwise it shows "No payment methods listed.". *)
Theorem payment_methods_card_is_never_empty (inv : invoice) :
  pm_html inv <> []
  /\ (forallb isspace (payment_methods inv) = true ->
      pm_html inv = lit "No payment methods listed.")
  /\ (forallb isspace (payment_methods inv) = false ->
      exists line lines,
        nonblank_lines (strip (payment_methods inv)) = line :: lines
        /\ pm_html inv = join (lit "<br>") (line :: lines)
        /\ line <> []).
Proof.
  assert (F : forall ls : list str,
            filter (fun line => nonempty (strip line)) ls
            = filter nonblank ls).
  { intros ls. apply filter_ext. intros l. apply strip_nonempty. }
  assert (Blank : forallb isspace (payment_methods inv) = true ->
                  pm_html inv = lit "No payment methods listed.").
  { intros H. unfold pm_html. cbv zeta.
    rewrite strip_nonempty, nonblank_forallb, H. reflexivity. }
  assert (Lines : forallb isspace (payment_methods inv) = false ->
                  exists line lines,
                    nonblank_lines (strip (payment_methods inv))
                    = line :: lines
                    /\ pm_html inv = join (lit "<br>") (line :: lines)
                    /\ line <> []).
  { intros H. unfold pm_html. cbv zeta.
    rewrite strip_nonempty, nonblank_forallb, H. cbn [negb]. rewrite F.
    fold (splitlines (strip (payment_methods inv))).
    fold (nonblank_lines (strip (payment_methods inv))).
    destruct (nonblank_lines (strip (payment_methods inv))) as [|l ls] eqn:E.
    - apply nonblank_lines_nil in E.
      rewrite <- strip_nonempty, strip_idem, strip_nonempty in E.
      rewrite nonblank_forallb, H in E. discriminate E.
    - exists l, ls. split; [reflexivity|]. split; [reflexivity|].
      assert (I : In l (nonblank_lines (strip (payment_methods inv))))
        by (rewrite E; left; reflexivity).
      unfold nonblank_lines in I. apply filter_In in I as [_ I].
      intros ->. discriminate I. }
  split; [|split; assumption].
  destruct (forallb isspace (payment_methods inv)) eqn:H.
  - rewrite (Blank eq_refl). discriminate.
  - destruct (Lines eq_refl) as [l [ls [_ [E N]]]]. rewrite E.
    destruct l; [contradiction|discriminate].
Qed.

Lemma payment_methods_card_is_never_empty_witness :
  forallb isspace (payment_methods Samples.sample_invoice) = true
  /\ pm_html Samples.sample_invoice = lit "No payment methods listed.".
Proof.
  split; [reflexivity|].
  exact (proj1 (proj2 (payment_methods_card_is_never_empty
                         Samples.sample_invoice)) eq_refl).
Defined.

(* ================================================================== *)
(** * Owner setup on a reachable store *)
(* ================================================================== *)

Section Setup.
Variable upper : str -> str.
Variable generate_password_hash : str -> entropy -> str.
Variable check_password_hash : str -> str -> bool.
Variable OWNER_SETUP_KEY : str.
Variable logo_readable : bool.

Local Abbreviation handle :=
  (Web.handle upper generate_password_hash check_password_hash
     OWNER_SETUP_KEY logo_readable).
Local Abbreviation reachable :=
  (Web.reachable upper generate_password_hash check_password_hash
     OWNER_SETUP_KEY logo_readable).


End Setup.


(* ================================================================== *)
(** * Facts about the rounding of a quotient *)
(* ================================================================== *)
Module RoundFacts.
Import PyStr PyFloat Items Web Spec FormatFacts.

Lemma digits2_bounds (p : positive) :
  2 ^ (Zpos (digits2_pos p) - 1) <= Zpos p < 2 ^ Zpos (digits2_pos p).
Proof.
  induction p as [p IH|p IH|]; cbn [digits2_pos].
  - rewrite Pos2Z.inj_succ, Pos2Z.inj_xI.
    replace (Z.succ (Zpos (digits2_pos p)) - 1)
      with (Z.succ (Zpos (digits2_pos p) - 1)) by lia.
    rewrite (Z.pow_succ_r 2 (Zpos (digits2_pos p) - 1)) by lia.
    rewrite (Z.pow_succ_r 2 (Zpos (digits2_pos p))) by lia.
    revert IH. generalize (2 ^ (Zpos (digits2_pos p) - 1)).
    generalize (2 ^ Zpos (digits2_pos p)). intros a b IH. lia.
  - rewrite Pos2Z.inj_succ. change (Zpos p~0) with (2 * Zpos p).
    replace (Z.succ (Zpos (digits2_pos p)) - 1)
      with (Z.succ (Zpos (digits2_pos p) - 1)) by lia.
    rewrite (Z.pow_succ_r 2 (Zpos (digits2_pos p) - 1)) by lia.
    rewrite (Z.pow_succ_r 2 (Zpos (digits2_pos p))) by lia.
    revert IH. generalize (2 ^ (Zpos (digits2_pos p) - 1)).
    generalize (2 ^ Zpos (digits2_pos p)). intros a b IH. lia.
  - simpl. lia.
Qed.

(** The number of binary digits, from its bounds. *)
Lemma digits2_unique (p : positive) (n : Z) :
  2 ^ (n - 1) <= Zpos p < 2 ^ n -> Zpos (digits2_pos p) = n.
Proof.
  intros [L U]. pose proof (digits2_bounds p) as [L' U'].
  set (d := Zpos (digits2_pos p)) in *.
  assert (Hd : 0 < d) by (unfold d; lia).
  destruct (Z.lt_trichotomy d n) as [C|[C|C]]; [|exact C|]; exfalso.
  - assert (2 ^ d <= 2 ^ (n - 1)) by (apply Z.pow_le_mono_r; lia). lia.
  - assert (0 <= n).
    { destruct (Z.le_gt_cases 0 n) as [K|K]; [exact K|].
      rewrite Z.pow_neg_r in U by exact K. lia. }
    assert (2 ^ n <= 2 ^ (d - 1)) by (apply Z.pow_le_mono_r; lia). lia.
Qed.

Lemma shr_m_of_loc (m : Z) (l : location) :
  shr_m (shr_record_of_loc m l) = m.
Proof. destruct l as [|[]]; reflexivity. Qed.

Lemma shr_1_half (p : positive) (r s : bool) :
  shr_m (shr_1 {| shr_m := Zpos p; shr_r := r; shr_s := s |})
  = Z.div2 (Zpos p).
Proof. destruct p; reflexivity. Qed.

Lemma round_nearest_even_cases (m : Z) (l : location) :
  round_nearest_even m l = m \/ round_nearest_even m l = m + 1.
Proof.
  destruct l as [|[]]; simpl; auto. destruct (Z.even m); auto.
Qed.

(** No shift for a number of 53 binary digits. *)
Lemma shr_fexp_53 (q e : Z) (l : location) :
  2 ^ 52 <= q < 2 ^ 53 -> -1074 <= e ->
  shr_fexp prec emax q e l = (shr_record_of_loc q l, e).
Proof.
  intros B E. destruct q as [|p|p]; try lia.
  unfold shr_fexp, Zdigits2. rewrite (digits2_unique p 53) by exact B.
  replace (fexp prec emax (53 + e) - e) with 0
    by (unfold fexp, emin, prec, emax; lia).
  reflexivity.
Qed.

(** A shift by one for a number of 54 binary digits. *)
Lemma shr_fexp_54 (q e : Z) (l : location) :
  2 ^ 53 <= q < 2 ^ 54 -> -1075 <= e ->
  shr_fexp prec emax q e l = (shr_1 (shr_record_of_loc q l), e + 1).
Proof.
  intros B E. destruct q as [|p|p]; try lia.
  unfold shr_fexp, Zdigits2. rewrite (digits2_unique p 54) by exact B.
  replace (fexp prec emax (54 + e) - e) with 1
    by (unfold fexp, emin, prec, emax; lia).
  reflexivity.
Qed.

(** Rounding a number of 53 digits, with the carry when it reaches
    2^53. *)
Lemma round_53 (sx : bool) (q1 e : Z) :
  2 ^ 52 <= q1 <= 2 ^ 53 -> -1074 <= e <= 900 ->
  exists mr er,
    (let '(mrs, e2) := shr_fexp prec emax q1 e loc_Exact in
     match shr_m mrs with
     | Z0 => S754_zero sx
     | Zpos m => if e2 <=? emax - prec then S754_finite sx m e2
                 else S754_infinity sx
     | Zneg _ => S754_nan
     end) = S754_finite sx mr er
    /\ 2 ^ 52 <= Zpos mr < 2 ^ 53
    /\ e <= er <= e + 1
    /\ Zpos mr * 2 ^ (er - e) = q1.
Proof.
  intros B E. destruct (Z.eq_dec q1 (2 ^ 53)) as [->|N].
  - rewrite shr_fexp_54 by (change (2 ^ 53) with 9007199254740992;
      change (2 ^ 54) with 18014398509481984; lia).
    exists 4503599627370496%positive, (e + 1). cbn [shr_record_of_loc].
    change (shr_m (shr_1 {| shr_m := 2 ^ 53; shr_r := false; shr_s := false |}))
      with (Zpos 4503599627370496).
    replace (e + 1 <=? emax - prec) with true
      by (symmetry; apply Z.leb_le; unfold emax, prec; lia).
    split; [reflexivity|]. split; [split; [apply Z.le_refl|reflexivity]|].
    split; [lia|]. replace (e + 1 - e) with 1 by lia. reflexivity.
  - rewrite shr_fexp_53 by lia. cbn [shr_record_of_loc shr_m].
    destruct q1 as [|p|p]; try lia.
    exists p, e.
    replace (e <=? emax - prec) with true
      by (symmetry; apply Z.leb_le; unfold emax, prec; lia).
    split; [reflexivity|]. split; [lia|]. split; [lia|].
    rewrite Z.sub_diag. apply Z.mul_1_r.
Qed.

(** Rounding a quotient of 53 or 54 digits: the result is normal and
    within one unit of its last place, plus the carry. *)
Lemma round_normal (sx : bool) (q e : Z) (l : location) :
  2 ^ 52 <= q < 2 ^ 54 -> -1000 <= e <= 800 ->
  exists mr er,
    binary_round_aux prec emax sx q e l = S754_finite sx mr er
    /\ 2 ^ 52 <= Zpos mr < 2 ^ 53
    /\ e <= er <= e + 2
    /\ Z.abs (Zpos mr * 2 ^ (er - e) - q) <= 2 ^ (er - e).
Proof.
  intros B E. unfold binary_round_aux.
  destruct (Z.lt_ge_cases q (2 ^ 53)) as [C|C].
  - rewrite shr_fexp_53 by lia. rewrite shr_m_of_loc.
    set (q1 := round_nearest_even q _).
    assert (Q : q1 = q \/ q1 = q + 1)
      by apply round_nearest_even_cases.
    destruct (round_53 sx q1 e) as [mr [er [R [Bm [Be V]]]]]; [lia|lia|].
    exists mr, er. split; [exact R|]. split; [exact Bm|]. split; [lia|].
    assert (T : er - e = 0 \/ er - e = 1) by lia.
    destruct T as [T|T]; rewrite T in *;
      change (2 ^ 0) with 1 in *; change (2 ^ 1) with 2 in *; lia.
  - rewrite shr_fexp_54 by lia.
    destruct q as [|p|p]; try lia.
    assert (H : shr_m (shr_1 (shr_record_of_loc (Zpos p) l))
                = Z.div2 (Zpos p)).
    { destruct l as [|[]]; apply shr_1_half. }
    rewrite H.
    pose proof (Z.div2_odd (Zpos p)) as D.
    assert (Bb : 0 <= Z.b2z (Z.odd (Zpos p)) <= 1)
      by (destruct (Z.odd (Zpos p)); simpl; lia).
    set (q' := Z.div2 (Zpos p)) in *.
    set (q1 := round_nearest_even q' _).
    assert (Q : q1 = q' \/ q1 = q' + 1)
      by apply round_nearest_even_cases.
    change (2 ^ 52) with 4503599627370496 in *.
    change (2 ^ 53) with 9007199254740992 in *.
    change (2 ^ 54) with 18014398509481984 in *.
    destruct (round_53 sx q1 (e + 1)) as [mr [er [R [Bm [Be V]]]]];
      [change (2 ^ 52) with 4503599627370496;
       change (2 ^ 53) with 9007199254740992; lia|lia|].
    exists mr, er. split; [exact R|].
    change (2 ^ 52) with 4503599627370496 in *.
    change (2 ^ 53) with 9007199254740992 in *.
    split; [exact Bm|]. split; [lia|].
    assert (T : er - e = 1 \/ er - e = 2) by lia.
    destruct T as [T|T]; rewrite T in *;
      [replace (er - (e + 1)) with 0 in V by lia
      |replace (er - (e + 1)) with 1 in V by lia];
      change (2 ^ 0) with 1 in *; change (2 ^ 1) with 2 in *;
      change (2 ^ 2) with 4 in *; lia.
Qed.

(** The quotient [SFdiv] rounds: 53 or 54 binary digits of it. *)
Lemma div_core (p dv : positive) :
  Zpos (digits2_pos p) <= Zpos (digits2_pos dv) + 53 ->
  Zpos (digits2_pos dv) <= 64 ->
  exists q r s,
    SFdiv_core_binary prec emax (Zpos p) 0 (Zpos dv) 0
    = (q, - s, new_location (Zpos dv) r)
    /\ s = 53 + Zpos (digits2_pos dv) - Zpos (digits2_pos p)
    /\ Zpos p * 2 ^ s = Zpos dv * q + r /\ 0 <= r < Zpos dv
    /\ 2 ^ 52 <= q < 2 ^ 54.
Proof.
  intros H1 H2.
  pose proof (digits2_bounds p) as [Lp Up].
  pose proof (digits2_bounds dv) as [Ld Ud].
  set (d1 := Zpos (digits2_pos p)) in *.
  set (d2 := Zpos (digits2_pos dv)) in *.
  assert (P1 : 0 < d1) by (unfold d1; lia).
  assert (P2 : 0 < d2) by (unfold d2; lia).
  set (s := 53 + d2 - d1).
  unfold SFdiv_core_binary, Zdigits2. fold d1. fold d2.
  assert (E' : Z.min (fexp prec emax (d1 + 0 - (d2 + 0))) (0 - 0) = - s).
  { unfold fexp, emin, prec, emax, s. lia. }
  rewrite E'. cbv zeta.
  replace (0 - 0 - - s) with s by lia.
  assert (M : match s with
              | 0 => Zpos p
              | Zpos _ => Z.shiftl (Zpos p) s
              | Zneg _ => 0
              end = Zpos p * 2 ^ s).
  { destruct s as [|ps|ps] eqn:Es; [lia| |lia].
    apply Z.shiftl_mul_pow2. lia. }
  rewrite M.
  pose proof (Z_div_mod (Zpos p * 2 ^ s) (Zpos dv) eq_refl) as D.
  destruct (Z.div_eucl (Zpos p * 2 ^ s) (Zpos dv)) as [q r].
  destruct D as [D R].
  exists q, r, s. split; [reflexivity|]. split; [reflexivity|].
  split; [exact D|]. split; [exact R|].
  assert (S0 : 0 <= s) by (unfold s; lia).
  assert (Lo : 2 ^ (52 + d2) <= Zpos p * 2 ^ s).
  { replace (52 + d2) with ((d1 - 1) + s) by (unfold s; lia).
    rewrite Z.pow_add_r by lia.
    apply Z.mul_le_mono_nonneg_r; [apply Z.pow_nonneg; lia|exact Lp]. }
  assert (Hi : Zpos p * 2 ^ s < 2 ^ (53 + d2)).
  { replace (53 + d2) with (d1 + s) by (unfold s; lia).
    rewrite Z.pow_add_r by lia.
    apply Z.mul_lt_mono_pos_r; [apply Z.pow_pos_nonneg; lia|exact Up]. }
  replace (52 + d2) with (52 + 1 + (d2 - 1)) in Lo by lia.
  replace (53 + d2) with (54 + (d2 - 1)) in Hi by lia.
  rewrite Z.pow_add_r in Lo by lia.
  rewrite Z.pow_add_r in Hi by lia.
  replace d2 with (d2 - 1 + 1) in Ud by lia.
  rewrite Z.pow_add_r in Ud by lia.
  change (2 ^ 1) with 2 in *. change (2 ^ (52 + 1)) with (2 * 2 ^ 52) in Lo.
  assert (Pw : 0 < 2 ^ (d2 - 1)) by (apply Z.pow_pos_nonneg; lia).
  revert Lo Hi Ld Ud Pw. generalize (2 ^ (d2 - 1)). intros w Lo Hi Ld Ud Pw.
  change (2 ^ 52) with 4503599627370496 in *.
  change (2 ^ 54) with 18014398509481984 in *.
  split; nia.
Qed.

(** The float of a decimal number in the normal range: 53 digits, and
    within two units of the last place of the quotient. *)
Lemma of_decimal_normal (neg : bool) (p dv : positive) :
  Zpos (digits2_pos p) <= Zpos (digits2_pos dv) + 42 ->
  Zpos (digits2_pos dv) <= 64 ->
  exists mr er,
    SFdiv prec emax (S754_finite neg p 0) (S754_finite false dv 0)
    = S754_finite neg mr er
    /\ 2 ^ 52 <= Zpos mr < 2 ^ 53
    /\ -200 <= er <= -9
    /\ Z.abs (Zpos mr * Zpos dv - Zpos p * 2 ^ (- er)) <= 2 * Zpos dv.
Proof.
  intros H1 H2.
  destruct (div_core p dv) as [q [r [s [C [Es [D [R Bq]]]]]]]; [lia|lia|].
  assert (P1 : 0 < Zpos (digits2_pos p)) by lia.
  assert (S9 : 11 <= s <= 117) by lia.
  unfold SFdiv. rewrite C. rewrite xorb_false_r.
  destruct (round_normal neg q (- s) (new_location (Zpos dv) r) Bq)
    as [mr [er [E [Bm [Be V]]]]]; [lia|].
  exists mr, er. split; [exact E|]. split; [exact Bm|]. split; [lia|].
  set (t := er - - s) in *.
  assert (T : 0 <= t <= 2) by (unfold t; lia).
  assert (Pd : 2 ^ s = 2 ^ (- er) * 2 ^ t).
  { rewrite <- Z.pow_add_r by (unfold t; lia). f_equal. unfold t. lia. }
  rewrite Pd in D.
  assert (PD : 0 < 2 ^ (- er)) by (apply Z.pow_pos_nonneg; lia).
  revert D PD. generalize (2 ^ (- er)). intros dd D PD.
  assert (T3 : t = 0 \/ t = 1 \/ t = 2) by lia.
  destruct T3 as [T3|[T3|T3]]; rewrite T3 in *;
    change (2 ^ 0) with 1 in *; change (2 ^ 1) with 2 in *;
    change (2 ^ 2) with 4 in *; nia.
Qed.

(** The hundredths of a float that close to a number of hundredths. *)
Lemma hundredths_exact (mr : positive) (er h dv : Z) :
  er <= -9 -> 0 < dv -> 0 <= h ->
  Z.abs (Zpos mr * 100 - h * 2 ^ (- er)) <= 200 ->
  hundredths mr er = h.
Proof.
  intros E Pdv Ph B.
  destruct (hundredths_nearest mr er) as [N0 [_ N]].
  specialize (N ltac:(lia)).
  assert (PD : 512 <= 2 ^ (- er)).
  { change 512 with (2 ^ 9). apply Z.pow_le_mono_r; lia. }
  revert B N PD. generalize (2 ^ (- er)). intros dd B N PD.
  set (x := hundredths mr er) in *.
  destruct (Z.lt_trichotomy x h) as [C|[C|C]]; [exfalso|exact C|exfalso]; nia.
Qed.

(** The product of 1.0 and a normal float is that float. *)
Lemma fmul_one_normal (s : bool) (mr : positive) (er : Z) :
  2 ^ 52 <= Zpos mr < 2 ^ 53 -> -1000 <= er <= 900 ->
  fmul (of_int 1) (S754_finite s mr er) = S754_finite s mr er.
Proof.
  intros B E. change (of_int 1) with (S754_finite false 4503599627370496 (-52)).
  unfold fmul, SFmul. cbn [xorb].
  unfold binary_round_aux, shr_fexp, Zdigits2.
  assert (Dm : digits2_pos mr = 53%positive).
  { pose proof (digits2_unique mr 53 B) as H. injection H as ->. reflexivity. }
  assert (Dg : digits2_pos (4503599627370496 * mr) = 105%positive).
  { cbn [Pos.mul digits2_pos]. rewrite Dm. reflexivity. }
  rewrite Dg. cbn [shr_record_of_loc].
  replace (fexp prec emax (105 + (-52 + er)) - (-52 + er)) with 52
    by (unfold fexp, emin, prec, emax; lia).
  assert (Sh : shr {| shr_m := Zpos (4503599627370496 * mr);
                      shr_r := false; shr_s := false |} (-52 + er) 52
               = ({| shr_m := Zpos mr; shr_r := false; shr_s := false |},
                  -52 + er + 52)).
  { reflexivity. }
  rewrite Sh. cbn [shr_m loc_of_shr_record round_nearest_even Zdigits2].
  rewrite Dm.
  replace (fexp prec emax (53 + (-52 + er + 52)) - (-52 + er + 52)) with 0
    by (unfold fexp, emin, prec, emax; lia).
  cbn [shr shr_record_of_loc shr_m].
  replace (-52 + er + 52) with er by lia.
  replace (er <=? emax - prec) with true
    by (symmetry; apply Z.leb_le; unfold emax, prec; lia).
  reflexivity.
Qed.

End RoundFacts.

(* ================================================================== *)
(** * From the typed amount to the printed amount *)
(* ================================================================== *)
Import RoundFacts.

(** X24. An amount typed with at most two decimals and at most twelve
    digits in all is printed back as typed: for the float [float] makes
    of the digits (m the number they write, k the number of decimals),
    the format [",.2f"] writes exactly m hundredths, tenths or units
    with two decimals, no rounding error showing; and the amount of the
    line, 1.0 times the price, is that same float. *)
Theorem typed_amounts_are_printed_back (neg : bool) (m : Z) (k : nat) :
  0 <= m < 10 ^ 12 -> (k <= 2)%nat ->
  let price := of_decimal neg m k in
  format_2f price = sign_str neg ++ fixed2 (m * 10 ^ (2 - Z.of_nat k))
  /\ (forall it : item,
        qty it = 1 -> unit_price it = price -> line_total it = price)
  /\ (forall cur,
        money cur price =
        strip ((if str_eqb cur (lit "USD") then lit "$" else [])
               ++ (sign_str neg ++ fixed2 (m * 10 ^ (2 - Z.of_nat k)))
               ++ lit " " ++ cur)).
Proof.
  intros B K price.
  assert (Main : format_2f price
                 = sign_str neg ++ fixed2 (m * 10 ^ (2 - Z.of_nat k))
                 /\ fmul (of_int 1) price = price).
  { unfold price, of_decimal. destruct m as [|p|p]; [|clear price|lia].
    { split; [reflexivity|destruct neg; reflexivity]. }
    set (dv := Z.to_pos (10 ^ Z.of_nat k)).
    assert (D1 : Zpos (digits2_pos p) <= 40).
    { pose proof (digits2_bounds p) as [L _].
      destruct (Z.le_gt_cases (Zpos (digits2_pos p)) 40) as [C|C]; [exact C|].
      assert (2 ^ 40 <= 2 ^ (Zpos (digits2_pos p) - 1))
        by (apply Z.pow_le_mono_r; lia).
      change (2 ^ 40) with 1099511627776 in *.
      change (10 ^ 12) with 1000000000000 in *. lia. }
    assert (Dv : dv = 1%positive /\ k = 0%nat
                 \/ dv = 10%positive /\ k = 1%nat
                 \/ dv = 100%positive /\ k = 2%nat).
    { unfold dv. destruct k as [|[|[|k]]]; [auto|auto|auto|lia]. }
    assert (D2 : 1 <= Zpos (digits2_pos dv) <= 7).
    { destruct Dv as [[-> _]|[[-> _]|[-> _]]]; simpl; lia. }
    destruct (of_decimal_normal neg p dv) as [mr [er [E [Bm [Be V]]]]];
      [lia|lia|].
    rewrite E. split.
    - cbn [format_2f]. f_equal. f_equal.
      apply (hundredths_exact mr er _ 1); [lia|lia| |].
      + destruct Dv as [[_ ->]|[[_ ->]|[_ ->]]]; simpl; lia.
      + assert (PD : 0 < 2 ^ (- er)) by (apply Z.pow_pos_nonneg; lia).
        revert V PD. generalize (2 ^ (- er)). intros dd V PD.
        destruct Dv as [[-> ->]|[[-> ->]|[-> ->]]];
          [change (10 ^ (2 - Z.of_nat 0)) with 100
          |change (10 ^ (2 - Z.of_nat 1)) with 10
          |change (10 ^ (2 - Z.of_nat 2)) with 1]; lia.
    - apply fmul_one_normal; [exact Bm|lia]. }
  destruct Main as [F M]. split; [exact F|]. split.
  - intros it Q U. unfold line_total. rewrite Q, U. exact M.
  - intros cur. unfold money. rewrite F. reflexivity.
Qed.

Lemma typed_amounts_are_printed_back_witness :
  (0 <= 999 < 10 ^ 12 /\ (2 <= 2)%nat)
  /\ format_2f (of_decimal false 999 2) = lit "9.99"
  /\ format_2f (of_decimal true 12505 1) = lit "-1,250.50"
  /\ (exists it,
        parse_items (lit "Handling 9.99") = inl [it]
        /\ unit_price it = of_decimal false 999 2
        /\ money (lit "USD") (line_total it) = lit "$9.99 USD").
Proof.
  assert (B : 0 <= 999 < 10 ^ 12) by (split; [lia|reflexivity]).
  assert (B' : 0 <= 12505 < 10 ^ 12) by (split; [lia|reflexivity]).
  split; [split; [exact B|apply Nat.le_refl]|].
  split; [exact (proj1 (typed_amounts_are_printed_back false 999 2 B
                          (Nat.le_refl 2)))|].
  split; [exact (proj1 (typed_amounts_are_printed_back true 12505 1 B'
                          (Nat.le_succ_diag_r 1)))|].
  eexists. split; [vm_compute; reflexivity|]. split; [vm_compute; reflexivity|].
  vm_compute. reflexivity.
Defined.

(* ================================================================== *)
(** * Facts about sums of floats *)
(* ================================================================== *)
Module TotalFacts.
Import PyStr PyFloat Items Web Spec Behaviour FormatFacts FloatFacts RoundFacts.

Lemma shr_1_div (mrs : shr_record) :
  0 <= shr_m mrs -> shr_m (shr_1 mrs) = shr_m mrs / 2.
Proof.
  destruct mrs as [[|p|p] r s]; intros H; try (simpl in H; lia).
  - reflexivity.
  - rewrite shr_1_half. cbn [shr_m]. apply Z.div2_div.
Qed.

(** Shifting right drops the low digits. *)
Lemma iter_pos_shr_1_div (p : positive) : forall mrs,
  0 <= shr_m mrs ->
  shr_m (iter_pos shr_1 p mrs) = shr_m mrs / 2 ^ Zpos p.
Proof.
  induction p as [p IH|p IH|]; intros mrs H; cbn [iter_pos];
    try assert (P2 : 0 < 2 ^ Zpos p) by (apply Z.pow_pos_nonneg; lia).
  - rewrite IH by (apply iter_pos_shr_1_nonneg, shr_1_nonneg, H).
    rewrite IH by (apply shr_1_nonneg, H).
    rewrite shr_1_div by exact H.
    rewrite !Z.div_div by lia.
    f_equal. rewrite Pos2Z.inj_xI.
    replace (2 * Zpos p + 1) with (1 + Zpos p + Zpos p) by lia.
    rewrite !Z.pow_add_r by lia. change (2 ^ 1) with 2.
    generalize (2 ^ Zpos p). intros a. lia.
  - rewrite IH by (apply iter_pos_shr_1_nonneg, H).
    rewrite IH by exact H.
    rewrite Z.div_div by lia.
    f_equal. change (Zpos p~0) with (2 * Zpos p).
    replace (2 * Zpos p) with (Zpos p + Zpos p) by lia.
    rewrite Z.pow_add_r by lia. reflexivity.
  - apply shr_1_div, H.
Qed.

(** Rounding a number of 53 binary digits or more. *)
Lemma round_any (M : positive) (e : Z) :
  53 <= Zpos (digits2_pos M) -> - scale <= e ->
  e + Zpos (digits2_pos M) <= 400 ->
  exists mr er,
    binary_round_aux prec emax false (Zpos M) e loc_Exact
    = S754_finite false mr er
    /\ 2 ^ 52 <= Zpos mr < 2 ^ 53
    /\ e + Zpos (digits2_pos M) - 53 <= er <= e + Zpos (digits2_pos M) - 52
    /\ Z.abs (Zpos mr * 2 ^ (er - e) - Zpos M) <= 2 ^ (er - e).
Proof.
  intros D E U. unfold scale in E.
  pose proof (digits2_bounds M) as [Lo Hi].
  set (d := Zpos (digits2_pos M)) in *.
  set (n := d - 53).
  assert (Pn : 0 < 2 ^ n) by (apply Z.pow_pos_nonneg; unfold n; lia).
  assert (Sp : 2 ^ (d - 1) = 2 ^ 52 * 2 ^ n /\ 2 ^ d = 2 ^ 53 * 2 ^ n).
  { split; rewrite <- Z.pow_add_r by (unfold n; lia); f_equal; unfold n; lia. }
  destruct Sp as [S1 S2]. rewrite S1 in Lo. rewrite S2 in Hi.
  set (q' := Zpos M / 2 ^ n).
  assert (Bq : 2 ^ 52 <= q' < 2 ^ 53).
  { unfold q'. split.
    - apply Z.div_le_lower_bound; lia.
    - apply Z.div_lt_upper_bound; lia. }
  pose proof (Z.div_mod (Zpos M) (2 ^ n) ltac:(lia)) as Dm.
  pose proof (Z.mod_pos_bound (Zpos M) (2 ^ n) Pn) as Bm.
  fold q' in Dm.
  assert (Sh : exists mrs,
            shr_fexp prec emax (Zpos M) e loc_Exact = (mrs, e + n)
            /\ shr_m mrs = q').
  { unfold shr_fexp, Zdigits2. fold d.
    replace (fexp prec emax (d + e) - e) with n
      by (unfold fexp, emin, prec, emax, n; lia).
    unfold shr. destruct n as [|pn|pn] eqn:En.
    - eexists. split; [rewrite Z.add_0_r; reflexivity|].
      cbn [shr_record_of_loc shr_m]. unfold q'.
      change (2 ^ 0) with 1. symmetry. apply Z.div_1_r.
    - eexists. split; [reflexivity|].
      rewrite iter_pos_shr_1_div by (cbn; lia). reflexivity.
    - lia. }
  destruct Sh as [mrs [Sh Qm]].
  unfold binary_round_aux. rewrite Sh, Qm.
  set (q1 := round_nearest_even q' _).
  assert (Q : q1 = q' \/ q1 = q' + 1) by apply round_nearest_even_cases.
  destruct (round_53 false q1 (e + n)) as [mr [er [R [Bmr [Be V]]]]];
    [lia|unfold n; lia|].
  exists mr, er. split; [exact R|]. split; [exact Bmr|].
  split; [unfold n in Be; lia|].
  assert (T : er - (e + n) = 0 \/ er - (e + n) = 1) by lia.
  replace (er - e) with (er - (e + n) + n) by lia.
  destruct T as [T|T]; rewrite T in *.
  - change (2 ^ 0) with 1 in V. rewrite Z.add_0_l. nia.
  - change (2 ^ 1) with 2 in V.
    replace (1 + n) with (n + 1) by lia.
    rewrite Z.pow_add_r by (unfold n; lia). change (2 ^ 1) with 2. nia.
Qed.

Lemma shl_pos (m d : positive) :
  Zpos (Pos.iter xO m d) = Zpos m * 2 ^ Zpos d.
Proof.
  induction d as [|d IH] using Pos.peano_ind.
  - simpl. lia.
  - rewrite Pos.iter_succ, Pos2Z.inj_succ, Z.pow_succ_r by lia.
    change (Zpos (Pos.iter xO m d)~0) with (2 * Zpos (Pos.iter xO m d)).
    rewrite IH. lia.
Qed.

Lemma shl_align_val (m : positive) (e ez : Z) :
  ez <= e -> Zpos (fst (shl_align m e ez)) = Zpos m * 2 ^ (e - ez).
Proof.
  intros H. unfold shl_align.
  destruct (ez - e) as [|d|d] eqn:E; try lia.
  - replace (e - ez) with 0 by lia. simpl. lia.
  - cbn [fst]. rewrite shl_pos. f_equal. f_equal. lia.
Qed.

(** The sum of two normal floats: normal, within a unit of its last
    place of the exact sum, with an exponent not under theirs. *)
Lemma fadd_normal (B : Z) (a b : float) :
  normal B a -> normal B b -> B <= 100 ->
  normal (B + 2) (fadd a b)
  /\ Z.abs (val (fadd a b) - (val a + val b)) <= 2 ^ (expo (fadd a b) + scale)
  /\ expo a <= expo (fadd a b) /\ expo b <= expo (fadd a b).
Proof.
  intros [->|[ma [ea [-> [Ba Ea]]]]] [->|[mb [eb [-> [Bb Eb]]]]] HB;
    unfold scale in *.
  - split; [left; reflexivity|]. simpl. lia.
  - change (fadd (S754_zero false) (S754_finite false mb eb))
      with (S754_finite false mb eb).
    split; [right; exists mb, eb; repeat split; unfold scale; lia|].
    cbn [val expo]. unfold scale.
    assert (0 < 2 ^ (eb + 200)) by (apply Z.pow_pos_nonneg; lia).
    split; [|lia]. rewrite Z.add_0_l, Z.sub_diag. simpl. lia.
  - change (fadd (S754_finite false ma ea) (S754_zero false))
      with (S754_finite false ma ea).
    split; [right; exists ma, ea; repeat split; unfold scale; lia|].
    cbn [val expo]. unfold scale.
    assert (0 < 2 ^ (ea + 200)) by (apply Z.pow_pos_nonneg; lia).
    split; [|lia]. rewrite Z.add_0_r, Z.sub_diag. simpl. lia.
  - set (ez := Z.min ea eb).
    assert (Za : ez <= ea) by (unfold ez; lia).
    assert (Zb : ez <= eb) by (unfold ez; lia).
    pose proof (shl_align_val ma ea ez Za) as Va.
    pose proof (shl_align_val mb eb ez Zb) as Vb.
    unfold fadd, SFadd. fold ez. cbn [cond_Zopp].
    set (A := fst (shl_align ma ea ez)) in *.
    set (C := fst (shl_align mb eb ez)) in *.
    change (Zpos A + Zpos C) with (Zpos (A + C)).
    cbn [binary_normalize]. unfold binary_round.
    set (M := (A + C)%positive).
    assert (EM : Zpos M = Zpos ma * 2 ^ (ea - ez) + Zpos mb * 2 ^ (eb - ez)).
    { unfold M. rewrite Pos2Z.inj_add, Va, Vb. reflexivity. }
    pose proof (digits2_bounds M) as [Lo Hi].
    set (d := Zpos (digits2_pos M)) in *.
    assert (Pa : 1 <= 2 ^ (ea - ez))
      by (pose proof (Z.pow_pos_nonneg 2 (ea - ez)); lia).
    assert (Pb : 1 <= 2 ^ (eb - ez))
      by (pose proof (Z.pow_pos_nonneg 2 (eb - ez)); lia).
    set (em := Z.max ea eb).
    assert (Da : 52 + (ea - ez) < d).
    { apply (Z.pow_lt_mono_r_iff 2); [lia|unfold d; lia|].
      rewrite Z.pow_add_r by lia.
      assert (2 ^ 52 * 2 ^ (ea - ez) <= Zpos ma * 2 ^ (ea - ez))
        by (apply Z.mul_le_mono_nonneg_r; lia).
      nia. }
    assert (Db : 52 + (eb - ez) < d).
    { apply (Z.pow_lt_mono_r_iff 2); [lia|unfold d; lia|].
      rewrite Z.pow_add_r by lia.
      assert (2 ^ 52 * 2 ^ (eb - ez) <= Zpos mb * 2 ^ (eb - ez))
        by (apply Z.mul_le_mono_nonneg_r; lia).
      nia. }
    assert (Du : d - 1 < 54 + (em - ez)).
    { apply (Z.pow_lt_mono_r_iff 2); [lia|unfold em, ez; lia|].
      eapply Z.le_lt_trans; [exact Lo|]. rewrite EM.
      assert (X1 : 2 ^ (ea - ez) <= 2 ^ (em - ez))
        by (apply Z.pow_le_mono_r; unfold em; lia).
      assert (X2 : 2 ^ (eb - ez) <= 2 ^ (em - ez))
        by (apply Z.pow_le_mono_r; unfold em; lia).
      rewrite Z.pow_add_r by (unfold em, ez; lia).
      change (2 ^ 54) with (2 * 2 ^ 53).
      assert (0 < 2 ^ (em - ez))
        by (apply Z.pow_pos_nonneg; lia).
      nia. }
    assert (Al : shl_align M ez (fexp prec emax (d + ez)) = (M, ez)).
    { unfold shl_align.
      replace (fexp prec emax (d + ez) - ez) with (d - 53)
        by (unfold fexp, emin, prec, emax; lia).
      destruct (d - 53) eqn:E; try reflexivity. lia. }
    rewrite Al.
    destruct (round_any M ez) as [mr [er [R [Bm [Be V]]]]];
      [fold d; lia|unfold scale, ez; lia|fold d; unfold em, ez in *; lia|].
    fold d in Be. rewrite R. cbn [val expo]. unfold scale.
    split; [right; exists mr, er; repeat split; unfold scale, em, ez in *; lia|].
    split; [|lia].
    assert (K : forall m e, ez <= e ->
              Zpos m * 2 ^ (e + 200)
              = Zpos m * 2 ^ (e - ez) * 2 ^ (ez + 200)).
    { intros m e He. rewrite <- Z.mul_assoc, <- Z.pow_add_r by (unfold ez; lia).
      f_equal. f_equal. lia. }
    rewrite (K ma ea Za), (K mb eb Zb), (K mr er) by lia.
    assert (Ku : 2 ^ (er + 200) = 2 ^ (er - ez) * 2 ^ (ez + 200)).
    { rewrite <- Z.pow_add_r by (unfold ez; lia). f_equal. lia. }
    rewrite Ku.
    assert (Pz : 0 < 2 ^ (ez + 200))
      by (apply Z.pow_pos_nonneg; unfold ez; lia).
    revert EM V Pz. generalize (2 ^ (ez + 200)) (2 ^ (er - ez))
      (2 ^ (ea - ez)) (2 ^ (eb - ez)). intros w u x y EM V Pz.
    rewrite <- Z.mul_add_distr_r, <- EM, <- Z.mul_sub_distr_r.
    rewrite Z.abs_mul, (Z.abs_eq w) by lia.
    apply Z.mul_le_mono_nonneg_r; [lia|exact V].
Qed.

(** The price of a typed amount: normal, and within 200 units of its
    last place of the hundredths typed, once multiplied by 100. *)
Lemma price_normal (t : Z * nat) :
  0 <= fst t < 10 ^ 12 -> (snd t <= 2)%nat ->
  normal (-9) (typed_price t)
  /\ 0 <= typed_hundredths t
  /\ Z.abs (100 * val (typed_price t) - typed_hundredths t * 2 ^ scale)
     <= 200 * 2 ^ (expo (typed_price t) + scale).
Proof.
  destruct t as [m k]. unfold typed_price, typed_hundredths. cbn [fst snd].
  intros B K. unfold of_decimal. destruct m as [|p|p]; [| |lia].
  { split; [left; reflexivity|]. simpl. lia. }
  set (dv := Z.to_pos (10 ^ Z.of_nat k)).
  assert (D1 : Zpos (digits2_pos p) <= 40).
  { pose proof (digits2_bounds p) as [L _].
    destruct (Z.le_gt_cases (Zpos (digits2_pos p)) 40) as [C|C]; [exact C|].
    assert (2 ^ 40 <= 2 ^ (Zpos (digits2_pos p) - 1))
      by (apply Z.pow_le_mono_r; lia).
    change (2 ^ 40) with 1099511627776 in *.
    change (10 ^ 12) with 1000000000000 in *. lia. }
  assert (Dv : dv = 1%positive /\ k = 0%nat
               \/ dv = 10%positive /\ k = 1%nat
               \/ dv = 100%positive /\ k = 2%nat).
  { unfold dv. destruct k as [|[|[|k]]]; [auto|auto|auto|lia]. }
  assert (D2 : 1 <= Zpos (digits2_pos dv) <= 7).
  { destruct Dv as [[-> _]|[[-> _]|[-> _]]]; simpl; lia. }
  destruct (of_decimal_normal false p dv) as [mr [er [E [Bm [Be V]]]]];
    [lia|lia|].
  rewrite E. cbn [val expo]. unfold scale.
  split; [right; exists mr, er; repeat split; unfold scale; lia|].
  assert (Hn : 0 <= Zpos p * 10 ^ (2 - Z.of_nat k)).
  { destruct Dv as [[_ ->]|[[_ ->]|[_ ->]]]; simpl; lia. }
  split; [exact Hn|].
  assert (P2 : 2 ^ 200 = 2 ^ (- er) * 2 ^ (er + 200)).
  { rewrite <- Z.pow_add_r by lia. f_equal. lia. }
  rewrite P2.
  assert (PD : 0 < 2 ^ (- er)) by (apply Z.pow_pos_nonneg; lia).
  assert (PU : 0 < 2 ^ (er + 200)) by (apply Z.pow_pos_nonneg; lia).
  revert V PD PU. generalize (2 ^ (- er)) (2 ^ (er + 200)).
  intros dd u V PD PU.
  assert (W : Z.abs (100 * Zpos mr - Zpos p * 10 ^ (2 - Z.of_nat k) * dd)
              <= 200).
  { destruct Dv as [[-> ->]|[[-> ->]|[-> ->]]];
      [change (10 ^ (2 - Z.of_nat 0)) with 100
      |change (10 ^ (2 - Z.of_nat 1)) with 10
      |change (10 ^ (2 - Z.of_nat 2)) with 1]; lia. }
  replace (100 * (Zpos mr * u) - Zpos p * 10 ^ (2 - Z.of_nat k) * (dd * u))
    with ((100 * Zpos mr - Zpos p * 10 ^ (2 - Z.of_nat k) * dd) * u)
    by (generalize (10 ^ (2 - Z.of_nat k)); intros; lia).
  rewrite Z.abs_mul, (Z.abs_eq u) by lia.
  apply Z.mul_le_mono_nonneg_r; [lia|exact W].
Qed.

Lemma normal_weaken (b b' : Z) (x : float) :
  b <= b' -> normal b x -> normal b' x.
Proof.
  intros H [->|[m [e [-> [Bm Be]]]]]; [left; reflexivity|].
  right. exists m, e. repeat split; lia.
Qed.

(** The amount of a line with quantity 1 is its price. *)
Lemma fmul_one_id (x : float) : normal 100 x -> fmul (of_int 1) x = x.
Proof.
  intros [->|[m [e [-> [Bm Be]]]]]; [reflexivity|].
  apply fmul_one_normal; [exact Bm|unfold scale in Be; lia].
Qed.

(** The hundredths of a float that is close enough to a number of
    hundredths. *)
Lemma hundredths_close (mr : positive) (er h K : Z) :
  er < 0 -> 0 <= h ->
  Z.abs (Zpos mr * 100 - h * 2 ^ (- er)) <= K ->
  2 * K < 2 ^ (- er) ->
  hundredths mr er = h.
Proof.
  intros E Ph B KD.
  destruct (hundredths_nearest mr er) as [N0 [_ N]].
  specialize (N E).
  revert B N KD. generalize (2 ^ (- er)). intros dd B N KD.
  set (x := hundredths mr er) in *.
  destruct (Z.lt_trichotomy x h) as [C|[C|C]]; [exfalso|exact C|exfalso]; nia.
Qed.

Lemma sum_hundredths_nonneg (ts : list (Z * nat)) :
  Forall (fun t => 0 <= fst t < 10 ^ 12 /\ (snd t <= 2)%nat) ts ->
  0 <= sum_hundredths ts.
Proof.
  unfold sum_hundredths. induction 1 as [|t ts [B K] _ IH]; [simpl; lia|].
  cbn [map fold_right]. destruct (price_normal t B K) as [_ [H _]]. lia.
Qed.

(** The running total of prices: normal, and within 300 units of its
    last place per term of the hundredths added so far. *)
Lemma running_total (ts : list (Z * nat)) : forall (T : float) (j H : Z),
  Forall (fun t => 0 <= fst t < 10 ^ 12 /\ (snd t <= 2)%nat) ts ->
  normal (-20) T -> 0 <= j -> 0 <= H ->
  Z.abs (100 * val T - H * 2 ^ scale) <= 300 * j * 2 ^ (expo T + scale) ->
  j + Z.of_nat (List.length ts) <= 1000 ->
  H + sum_hundredths ts < 10 ^ 10 ->
  let T' := fold_left fadd (map typed_price ts) T in
  normal (-20) T'
  /\ Z.abs (100 * val T' - (H + sum_hundredths ts) * 2 ^ scale)
     <= 300 * (j + Z.of_nat (List.length ts)) * 2 ^ (expo T' + scale).
Proof.
  induction ts as [|t ts IH]; intros T j H F N Pj PH E L S.
  - cbn. unfold sum_hundredths in *. cbn in *.
    rewrite !Z.add_0_r. split; assumption.
  - inversion F as [|? ? [Bt Kt] Fts]; subst.
    pose proof (sum_hundredths_nonneg ts Fts) as Ps.
    destruct (price_normal t Bt Kt) as [Nx [Ph Ex]].
    change (sum_hundredths (t :: ts))
      with (typed_hundredths t + sum_hundredths ts) in *.
    destruct (fadd_normal (-9) T (typed_price t)
                (normal_weaken (-20) (-9) T ltac:(lia) N) Nx ltac:(lia))
      as [N1 [E1 [X1 X2]]].
    set (T1 := fadd T (typed_price t)) in *.
    cbn [map fold_left List.length]. fold T1.
    cbn [List.length] in L. rewrite Nat2Z.inj_succ in *.
    assert (U1 : 0 < 2 ^ (expo T1 + scale)).
    { apply Z.pow_pos_nonneg; [lia|].
      destruct N1 as [->|[m [e [-> [_ Be]]]]]; cbn [expo]; unfold scale in *; lia. }
    assert (Ua : 2 ^ (expo T + scale) <= 2 ^ (expo T1 + scale)).
    { apply Z.pow_le_mono_r; [lia|lia]. }
    assert (Ub : 2 ^ (expo (typed_price t) + scale) <= 2 ^ (expo T1 + scale)).
    { apply Z.pow_le_mono_r; [lia|lia]. }
    assert (Err : Z.abs (100 * val T1
                         - (H + typed_hundredths t) * 2 ^ scale)
                  <= 300 * (j + 1) * 2 ^ (expo T1 + scale)).
    { revert E E1 Ex U1 Ua Ub.
      generalize (2 ^ (expo T + scale)) (2 ^ (expo T1 + scale))
        (2 ^ (expo (typed_price t) + scale)) (2 ^ scale)
        (val T) (val T1) (val (typed_price t)).
      intros u u1 ux w vT vT1 vx E E1 Ex U1 Ua Ub.
      assert (300 * j * u <= 300 * j * u1) by nia.
      lia. }
    assert (N20 : normal (-20) T1).
    { destruct N1 as [E0|[m [e [E0 [Bm Be]]]]]; [left; exact E0|].
      right. exists m, e. split; [exact E0|]. split; [exact Bm|].
      split; [lia|].
      destruct (Z.le_gt_cases e (-20)) as [C|C]; [exact C|exfalso].
      rewrite E0 in Err, U1. cbn [val expo] in Err, U1. unfold scale in *.
      assert (P181 : 2 ^ 181 <= 2 ^ (e + 200))
        by (apply Z.pow_le_mono_r; lia).
      change (2 ^ 52) with 4503599627370496 in Bm.
      revert Err U1 P181. generalize (2 ^ (e + 200)). intros u Err U1 P181.
      change (2 ^ 200) with (524288 * 2 ^ 181) in Err.
      change (10 ^ 10) with 10000000000 in S.
      assert (G : H + typed_hundredths t < 10000000000) by lia.
      assert (Mu : 4503599627370496 * u <= Zpos m * u) by nia.
      assert (Ju : (j + 1) * u <= 1000 * u) by nia.
      assert (Gu : (H + typed_hundredths t) * (524288 * 2 ^ 181)
                   <= 10000000000 * (524288 * 2 ^ 181)).
      { apply Z.mul_le_mono_nonneg_r; [|lia].
        change (2 ^ 181) with 3064991081731777716716694054300618367237478244367204352. lia. }
      replace (300 * (j + 1) * u) with (300 * ((j + 1) * u)) in Err by lia.
      replace (100 * (Zpos m * u)) with (100 * (Zpos m * u)) in Err by lia.
      revert Mu Ju Gu Err P181.
      generalize (Zpos m * u) ((j + 1) * u)
        ((H + typed_hundredths t) * (524288 * 2 ^ 181)).
      intros a b c Mu Ju Gu Err P181.
      change (2 ^ 181) with 3064991081731777716716694054300618367237478244367204352 in *.
      lia. }
    destruct (IH T1 (j + 1) (H + typed_hundredths t) Fts N20
                ltac:(lia) ltac:(lia) Err ltac:(lia) ltac:(lia)) as [Nf Ef].
    split; [exact Nf|].
    replace (H + (typed_hundredths t + sum_hundredths ts))
      with (H + typed_hundredths t + sum_hundredths ts) by lia.
    replace (j + Z.succ (Z.of_nat (List.length ts)))
      with (j + 1 + Z.of_nat (List.length ts)) by lia.
    exact Ef.
Qed.

End TotalFacts.

(* ================================================================== *)
(** * The total of the document *)
(* ================================================================== *)
Import TotalFacts.

(** X25. The TOTAL line of the PDF shows the exact sum of the amounts as
    typed: for at most 1000 items of quantity 1 whose prices were typed
    without sign, with at most two decimals and at most twelve digits,
    and whose sum stays under 100 million, the running total the loop
    adds up in floating point is printed as the sum of the typed
    hundredths, no rounding error of the additions showing. *)
Theorem pdf_total_is_the_exact_sum (cur : str) (typed : list (Z * nat))
    (items : list item) (c : canvas) (y : Z) :
  (List.length typed <= 1000)%nat ->
  Forall (fun t => 0 <= fst t < 10 ^ 12 /\ (snd t <= 2)%nat) typed ->
  sum_hundredths typed < 10 ^ 10 ->
  Forall2 (fun it t => qty it = 1 /\ unit_price it = typed_price t)
          items typed ->
  let st := draw_items cur items (c, y, zero) in
  format_2f (snd st) = fixed2 (sum_hundredths typed)
  /\ exists c' y',
       draw_total cur st =
       emit (DrawRightString 560 y'
               (lit "TOTAL: "
                ++ strip ((if str_eqb cur (lit "USD") then lit "$" else [])
                          ++ fixed2 (sum_hundredths typed)
                          ++ lit " " ++ cur))) c'.
Proof.
  intros L F S R st.
  assert (Tot : snd st = fold_left fadd (map typed_price typed) zero).
  { unfold st. rewrite draw_items_total. f_equal.
    clear - R F. induction R as [|it t items typed [Q U] _ IH]; [reflexivity|].
    inversion F as [|? ? [B K] F']; subst.
    cbn [map]. rewrite Q, U, (IH F'). f_equal.
    apply fmul_one_id. apply (normal_weaken (-9) 100); [lia|].
    exact (proj1 (price_normal t B K)). }
  assert (Fmt : format_2f (snd st) = fixed2 (sum_hundredths typed)).
  { rewrite Tot.
    pose proof (sum_hundredths_nonneg typed F) as Ps.
    destruct (running_total typed zero 0 0 F) as [N E];
      [left; reflexivity|lia|lia| |lia|lia|].
    { unfold zero. cbn [val expo].
      generalize (2 ^ scale) (2 ^ (- scale + scale)). intros u v.
      replace (100 * 0 - 0 * u) with 0 by lia.
      replace (300 * 0 * v) with 0 by reflexivity. simpl. lia. }
    cbv zeta in N, E.
    set (T := fold_left fadd (map typed_price typed) zero) in *.
    rewrite !Z.add_0_l in E.
    assert (Le : 300 * Z.of_nat (List.length typed) <= 300000) by lia.
    destruct N as [Z0|[m [e [Em [Bm Be]]]]].
    - rewrite Z0 in *. cbn [val expo format_2f sign_str app] in *.
      replace (- scale + scale) with 0 in E by lia.
      change (2 ^ 0) with 1 in E.
      assert (P : 2 ^ 20 <= 2 ^ scale)
        by (apply Z.pow_le_mono_r; unfold scale; lia).
      change (2 ^ 20) with 1048576 in P.
      revert E P. generalize (2 ^ scale). intros u E P.
      f_equal.
      destruct (Z.eq_dec (sum_hundredths typed) 0) as [C|C]; [lia|].
      exfalso. replace (100 * 0 - sum_hundredths typed * u)
        with (- (sum_hundredths typed * u)) in E by lia.
      rewrite Z.abs_opp, Z.abs_eq in E; nia.
    - rewrite Em in *. cbn [val expo format_2f sign_str app] in *.
      f_equal. apply (hundredths_close m e _ 300000); [lia|exact Ps| |].
      + assert (P2 : 2 ^ scale = 2 ^ (- e) * 2 ^ (e + scale)).
        { rewrite <- Z.pow_add_r by (unfold scale in *; lia). f_equal. lia. }
        rewrite P2 in E.
        assert (PU : 0 < 2 ^ (e + scale))
          by (apply Z.pow_pos_nonneg; unfold scale in *; lia).
        revert E PU. generalize (2 ^ (- e)) (2 ^ (e + scale)).
        generalize (sum_hundredths typed). intros h dd u E PU.
        replace (100 * (Zpos m * u) - h * (dd * u))
          with ((Zpos m * 100 - h * dd) * u) in E by lia.
        rewrite Z.abs_mul, (Z.abs_eq u) in E by lia.
        assert (E' : Z.abs (Zpos m * 100 - h * dd) * u <= 300000 * u).
        { eapply Z.le_trans; [exact E|].
          apply Z.mul_le_mono_nonneg_r; lia. }
        apply Z.mul_le_mono_pos_r in E'; [exact E'|exact PU].
      + assert (P : 2 ^ 20 <= 2 ^ (- e)) by (apply Z.pow_le_mono_r; lia).
        change (2 ^ 20) with 1048576 in P. lia. }
  split; [exact Fmt|].
  destruct st as [[c' y'] total]. cbn [snd] in Fmt.
  exists (emit (SetFont "Helvetica-Bold" 12) c'), (y' - 8).
  unfold draw_total, money. rewrite Fmt. reflexivity.
Qed.

Lemma pdf_total_is_the_exact_sum_witness :
  let typed := [(1, 1%nat); (2, 1%nat)] in
  let items :=
    [ {| desc := lit "Design"; qty := 1; unit_price := typed_price (1, 1%nat) |};
      {| desc := lit "Hosting"; qty := 1; unit_price := typed_price (2, 1%nat) |} ] in
  ((List.length typed <= 1000)%nat /\ sum_hundredths typed < 10 ^ 10)
  /\ parse_items (lit "Design 0.1" ++ newline :: lit "Hosting 0.2") = inl items
  /\ fadd (typed_price (1, 1%nat)) (typed_price (2, 1%nat))
     <> of_decimal false 3 1
  /\ format_2f (snd (draw_items (lit "USD") items (new_canvas, 606, zero)))
     = lit "0.30".
Proof.
  intros typed items.
  assert (L : (List.length typed <= 1000)%nat) by (simpl; lia).
  assert (S : sum_hundredths typed < 10 ^ 10) by reflexivity.
  assert (F : Forall (fun t => 0 <= fst t < 10 ^ 12 /\ (snd t <= 2)%nat) typed).
  { repeat constructor; cbn [fst snd]; try lia; reflexivity. }
  assert (R : Forall2 (fun it t => qty it = 1 /\ unit_price it = typed_price t)
                      items typed).
  { repeat constructor. }
  split; [split; [exact L|exact S]|].
  split; [vm_compute; reflexivity|].
  split; [vm_compute; discriminate|].
  exact (proj1 (pdf_total_is_the_exact_sum (lit "USD") typed items
                  new_canvas 606 L F S R)).
Defined.
